(** * MSlash interpreter (main.py): a shallow embedding and its properties

    The interpreter of main.py is embedded as Rocq functions over an explicit
    interpreter state.  Python dictionaries are finite maps, the two global
    registries FUNCTIONS and CLASSES are fields of the state, instances of
    MSlashObject live in a store indexed by address (they are shared by
    reference), console output and input are lists of strings, and the
    exceptions of Python are an explicit outcome of every computation.

    Python's built-in [eval] and [repr] are not part of main.py: they are the
    fields of the class [Host].  An evaluation is a computation of Python
    like any other: it returns or raises, and it may change the state on
    its way.  Lists and dictionaries are objects with an identity, like
    instances: a value holds their address and the state holds their
    contents.  The debug trace (DEBUG = False at module level) is not
    modelled, floats are not modelled, and the text is ASCII. *)

From Stdlib Require Import ZArith Ascii String.
From stdpp Require Import base option list gmap strings pretty.

Set Warnings "-register-all".

Local Open Scope Z_scope.
Local Open Scope nat_scope.

(** ** Python string operations and the regular expressions of main.py *)

Module Text.

Definition nl : ascii := ascii_of_nat 10.
Definition dquote : ascii := ascii_of_nat 34.

(** [str.isspace] on one ASCII character, which is also the class \s. *)
Definition isspace (c : ascii) : bool :=
  let n := nat_of_ascii c in
  ((9 <=? n) && (n <=? 13)) || ((28 <=? n) && (n <=? 32)).

Definition is_digit (c : ascii) : bool :=
  let n := nat_of_ascii c in (48 <=? n) && (n <=? 57).

(** [[a-zA-Z_]] and [[a-zA-Z0-9_]]. *)
Definition is_ident_start (c : ascii) : bool :=
  let n := nat_of_ascii c in
  ((65 <=? n) && (n <=? 90)) || ((97 <=? n) && (n <=? 122)) || (n =? 95).

Definition is_ident_char (c : ascii) : bool :=
  is_ident_start c || is_digit c.

Definition is_empty (s : string) : bool :=
  match s with EmptyString => true | String _ _ => false end.

Fixpoint lstrip (s : string) : string :=
  match s with
  | EmptyString => EmptyString
  | String c s' => if isspace c then lstrip s' else s
  end.

Fixpoint rstrip (s : string) : string :=
  match s with
  | EmptyString => EmptyString
  | String c s' =>
    let r := rstrip s' in
    if isspace c && is_empty r then EmptyString else String c r
  end.

(** [s.strip()] *)
Definition strip (s : string) : string := rstrip (lstrip s).

(** [s.startswith(p)] *)
Definition startswith (p s : string) : bool := String.prefix p s.

(** [sub in s] *)
Fixpoint contains (sub s : string) : bool :=
  String.prefix sub s ||
  match s with
  | EmptyString => false
  | String _ s' => contains sub s'
  end.

(** [s[n:]] *)
Fixpoint skip (n : nat) (s : string) : string :=
  match n, s with
  | O, _ => s
  | S _, EmptyString => EmptyString
  | S n', String _ s' => skip n' s'
  end.

Fixpoint has_newline (s : string) : bool :=
  match s with
  | EmptyString => false
  | String c s' => Ascii.eqb c nl || has_newline s'
  end.

(** [s.split(sep, 1)] unpacked into two names: [None] is the ValueError
of the unpacking when [sep] does not occur. *)
Fixpoint split_once (sep : ascii) (s : string) : option (string * string) :=
  match s with
  | EmptyString => None
  | String c s' =>
    if Ascii.eqb c sep then Some (EmptyString, s')
    else match split_once sep s' with
         | Some (a, b) => Some (String c a, b)
         | None => None
         end
  end.

(** [s.split(sep)] *)
Fixpoint split (sep : ascii) (s : string) : list string :=
  match s with
  | EmptyString => [EmptyString]
  | String c s' =>
    if Ascii.eqb c sep then EmptyString :: split sep s'
    else match split sep s' with
         | h :: t => String c h :: t
         | [] => [String c EmptyString]
         end
  end.

(** [s.split()]: the maximal runs of non-space characters. *)
Fixpoint split_ws (s : string) : list string :=
  match s with
  | EmptyString => []
  | String c s' =>
    if isspace c then split_ws s'
    else match s' with
         | EmptyString => [String c EmptyString]
         | String c' _ =>
             if isspace c' then String c EmptyString :: split_ws s'
             else match split_ws s' with
                  | h :: t => String c h :: t
                  | [] => [String c EmptyString]
                  end
         end
  end.

Fixpoint unsnoc (s : string) : option (string * ascii) :=
  match s with
  | EmptyString => None
  | String c s' =>
    match unsnoc s' with
    | None => Some (EmptyString, c)
    | Some (i, l) => Some (String c i, l)
    end
  end.

(** The dollar anchor also matches before one final newline. *)
Definition chomp (s : string) : string :=
  match unsnoc s with
  | Some (i, l) => if Ascii.eqb l nl then i else s
  | None => s
  end.

Fixpoint ident_tail (s : string) : string * string :=
  match s with
  | EmptyString => (EmptyString, EmptyString)
  | String c s' =>
    if is_ident_char c
    then let '(a, b) := ident_tail s' in (String c a, b)
    else (EmptyString, s)
  end.

(** The longest identifier at the start of [s], and the rest. *)
Definition take_ident (s : string) : option (string * string) :=
  match s with
  | EmptyString => None
  | String c s' =>
    if is_ident_start c
    then let '(a, b) := ident_tail s' in Some (String c a, b)
    else None
  end.

(** An opening parenthesis, any text without a newline and a closing
parenthesis that ends [s]. *)
Definition parenthesised (s : string) : option string :=
  match s with
  | String "("%char s' =>
    match unsnoc s' with
    | Some (inner, ")"%char) =>
        if has_newline inner then None else Some inner
    | _ => None
    end
  | _ => None
  end.

Definition call_pattern (s : string) : option (string * string) :=
  match take_ident s with
  | Some (name, rest) =>
    match parenthesised rest with
    | Some args => Some (name, args)
    | None => None
    end
  | None => None
  end.

(** The pattern of lines 112 and 244: an identifier and a parenthesised
argument text, anchored at both ends. *)
Definition match_call (s : string) : option (string * string) :=
  call_pattern (chomp s).

(** The greedy first group takes the last dot after which the rest of the
pattern still matches. *)
Fixpoint method_pattern (s : string) : option (string * string * string) :=
  match s with
  | EmptyString => None
  | String c s' =>
    match method_pattern s' with
    | Some (o, m, a) => Some (String c o, m, a)
    | None =>
        if Ascii.eqb c "."%char
        then match call_pattern s' with
             | Some (m, a) => Some (EmptyString, m, a)
             | None => None
             end
        else None
    end
  end.

(** The pattern of line 113: any text, a dot, an identifier and a
parenthesised argument text, anchored at both ends. *)
Definition match_method (s : string) : option (string * string * string) :=
  let s := chomp s in
  if has_newline s then None else method_pattern s.

(** A greedy any-text group and a closing parenthesis without an end
anchor: the text up to the last closing parenthesis of the first line
of [s]. *)
Fixpoint upto_last_rparen (s : string) : option string :=
  match s with
  | EmptyString => None
  | String c s' =>
    if Ascii.eqb c nl then None
    else match upto_last_rparen s' with
         | Some i => Some (String c i)
         | None => if Ascii.eqb c ")"%char then Some EmptyString else None
         end
  end.

(** The patterns of lines 163, 456 and 520: the keyword (new or func),
spaces, an identifier, optional spaces and a parenthesised text, with
no end anchor. *)
Definition match_keyword_call (kw s : string) : option (string * string) :=
  if String.prefix kw s then
  match skip (String.length kw) s with
  | String c r =>
      if isspace c then
        match take_ident (lstrip r) with
        | Some (name, r2) =>
            match lstrip r2 with
            | String "("%char r3 =>
                match upto_last_rparen r3 with
                | Some inner => Some (name, inner)
                | None => None
                end
            | _ => None
            end
        | None => None
        end
      else None
  | EmptyString => None
  end
  else None.

Definition match_new : string -> option (string * string) :=
  match_keyword_call "new".
Definition match_func : string -> option (string * string) :=
  match_keyword_call "func".

Fixpoint no_space (s : string) : bool :=
  match s with
  | EmptyString => true
  | String c s' => negb (isspace c) && no_space s'
  end.

(** One or more \s, then the rest. *)
Definition spaces1 (s : string) : option string :=
  match s with
  | String c r => if isspace c then Some (lstrip r) else None
  | EmptyString => None
  end.

(** The pattern of line 117: steal, spaces, an identifier, spaces, from,
spaces and a run of non-space characters up to the end. *)
Definition match_steal (s : string) : option (string * string) :=
  let s := chomp s in
  if String.prefix "steal" s then
  match spaces1 (skip 5 s) with
  | Some r1 =>
      match take_ident r1 with
      | Some (symbol, r2) =>
          match spaces1 r2 with
          | Some r3 =>
              if String.prefix "from" r3 then
                match spaces1 (skip 4 r3) with
                | Some path =>
                    if negb (is_empty path) && no_space path
                    then Some (symbol, path) else None
                | None => None
                end
              else None
          | None => None
          end
      | None => None
      end
  | None => None
  end
  else None.

(** A closing brace before the end of the line. *)
Fixpoint closes (s : string) : bool :=
  match s with
  | EmptyString => false
  | String c s' =>
    if Ascii.eqb c "}"%char then true
    else if Ascii.eqb c nl then false
    else closes s'
  end.

Fixpoint remove_comments (prev_dollar skipping : bool) (s : string) : string :=
  match s with
  | EmptyString => EmptyString
  | String c s' =>
    if skipping then
      remove_comments false (negb (Ascii.eqb c "}"%char)) s'
    else if Ascii.eqb c "{"%char && negb prev_dollar && closes s' then
      remove_comments false true s'
    else String c (remove_comments (Ascii.eqb c "$"%char) false s')
  end.

(** The brace-free body of an interpolation and what follows its closing
brace. *)
Fixpoint interp_body (s : string) : option (string * string) :=
  match s with
  | EmptyString => None
  | String c s' =>
    if Ascii.eqb c "}"%char then Some (EmptyString, s')
    else if Ascii.eqb c "{"%char then None
    else match interp_body s' with
         | Some (e, r) => Some (String c e, r)
         | None => None
         end
  end.

(** The search of line 29 for a dollar, an opening brace, a brace-free
text and a closing brace: the text before the leftmost match, its
group and the text after it. *)
Fixpoint search_interp (s : string) : option (string * string * string) :=
  match s with
  | EmptyString => None
  | String c s' =>
    match (if Ascii.eqb c "$"%char
           then match s' with
                | String "{"%char s'' => interp_body s''
                | _ => None
                end
           else None) with
    | Some (e, after) => Some (EmptyString, e, after)
    | None =>
        match search_interp s' with
        | Some (b, e, a) => Some (String c b, e, a)
        | None => None
        end
    end
  end.

(** Decimal digits with single underscores between them. *)
Fixpoint digits (acc : Z) (prev_digit : bool) (s : string) : option Z :=
  match s with
  | EmptyString => if prev_digit then Some acc else None
  | String c s' =>
    if is_digit c
    then digits (10 * acc + Z.of_nat (nat_of_ascii c - 48))%Z true s'
    else if Ascii.eqb c "_"%char && prev_digit then digits acc false s'
    else None
  end.

(** [int(s)] on a string: [None] is its ValueError. *)
Definition py_int (s : string) : option Z :=
  match strip s with
  | String "-"%char r => Z.opp <$> digits 0%Z false r
  | String "+"%char r => digits 0%Z false r
  | r => digits 0%Z false r
  end.

(** [s * n] *)
Fixpoint repeat_str (s : string) (n : nat) : string :=
  match n with
  | O => EmptyString
  | S n' => s +:+ repeat_str s n'
  end.

End Text.

(** [strip_inline_comments] removes every shortest brace-delimited text of
    one line whose opening brace does not follow a dollar. *)
Definition strip_inline_comments (line : string) : string :=
  Text.remove_comments false false line.

(** ** Values, blueprints and the interpreter state *)

(** The values an environment holds.  A list, a dictionary and an instance
    of [MSlashObject] are mutable objects: the value is the address of the
    object in the store, and copying a value copies the reference. *)
Inductive value : Type :=
  | VNone
  | VBool (b : bool)
  | VInt (n : Z)
  | VStr (s : string)
  | VList (a : nat)
  | VDict (a : nat)
  | VInst (a : nat).

(** A function or method blueprint: the dictionary with keys args and body. *)
Record func_info : Type := FuncInfo {
    args : list string;
    body : list string;
  }.

(** A class blueprint: the dictionary with key methods. *)
Record class_info : Type := ClassInfo {
    methods : gmap string func_info;
  }.

(** [class MSlashObject]: the two fields set by [__init__]. *)
Record MSlashObject : Type := MkObject {
    class_name : string;
    attributes : gmap string value;
  }.

(** [MSlashObject.__repr__] *)
Definition MSlashObject_repr (o : MSlashObject) : string :=
  "<instance of " +:+ class_name o +:+ ">".

(** The state of the process: the two global registries, the stores of
    instances, of lists and of dictionaries, the console and the files that
    can be opened. *)
Record interp : Type := Interp {
    FUNCTIONS : gmap string func_info;
    CLASSES : gmap string class_info;
    objects : list MSlashObject;
    lists : list (list value);
    dicts : list (list (value * value));
    stdout : list string;
    stdin : list string;
    files : gmap string (list string);
  }.

Definition set_FUNCTIONS (f : gmap string func_info) (st : interp) : interp :=
  Interp f (CLASSES st) (objects st) (lists st) (dicts st) (stdout st)
         (stdin st) (files st).
Definition set_CLASSES (c : gmap string class_info) (st : interp) : interp :=
  Interp (FUNCTIONS st) c (objects st) (lists st) (dicts st) (stdout st)
         (stdin st) (files st).
Definition set_objects (o : list MSlashObject) (st : interp) : interp :=
  Interp (FUNCTIONS st) (CLASSES st) o (lists st) (dicts st) (stdout st)
         (stdin st) (files st).
Definition set_lists (l : list (list value)) (st : interp) : interp :=
  Interp (FUNCTIONS st) (CLASSES st) (objects st) l (dicts st) (stdout st)
         (stdin st) (files st).
Definition set_dicts (d : list (list (value * value))) (st : interp)
    : interp :=
  Interp (FUNCTIONS st) (CLASSES st) (objects st) (lists st) d (stdout st)
         (stdin st) (files st).
Definition set_stdout (o : list string) (st : interp) : interp :=
  Interp (FUNCTIONS st) (CLASSES st) (objects st) (lists st) (dicts st) o
         (stdin st) (files st).
Definition set_stdin (i : list string) (st : interp) : interp :=
  Interp (FUNCTIONS st) (CLASSES st) (objects st) (lists st) (dicts st)
         (stdout st) i (files st).

(** ** Python exceptions and the monad of the interpreter *)

Inductive exn_class : Type :=
  | SyntaxError | NameError | TypeError | ValueError | AttributeError
  | ZeroDivisionError | KeyError | IndexError | EOFError | FileNotFoundError
  | SystemExit | KeyboardInterrupt.

Record py_exn : Type := Exn {
    exn_kind : exn_class;
    exn_msg : string;
  }.

(** [isinstance(e, Exception)]: SystemExit and KeyboardInterrupt derive from
    BaseException only. *)
Definition is_Exception (e : py_exn) : bool :=
  match exn_kind e with
  | SystemExit | KeyboardInterrupt => false
  | _ => true
  end.

Definition is_ValueError (e : py_exn) : bool :=
  match exn_kind e with ValueError => true | _ => false end.

Definition is_ValueError_or_IndexError (e : py_exn) : bool :=
  match exn_kind e with ValueError | IndexError => true | _ => false end.

Definition is_FileNotFoundError (e : py_exn) : bool :=
  match exn_kind e with FileNotFoundError => true | _ => false end.

(** A computation ends with a value, with a raised exception, or the model
    runs out of fuel; the first two carry the state reached. *)
Inductive result (A : Type) : Type :=
  | Ok (a : A) (st : interp)
  | Raise (e : py_exn) (st : interp)
  | OutOfFuel.
Arguments Ok {A} a st.
Arguments Raise {A} e st.
Arguments OutOfFuel {A}.

Definition M (A : Type) : Type := interp -> result A.

Definition ret {A : Type} (a : A) : M A := fun st => Ok a st.

Definition bind {A B : Type} (m : M A) (k : A -> M B) : M B :=
  fun st =>
    match m st with
    | Ok a st' => k a st'
    | Raise e st' => Raise e st'
    | OutOfFuel => OutOfFuel
    end.

Declare Scope mslash_scope.
Delimit Scope mslash_scope with mslash.
Notation "x <- m ;; k" := (bind m (fun x => k))
  (at level 20, m at level 99, k at level 200, only parsing) : mslash_scope.
Notation "' pat <- m ;; k" := (bind m (fun x => match x with pat => k end))
  (at level 20, pat pattern, m at level 99, k at level 200, only parsing)
  : mslash_scope.
Notation "m ;; k" := (bind m (fun _ => k))
  (at level 100, k at level 200, only parsing, right associativity)
  : mslash_scope.
Local Open Scope mslash_scope.

Definition raise {A : Type} (e : py_exn) : M A := fun st => Raise e st.

Definition out_of_fuel {A : Type} : M A := fun _ => OutOfFuel.

(** One except clause: the exception classes it names and its body. *)
Definition except {A : Type} (cls : py_exn -> bool) (h : py_exn -> M A)
    : py_exn -> option (M A) :=
  fun e => if cls e then Some (h e) else None.

Fixpoint first_clause {A : Type} (clauses : list (py_exn -> option (M A)))
    (e : py_exn) : option (M A) :=
  match clauses with
  | [] => None
  | c :: cs => match c e with Some h => Some h | None => first_clause cs e end
  end.

(** [try: m except ...]: the first clause that names the exception runs, and
    an exception that no clause names goes on. *)
Definition try_except {A : Type} (m : M A)
    (clauses : list (py_exn -> option (M A))) : M A :=
  fun st =>
    match m st with
    | Raise e st' =>
        match first_clause clauses e with
        | Some h => h st'
        | None => Raise e st'
        end
    | r => r
    end.

(** [try: m finally: cleanup] for a cleanup that only assigns. *)
Definition finally {A : Type} (m : M A) (cleanup : interp -> interp) : M A :=
  fun st =>
    match m st with
    | Ok a st' => Ok a (cleanup st')
    | Raise e st' => Raise e (cleanup st')
    | OutOfFuel => OutOfFuel
    end.

Definition get {A : Type} (f : interp -> A) : M A := fun st => Ok (f st) st.
Definition modify (f : interp -> interp) : M unit := fun st => Ok tt (f st).

(** [print(s, end="")] and [print(s)] *)
Definition write (s : string) : M unit :=
  modify (fun st => set_stdout (stdout st ++ [s]) st).
Definition print (s : string) : M unit :=
  write (s +:+ String Text.nl EmptyString).

(** The state after [print(msg)]. *)
Definition printed (msg : string) (st : interp) : interp :=
  set_stdout (stdout st ++ [msg +:+ String Text.nl EmptyString]) st.

(** [input(prompt)]: EOFError when no line is left. *)
Definition py_input (prompt : option string) : M string :=
  match prompt with Some p => write p | None => ret tt end ;;
  fun st =>
    match stdin st with
    | [] => Raise (Exn EOFError "EOF when reading a line") st
    | l :: ls => Ok l (set_stdin ls st)
    end.

(** ** The host language *)

(** The built-ins of Python the interpreter delegates to.
    [py_eval e b l st] is [eval(e, globals, l)] in the state [st], where the
    globals allow the whitelist of line 45 ([b] true) or no built-in at all
    ([b] false): the value it returns or the exception it raises, and the
    state it leaves.  An expression is not confined to reading: a method
    call on a list, a dictionary or the attributes of an instance changes
    the object, and through the attributes of a method an expression reaches
    the globals of main.py and the modules it imports, so an evaluation may
    change any part of the state, and may raise SystemExit.  The interpreter
    hands [eval] a copy of the environment, so the bindings of the
    environment itself are out of its reach.  The one law: what has been
    printed stays printed.  An evaluation that does not end is not
    modelled.  [py_repr st v] is [repr(v)] on the built-in types. *)
Class Host : Type := {
    py_eval : string -> bool -> gmap string value -> interp ->
              (value + py_exn) * interp;
    py_repr : interp -> value -> string;
    py_eval_stdout :
      forall e b l st, stdout st `prefix_of` stdout (py_eval e b l st).2;
  }.

Section Evaluator.
Context `{Host}.

(** [str(v)] in the state [st] *)
Definition py_str (st : interp) (v : value) : string :=
  match v with
  | VStr s => s
  | VInst a =>
    match objects st !! a with
    | Some o => MSlashObject_repr o
    | None => py_repr st v
    end
  | _ => py_repr st v
  end.

(** The truth value of [v] in [if v:], in the state [st]: a list and a
    dictionary are true when they are not empty. *)
Definition truthy (st : interp) (v : value) : bool :=
  match v with
  | VNone => false
  | VBool b => b
  | VInt n => negb (n =? 0)%Z
  | VStr s => negb (Text.is_empty s)
  | VList a => match lists st !! a with Some [] => false | _ => true end
  | VDict a => match dicts st !! a with Some [] => false | _ => true end
  | VInst _ => true
  end.

Definition host_eval (expression : string) (builtins : bool)
  (eval_locals : gmap string value) : M value :=
  fun st =>
  match py_eval expression builtins eval_locals st with
  | (inl v, st') => Ok v st'
  | (inr e, st') => Raise e st'
  end.

(** [variables.copy()] updated with the attributes of [this] when [this]
is bound to an instance (lines 60 to 62). *)
Definition eval_locals_of (variables : gmap string value)
  (heap : list MSlashObject) : gmap string value :=
  match variables !! "this" with
  | Some (VInst a) =>
    match heap !! a with
    | Some o => attributes o ∪ variables
    | None => variables
    end
  | _ => variables
  end.

(** [safe_eval] (lines 41 to 67). *)
Definition safe_eval (expression : string) (variables : gmap string value)
  : M value :=
  eval_locals <- get (fun st => eval_locals_of variables (objects st)) ;;
  try_except (host_eval expression true eval_locals)
           [except is_Exception (fun _ => ret VNone)].

(** [substitute_vars] (lines 24 to 39); every turn of its while loop
takes one unit of fuel. *)
Fixpoint substitute_vars (fuel : nat) (line : string)
  (variables : gmap string value) : M string :=
  match fuel with
  | O => out_of_fuel
  | S fuel' =>
    match Text.search_interp line with
    | None => ret line
    | Some (before, expression, after) =>
        v <- safe_eval expression variables ;;
        match v with
        | VNone =>
            print ("Warning: Could not evaluate nested expression '$"
                   +:+ expression +:+ "'.") ;;
            ret line
        | _ =>
            now <- get id ;;
            substitute_vars fuel' (before +:+ py_str now v +:+ after)
                            variables
        end
    end
  end.

End Evaluator.

(** ** The preprocessor *)

(** [[a.strip() for a in arg_str.split(',')] if arg_str else []] *)
Definition split_args (arg_str : string) : list string :=
  if Text.is_empty arg_str then []
  else map Text.strip (Text.split ","%char arg_str).

Definition is_opener (line : string) : bool :=
  Text.startswith "if " line || Text.startswith "loop " line ||
  Text.startswith "func " line || Text.startswith "class " line.

Definition is_closer (line : string) : bool :=
  String.eqb line "endif" || String.eqb line "endloop" ||
  String.eqb line "endfunc" || String.eqb line "endclass".

(** The local variables of [preprocess_class_body]. *)
Record class_scan : Type := MkClassScan {
    cs_methods : gmap string func_info;
    cs_in_method : bool;
    cs_method_name : option string;
    cs_method_args : list string;
    cs_method_body : list string;
    cs_nest_level : Z;
  }.

(** One turn of the for loop of [preprocess_class_body] (lines 515 to 546).
    A method stored under the key None (no func line has matched yet) can
    never be looked up by name and is left out of the map. *)
Definition class_body_step (s : class_scan) (line : string) : class_scan :=
  let clean_line := Text.strip (strip_inline_comments line) in
  let '(MkClassScan ms in_method name margs mbody nest) := s in
  if Text.startswith "func " clean_line then
    if negb in_method then
      match Text.match_func clean_line with
      | Some (method_name, arg_str) =>
          MkClassScan ms true (Some method_name) (split_args arg_str) [] 0%Z
      | None => MkClassScan ms true name margs [] 0%Z
      end
    else MkClassScan ms in_method name margs (mbody ++ [line]) (nest + 1)%Z
  else if String.eqb clean_line "endfunc" then
    if in_method && (nest =? 0)%Z then
      let ms' := match name with
                 | Some n => <[n := FuncInfo margs mbody]> ms
                 | None => ms
                 end in
      MkClassScan ms' false name margs [] nest
    else if in_method then
      MkClassScan ms in_method name margs (mbody ++ [line]) (nest - 1)%Z
    else s
  else if in_method then
    let nest' :=
      if Text.startswith "if " clean_line || Text.startswith "loop " clean_line
      then (nest + 1)%Z
      else if String.eqb clean_line "endif" || String.eqb clean_line "endloop"
      then (if (0 <? nest)%Z then (nest - 1)%Z else nest)
      else nest in
    MkClassScan ms in_method name margs (mbody ++ [line]) nest'
  else s.

(** [preprocess_class_body] (lines 506 to 548). *)
Definition preprocess_class_body (class_name : string)
    (class_lines : list string) : M unit :=
  let s := fold_left class_body_step class_lines
                     (MkClassScan ∅ false None [] [] 0%Z) in
  modify (fun st =>
    set_CLASSES (<[class_name := ClassInfo (cs_methods s)]> (CLASSES st)) st).

Inductive construct : Type := InClass | InFunc.

(** The local variables of [preprocess_script]. *)
Record script_scan : Type := MkScriptScan {
    main_code : list string;
    in_construct : option construct;
    construct_name : option string;
    construct_body : list string;
    nest_level : Z;
    current_class_name : option string;
  }.

Definition key_error {A : Type} (key : string) : M A :=
  raise (Exn KeyError key).

(** One turn of the while loop of [preprocess_script] (lines 439 to 502). *)
Definition script_step (s : script_scan) (line : string) : M script_scan :=
  let clean_line := Text.strip (strip_inline_comments line) in
  let '(MkScriptScan main inc cname cbody nest cls) := s in
  if Text.startswith "class " clean_line then
    match inc with
    | None =>
        match Text.split_ws clean_line !! 1 with
        | Some c => ret (MkScriptScan main (Some InClass) cname [] 0%Z (Some c))
        | None => raise (Exn IndexError "list index out of range")
        end
    | Some _ => ret (MkScriptScan main inc cname (cbody ++ [line]) (nest + 1)%Z cls)
    end
  else if Text.startswith "func " clean_line then
    match inc with
    | None =>
        match Text.match_func clean_line with
        | Some (name, arg_str) =>
            modify (fun st =>
              set_FUNCTIONS
                (<[name := FuncInfo (split_args arg_str) []]> (FUNCTIONS st)) st) ;;
            ret (MkScriptScan main (Some InFunc) (Some name) [] 0%Z cls)
        | None => ret (MkScriptScan main (Some InFunc) cname [] 0%Z cls)
        end
    | Some _ => ret (MkScriptScan main inc cname (cbody ++ [line]) (nest + 1)%Z cls)
    end
  else if Text.startswith "endclass" clean_line then
    match inc with
    | Some InClass =>
        if (nest =? 0)%Z then
          match cls with
          | Some c => preprocess_class_body c cbody
          | None => ret tt
          end ;;
          ret (MkScriptScan main None cname [] nest None)
        else ret (MkScriptScan main inc cname (cbody ++ [line]) (nest - 1)%Z cls)
    | Some InFunc =>
        ret (MkScriptScan main inc cname (cbody ++ [line]) (nest - 1)%Z cls)
    | None =>
        print "Syntax Error: 'endclass' without matching 'class'." ;;
        ret s
    end
  else if String.eqb clean_line "endfunc" then
    match inc with
    | Some kind =>
        if (nest =? 0)%Z then
          match kind with
          | InFunc =>
              functions <- get FUNCTIONS ;;
              match cname with
              | Some name =>
                  match functions !! name with
                  | Some info =>
                      modify (set_FUNCTIONS
                                (<[name := FuncInfo (args info) cbody]> functions))
                  | None => key_error ("'" +:+ name +:+ "'")
                  end
              | None => key_error "None"
              end
          | InClass => ret tt
          end ;;
          ret (MkScriptScan main None cname [] nest cls)
        else ret (MkScriptScan main inc cname (cbody ++ [line]) (nest - 1)%Z cls)
    | None =>
        print "Syntax Error: 'endfunc' without matching 'func'." ;;
        ret s
    end
  else
    match inc with
    | Some _ =>
        let nest' :=
          if is_opener clean_line then (nest + 1)%Z
          else if is_closer clean_line
          then (if (0 <? nest)%Z then (nest - 1)%Z else nest)
          else nest in
        ret (MkScriptScan main inc cname (cbody ++ [line]) nest' cls)
    | None => ret (MkScriptScan (main ++ [line]) inc cname cbody nest cls)
    end.

Fixpoint script_loop (s : script_scan) (all_lines : list string)
    : M script_scan :=
  match all_lines with
  | [] => ret s
  | line :: rest => s' <- script_step s line ;; script_loop s' rest
  end.

(** [preprocess_script] (lines 427 to 504). *)
Definition preprocess_script (all_lines : list string) : M (list string) :=
  s <- script_loop (MkScriptScan [] None None [] 0%Z None) all_lines ;;
  ret (main_code s).

(** [open(path).readlines()] *)
Definition read_lines (path : string) : M (list string) :=
  fs <- get files ;;
  match fs !! path with
  | Some lines => ret lines
  | None =>
      raise (Exn FileNotFoundError
               ("[Errno 2] No such file or directory: '" +:+ path +:+ "'"))
  end.

(** ** The statement executor *)

Definition slice {A : Type} (a b : nat) (l : list A) : list A :=
  take (b - a) (drop a l).

(** [dict(zip(names, values))]: a later pair overrides an earlier one. *)
Definition dict_zip (names : list string) (values : list value)
    : gmap string value :=
  fold_left (fun m kv => <[kv.1 := kv.2]> m) (zip names values) ∅.

(** [d.update(other)] *)
Definition dict_update (d other : gmap string value) : gmap string value :=
  other ∪ d.

(** The scan of lines 338 to 349 from line [i] on: the position of the last
    else at depth zero and of the first closer at depth zero. *)
Fixpoint scan_if (rest : list string) (i nest_level : nat)
    (else_pos : option nat) : option nat * option nat :=
  match rest with
  | [] => (else_pos, None)
  | l :: rest' =>
      let scan_line := Text.strip (strip_inline_comments l) in
      if is_opener scan_line then scan_if rest' (S i) (S nest_level) else_pos
      else if is_closer scan_line then
        match nest_level with
        | O => (else_pos, Some i)
        | S n => scan_if rest' (S i) n else_pos
        end
      else if String.eqb scan_line "else" && Nat.eqb nest_level 0
      then scan_if rest' (S i) nest_level (Some i)
      else scan_if rest' (S i) nest_level else_pos
  end.

(** The scan of lines 377 to 386. *)
Fixpoint scan_loop (rest : list string) (i nest_level : nat) : option nat :=
  match rest with
  | [] => None
  | l :: rest' =>
      let scan_line := Text.strip (strip_inline_comments l) in
      if is_opener scan_line then scan_loop rest' (S i) (S nest_level)
      else if is_closer scan_line then
        match nest_level with
        | O => Some i
        | S n => scan_loop rest' (S i) n
        end
      else scan_loop rest' (S i) nest_level
  end.

(** The branch of the if/elif chain of [execute] that a line takes, with the
    groups of the two patterns of lines 112 and 113 where the branch reads
    them. *)
Inductive branch : Type :=
  | BSteal
  | BFuncCall (func_name arg_str : string)
  | BNew
  | BMethodCall (obj_expr method_name arg_str : string)
  | BVar
  | BSay
  | BInput
  | BMath
  | BEmptyline
  | BPause
  | BBreak
  | BReturn
  | BIf
  | BLoop
  | BHelp
  | BCloser
  | BUnknown.

(** A matched call whose name is a key of FUNCTIONS. *)
Definition known_call (functions : gmap string func_info)
    (m : option (string * string)) : option (string * string) :=
  match m with
  | Some (name, arg_str) =>
      match functions !! name with
      | Some _ => Some (name, arg_str)
      | None => None
      end
  | None => None
  end.

Definition dispatch (functions : gmap string func_info)
    (original_line : string) : branch :=
  let func_stmt_match := Text.match_call original_line in
  let method_stmt_match := Text.match_method original_line in
  if Text.startswith "steal " original_line then BSteal
  else match known_call functions func_stmt_match with
  | Some (func_name, arg_str) => BFuncCall func_name arg_str
  | None =>
  if Text.startswith "var " original_line && Text.contains "new " original_line
  then BNew
  else match method_stmt_match with
  | Some (obj_expr, method_name, arg_str) =>
      BMethodCall obj_expr method_name arg_str
  | None =>
  if Text.startswith "var " original_line then BVar
  else if Text.startswith "say " original_line then BSay
  else if Text.startswith "input " original_line then BInput
  else if Text.startswith "math " original_line then BMath
  else if Text.startswith "emptyline " original_line then BEmptyline
  else if String.eqb original_line "pause" then BPause
  else if String.eqb original_line "break" then BBreak
  else if Text.startswith "return " original_line then BReturn
  else if Text.startswith "if " original_line then BIf
  else if Text.startswith "loop " original_line then BLoop
  else if String.eqb original_line "help" then BHelp
  else if String.eqb original_line "else" || is_closer original_line
  then BCloser
  else BUnknown
  end end.

(** What one turn of the while loop of [execute] does with the program
    counter: go on after line [pc], return from [execute], or leave the
    loop through a break statement of Python. *)
Inductive step : Type :=
  | Next (pc : nat) (variables : gmap string value)
  | Returned (return_value : value) (variables : gmap string value)
  | Halted (variables : gmap string value).

Definition help_text : list string :=
  [ "--- MSlash Help ---";
    "steal <symbol> from <file>.mslash - Import a variable/function/class from another file.";
    "my_func(args)            - Calls a global function.";
    "class <name> / endclass  - Defines a class.";
    "func <name>(args) / endfunc - Defines a function or method.";
    "return <value>           - Returns a value from a function/method.";
    "{ comment }              - An inline comment.";
    "var <name> = <value>     - Assigns a value. Supports var x = myFunc(...).";
    "say <message>            - Prints a message to the console.";
    "input <var_name>         - Prompts for user input.";
    "math <expression>        - Evaluates a mathematical expression.";
    "if <condition>           - Starts a conditional block.";
    "else / endif             - Used for conditional logic.";
    "loop <number> / endloop  - Starts a loop block.";
    "emptyline <number>       - Prints a number of empty lines.";
    "pause                    - Pauses execution until Enter is pressed.";
    "break                    - Terminates the script immediately.";
    String Text.nl "--- Data Types ---";
    "List: [item1, item2, ...]";
    "Vata (Dictionary): (" +:+ String Text.dquote "key1" +:+
      String Text.dquote ":" +:+ String Text.dquote "value1" +:+
      String Text.dquote ", ...)";
    "---------------------" ].

Fixpoint print_all (msgs : list string) : M unit :=
  match msgs with
  | [] => ret tt
  | m :: rest => print m ;; print_all rest
  end.

(** The rewriting of lines 266 and 267 of a parenthesised text into a
    brace-delimited one. *)
Definition rewrite_vata (value_str : string) : string :=
  match value_str with
  | String "("%char r =>
      match Text.unsnoc r with
      | Some (inner, ")"%char) => "{" +:+ inner +:+ "}"
      | _ => value_str
      end
  | _ => value_str
  end.

(** [MSlashObject(class_name)] (lines 71 to 74): a new object in the store. *)
Definition new_MSlashObject (cls : string) : M nat :=
  heap <- get objects ;;
  modify (set_objects (heap ++ [MkObject cls ∅])) ;;
  ret (length heap).

(** [obj.attributes[attr_name] = v] *)
Definition set_attribute (a : nat) (attr_name : string) (v : value) : M unit :=
  modify (fun st =>
    set_objects
      (alter (fun o => MkObject (class_name o) (<[attr_name := v]> (attributes o)))
             a (objects st)) st).

Section Executor.
Context `{Host}.

(** [exec] stands for the recursive calls of [execute] on a body or a
block, and [fuel] bounds the loops of [substitute_vars]. *)
Variable exec : list string -> gmap string value ->
            M (value * gmap string value).
Variable fuel : nat.

(** [load_module] (lines 550 to 575). *)
Definition load_module (module_path : string)
  : M (gmap string value * gmap string func_info * gmap string class_info) :=
  saved_functions <- get FUNCTIONS ;;
  saved_classes <- get CLASSES ;;
  finally
  (modify (set_FUNCTIONS ∅) ;;
   modify (set_CLASSES ∅) ;;
   lines <- read_lines module_path ;;
   main_script_lines <- preprocess_script lines ;;
   '(_, module_vars) <- exec main_script_lines ∅ ;;
   module_functions <- get FUNCTIONS ;;
   module_classes <- get CLASSES ;;
   ret (module_vars, module_functions, module_classes))
  (fun st => set_CLASSES saved_classes (set_FUNCTIONS saved_functions st)).

(** [[safe_eval(substitute_vars(v, variables), variables) for v in raw]] *)
Fixpoint eval_args (raw : list string) (variables : gmap string value)
  : M (list value) :=
  match raw with
  | [] => ret []
  | v :: rest =>
    s <- substitute_vars fuel v variables ;;
    x <- safe_eval s variables ;;
    xs <- eval_args rest variables ;;
    ret (x :: xs)
  end.

Definition line_no (pc : nat) : string := pretty (pc + 1).

(** The steal branch (lines 116 to 139). *)
Definition exec_steal (pc : nat) (original_line : string)
  (variables : gmap string value) : M (gmap string value) :=
  match Text.match_steal original_line with
  | None =>
    print ("Syntax Error on line " +:+ line_no pc +:+
           ": Invalid steal syntax.") ;;
    ret variables
  | Some (symbol, module_path) =>
    try_except
      ('(mod_vars, mod_funcs, mod_classes) <- load_module module_path ;;
       match mod_vars !! symbol with
       | Some v => ret (<[symbol := v]> variables)
       | None =>
       match mod_funcs !! symbol with
       | Some f =>
           modify (fun st =>
             set_FUNCTIONS (<[symbol := f]> (FUNCTIONS st)) st) ;;
           ret variables
       | None =>
       match mod_classes !! symbol with
       | Some c =>
           modify (fun st =>
             set_CLASSES (<[symbol := c]> (CLASSES st)) st) ;;
           ret variables
       | None =>
           print ("Import Error on line " +:+ line_no pc +:+ ": '" +:+
                  symbol +:+ "' not found in " +:+ module_path +:+ ".") ;;
           ret variables
       end end end)
      [ except is_FileNotFoundError (fun _ =>
          print ("Import Error on line " +:+ line_no pc +:+
                 ": Module file '" +:+ module_path +:+ "' not found.") ;;
          ret variables);
        except is_Exception (fun e =>
          print ("Import Error on line " +:+ line_no pc +:+ ": " +:+
                 exn_msg e) ;;
          ret variables) ]
  end.

Definition arity_error (func_name : string) (expected got : nat) : string :=
  "Error: Function '" +:+ func_name +:+ "' expects " +:+ pretty expected +:+
  " arguments, but got " +:+ pretty got +:+ ".".

(** The call statement of a global function (lines 142 to 155). *)
Definition exec_func_call (func_name arg_str : string)
  (variables : gmap string value) : M unit :=
  functions <- get FUNCTIONS ;;
  match functions !! func_name with
  | None => key_error ("'" +:+ func_name +:+ "'")
  | Some func_info =>
    let arg_names := args func_info in
    let arg_values_raw := split_args arg_str in
    if negb (length arg_values_raw =? length arg_names) then
      print (arity_error func_name (length arg_names)
                         (length arg_values_raw))
    else
      arg_values <- eval_args arg_values_raw variables ;;
      let local_vars := dict_zip arg_names arg_values in
      _ <- exec (body func_info) local_vars ;;
      ret tt
  end.

(** The environment of a method body: [this] and then the parameters
(lines 177 and 178, 209 and 210). *)
Definition method_locals (this : nat) (arg_names : list string)
  (arg_values : list value) : gmap string value :=
  dict_update {[ "this" := VInst this ]} (dict_zip arg_names arg_values).

(** Object instantiation (lines 158 to 190). *)
Definition exec_new (pc : nat) (original_line : string)
  (variables : gmap string value) : M (gmap string value) :=
  try_except
  (match Text.split_once "="%char (Text.skip 4 original_line) with
   | None => raise (Exn ValueError
                      "not enough values to unpack (expected 2, got 1)")
   | Some (name_part, value_part) =>
       let name := Text.strip name_part in
       match Text.match_new (Text.strip value_part) with
       | Some (cls, arg_str) =>
           classes <- get CLASSES ;;
           match classes !! cls with
           | Some class_info =>
               new_object <- new_MSlashObject cls ;;
               match methods class_info !! "init" with
               | Some init_func =>
                   let arg_names := args init_func in
                   let arg_values_raw := split_args arg_str in
                   arg_values <- eval_args arg_values_raw variables ;;
                   let local_vars :=
                     method_locals new_object arg_names arg_values in
                   _ <- exec (body init_func) local_vars ;;
                   ret tt
               | None => ret tt
               end ;;
               ret (<[name := VInst new_object]> variables)
           | None =>
               print ("Error: Class '" +:+ cls +:+ "' is not defined.") ;;
               ret variables
           end
       | None =>
           print "Syntax Error: Invalid 'new' statement." ;;
           ret variables
       end
   end)
  [ except is_ValueError (fun _ =>
      print ("Syntax Error on line " +:+ line_no pc +:+
             ": Invalid variable assignment.") ;;
      ret variables) ].

(** The method-call statement (lines 193 to 218). *)
Definition exec_method_call (obj_expr method_name arg_str : string)
  (variables : gmap string value) : M unit :=
  obj_text <- substitute_vars fuel obj_expr variables ;;
  obj_instance <- safe_eval obj_text variables ;;
  match obj_instance with
  | VInst a =>
    heap <- get objects ;;
    classes <- get CLASSES ;;
    match (o ← heap !! a; c ← classes !! class_name o;
           methods c !! method_name) with
    | Some method_info =>
        let arg_names := args method_info in
        let arg_values_raw := split_args arg_str in
        arg_values <- eval_args arg_values_raw variables ;;
        let local_vars := method_locals a arg_names arg_values in
        _ <- exec (body method_info) local_vars ;;
        ret tt
    | None =>
        print ("Error: Method '" +:+ method_name +:+
               "' not found on object.")
    end
  | _ =>
    print ("Error: '" +:+ obj_expr +:+ "' did not evaluate to an object.")
  end.

(** The attribute assignment (lines 222 to 234). *)
Definition exec_var_this (pc : nat) (original_line : string)
  (variables : gmap string value) : M unit :=
  match variables !! "this" with
  | Some (VInst this) =>
    try_except
      (let assign_part := Text.skip 9 original_line in
       match Text.split_once "="%char assign_part with
       | None => raise (Exn ValueError
                          "not enough values to unpack (expected 2, got 1)")
       | Some (attr_name, value_str) =>
           let attr_name := Text.strip attr_name in
           text <- substitute_vars fuel (Text.strip value_str) variables ;;
           v <- safe_eval text variables ;;
           set_attribute this attr_name v
       end)
      [ except is_ValueError (fun _ =>
          print ("Syntax Error on line " +:+ line_no pc +:+
                 ": Invalid attribute assignment.")) ]
  | _ => print "Error: 'this' can only be used inside a class method."
  end.

(** The assignment from a function call (lines 245 to 261). *)
Definition assign_call (name func_name arg_str : string)
  (func_info : func_info) (variables : gmap string value)
  : M (gmap string value) :=
  let arg_names := args func_info in
  let arg_values_raw := split_args arg_str in
  if negb (length arg_values_raw =? length arg_names) then
  print (arity_error func_name (length arg_names) (length arg_values_raw)) ;;
  ret (<[name := VNone]> variables)
  else
  arg_values <- eval_args arg_values_raw variables ;;
  let local_vars := dict_zip arg_names arg_values in
  '(return_value, _) <- exec (body func_info) local_vars ;;
  ret (<[name := return_value]> variables).

(** The general assignment (lines 263 to 274). *)
Definition assign_general (pc : nat) (name value_str : string)
  (variables : gmap string value) : M (gmap string value) :=
  value_str <- substitute_vars fuel value_str variables ;;
  let value_str := rewrite_vata value_str in
  result <- safe_eval value_str variables ;;
  match result with
  | VNone =>
    print ("Syntax Error or invalid value for variable '" +:+ name +:+
           "' on line " +:+ line_no pc +:+ ".") ;;
    ret variables
  | _ => ret (<[name := result]> variables)
  end.

(** The regular assignment (lines 236 to 276). *)
Definition exec_var_regular (pc : nat) (original_line : string)
  (variables : gmap string value) : M (gmap string value) :=
  try_except
  (match Text.split_once "="%char (Text.skip 4 original_line) with
   | None => raise (Exn ValueError
                      "not enough values to unpack (expected 2, got 1)")
   | Some (name_part, value_part) =>
       let name := Text.strip name_part in
       let value_str := Text.strip value_part in
       functions <- get FUNCTIONS ;;
       match known_call functions (Text.match_call value_str) with
       | Some (func_name, arg_str) =>
           match functions !! func_name with
           | Some func_info =>
               assign_call name func_name arg_str func_info variables
           | None => key_error ("'" +:+ func_name +:+ "'")
           end
       | None => assign_general pc name value_str variables
       end
   end)
  [ except is_ValueError (fun _ =>
      print ("Syntax Error on line " +:+ line_no pc +:+
             ": Invalid variable assignment.") ;;
      ret variables) ].

(** The var branch (lines 220 to 276). *)
Definition exec_var (pc : nat) (original_line : string)
  (variables : gmap string value) : M (gmap string value) :=
  if Text.startswith "var this." original_line
  then exec_var_this pc original_line variables ;; ret variables
  else exec_var_regular pc original_line variables.

(** The say branch (lines 278 to 285). *)
Definition exec_say (original_line : string)
  (variables : gmap string value) : M unit :=
  let content_to_eval := Text.strip (Text.skip 4 original_line) in
  substituted_content <- substitute_vars fuel content_to_eval variables ;;
  final_output <- safe_eval substituted_content variables ;;
  match final_output with
  | VNone => print substituted_content
  | _ => now <- get id ;; print (py_str now final_output)
  end.

(** The input branch (lines 287 to 298). *)
Definition exec_input (original_line : string)
  (variables : gmap string value) : M (gmap string value) :=
  match Text.split_ws original_line !! 1 with
  | None => raise (Exn IndexError "list index out of range")
  | Some tok =>
    let var_name := Text.strip tok in
    user_input <- py_input None ;;
    try_except
      (parsed_input <- host_eval user_input false ∅ ;;
       match parsed_input with
       | VInt _ | VBool _ => ret (<[var_name := parsed_input]> variables)
       | _ => ret (<[var_name := VStr user_input]> variables)
       end)
      [ except is_Exception (fun _ =>
          ret (<[var_name := VStr user_input]> variables)) ]
  end.

(** The math branch (lines 300 to 304). *)
Definition exec_math (original_line : string)
  (variables : gmap string value) : M unit :=
  line <- substitute_vars fuel original_line variables ;;
  result <- safe_eval (Text.skip 5 line) variables ;;
  match result with
  | VNone => ret tt
  | _ => now <- get id ;; print (py_str now result)
  end.

(** The emptyline branch (lines 306 to 313). *)
Definition exec_emptyline (pc : nat) (original_line : string)
  (variables : gmap string value) : M unit :=
  line <- substitute_vars fuel original_line variables ;;
  try_except
  (match Text.py_int (Text.strip (Text.skip 10 line)) with
   | None => raise (Exn ValueError "invalid literal for int() with base 10")
   | Some num_lines =>
       if (0 <? num_lines)%Z
       then write (Text.repeat_str (String Text.nl EmptyString)
                                   (Z.to_nat (num_lines - 1)))
       else ret tt
   end)
  [ except is_ValueError_or_IndexError (fun _ =>
      print ("Invalid number for emptyline on line " +:+ line_no pc)) ].

(** The return branch (lines 322 to 326). *)
Definition exec_return (original_line : string)
  (variables : gmap string value) : M value :=
  let expression := Text.strip (Text.skip 7 original_line) in
  text <- substitute_vars fuel expression variables ;;
  safe_eval text variables.

(** The if branch (lines 328 to 363).  The value that the block returns
is dropped, as on lines 358 and 361. *)
Definition exec_if (lines : list string) (pc : nat) (original_line : string)
  (variables : gmap string value) : M step :=
  line <- substitute_vars fuel original_line variables ;;
  let condition_str := Text.skip 3 line in
  result <- safe_eval condition_str variables ;;
  let if_block_start := pc + 1 in
  let '(else_pos, endif_pos) :=
  scan_if (drop if_block_start lines) if_block_start 0 None in
  match endif_pos with
  | None =>
    print ("Syntax Error: 'if' on line " +:+ line_no pc +:+
           " has no matching 'endif'.") ;;
    ret (Halted variables)
  | Some endif_pos =>
    truth <- get (fun st => truthy st result) ;;
    if truth then
      let if_block_end := default endif_pos else_pos in
      '(_, variables') <-
        exec (slice if_block_start if_block_end lines) variables ;;
      ret (Next endif_pos variables')
    else
      match else_pos with
      | Some else_pos =>
          '(_, variables') <-
            exec (slice (else_pos + 1) endif_pos lines) variables ;;
          ret (Next endif_pos variables')
      | None => ret (Next endif_pos variables)
      end
  end.

(** [for _ in range(times): execute(loop_code, variables.copy())]
(lines 394 and 395): every turn starts from a copy of [variables], and
what the body did to its copy is dropped. *)
Fixpoint run_loop (times : nat) (loop_code : list string)
  (variables : gmap string value) : M unit :=
  match times with
  | O => ret tt
  | S times' =>
    _ <- exec loop_code variables ;;
    run_loop times' loop_code variables
  end.

(** The loop branch (lines 365 to 396). *)
Definition exec_loop (lines : list string) (pc : nat) (original_line : string)
  (variables : gmap string value) : M step :=
  line <- substitute_vars fuel original_line variables ;;
  match Text.split_ws line !! 1 ≫= Text.py_int with
  | None =>
    print ("Syntax Error on line " +:+ line_no pc +:+
           ": Invalid loop syntax.") ;;
    ret (Next pc variables)
  | Some times =>
    let loop_body_start := pc + 1 in
    match scan_loop (drop loop_body_start lines) loop_body_start 0 with
    | None =>
        print ("Syntax Error: 'loop' on line " +:+ line_no pc +:+
               ": No matching 'endloop'.") ;;
        ret (Halted variables)
    | Some loop_body_end =>
        let loop_code := slice loop_body_start loop_body_end lines in
        run_loop (Z.to_nat times) loop_code variables ;;
        ret (Next loop_body_end variables)
    end
  end.

(** The body of the while loop of [execute] for a line that is not blank
(lines 111 to 422). *)
Definition exec_line (lines : list string) (pc : nat) (original_line : string)
  (variables : gmap string value) : M step :=
  functions <- get FUNCTIONS ;;
  match dispatch functions original_line with
  | BSteal =>
    variables' <- exec_steal pc original_line variables ;;
    ret (Next pc variables')
  | BFuncCall func_name arg_str =>
    exec_func_call func_name arg_str variables ;;
    ret (Next pc variables)
  | BNew =>
    variables' <- exec_new pc original_line variables ;;
    ret (Next pc variables')
  | BMethodCall obj_expr method_name arg_str =>
    exec_method_call obj_expr method_name arg_str variables ;;
    ret (Next pc variables)
  | BVar =>
    variables' <- exec_var pc original_line variables ;;
    ret (Next pc variables')
  | BSay => exec_say original_line variables ;; ret (Next pc variables)
  | BInput =>
    variables' <- exec_input original_line variables ;;
    ret (Next pc variables')
  | BMath => exec_math original_line variables ;; ret (Next pc variables)
  | BEmptyline =>
    exec_emptyline pc original_line variables ;; ret (Next pc variables)
  | BPause =>
    _ <- py_input (Some "Press Enter to continue...") ;;
    ret (Next pc variables)
  | BBreak =>
    print "--- Script terminated by break ---" ;;
    raise (Exn SystemExit "")
  | BReturn =>
    return_value <- exec_return original_line variables ;;
    ret (Returned return_value variables)
  | BIf => exec_if lines pc original_line variables
  | BLoop => exec_loop lines pc original_line variables
  | BHelp => print_all help_text ;; ret (Next pc variables)
  | BCloser => ret (Next pc variables)
  | BUnknown =>
    print ("Unknown command or syntax error on line " +:+ line_no pc +:+
           ": '" +:+ original_line +:+ "'") ;;
    ret (Next pc variables)
  end.

End Executor.

(** [execute] (lines 93 to 425) from the program counter [pc] on.  Every
    turn of the while loop and every nested call takes one unit of fuel.
    The result is the returned value and the environment as the call left
    it: [variables] is one dictionary that the call updates in place. *)
Fixpoint execute_at `{Host} (fuel : nat) (lines : list string) (pc : nat)
    (variables : gmap string value) : M (value * gmap string value) :=
  match fuel with
  | O => out_of_fuel
  | S fuel' =>
      match lines !! pc with
      | None => ret (VNone, variables)
      | Some raw_line =>
          let line_no_comments := strip_inline_comments raw_line in
          let original_line := Text.strip line_no_comments in
          if Text.is_empty original_line
          then execute_at fuel' lines (S pc) variables
          else
            s <- exec_line (fun ls vs => execute_at fuel' ls 0 vs) fuel'
                           lines pc original_line variables ;;
            match s with
            | Next pc' variables' => execute_at fuel' lines (S pc') variables'
            | Returned return_value variables' =>
                ret (return_value, variables')
            | Halted variables' => ret (VNone, variables')
            end
      end
  end.

Definition execute `{Host} (fuel : nat) (lines : list string)
    (variables : gmap string value) : M (value * gmap string value) :=
  execute_at fuel lines 0 variables.

(** [main] (lines 592 to 611). *)
Definition main `{Host} (fuel : nat) (target_file : string) : M unit :=
  try_except
    (lines <- read_lines target_file ;;
     main_script_lines <- preprocess_script lines ;;
     _ <- execute fuel main_script_lines ∅ ;;
     ret tt)
    [ except is_FileNotFoundError (fun _ =>
        print ("Error: File '" +:+ target_file +:+ "' not found."));
      except is_Exception (fun e =>
        print ("An unexpected error occurred: " +:+ exn_msg e)) ].

(** ** A small host for running scripts

    [Mini] evaluates a fragment of Python expressions the way Python does:
    decimal literals, None, True and False, single-quoted strings without
    escapes, names, [name.attr] on an instance, sums of these, list
    displays, dictionary displays with string keys, the calls [x.append(e)]
    on a list and [x.clear()] on a list or a dictionary, which change the
    object and return None, and [e or None].  Anything else is reported as
    an error, so the scripts below stay inside the fragment. *)

Module Mini.

Definition name_error (n : string) : py_exn :=
  Exn NameError ("name '" +:+ n +:+ "' is not defined").

Definition quoted (s : string) : option string :=
  match s with
  | String "'"%char r =>
    match Text.unsnoc r with
    | Some (inner, "'"%char) =>
        if Text.contains "'" inner || Text.contains "\" inner
        then None else Some inner
    | _ => None
    end
  | _ => None
  end.

Definition atom (eval_locals : gmap string value)
  (heap : list MSlashObject) (tok : string) : value + py_exn :=
  let tok := Text.strip tok in
  match Text.digits 0%Z false tok with
  | Some n => inl (VInt n)
  | None =>
  if String.eqb tok "None" then inl VNone
  else if String.eqb tok "True" then inl (VBool true)
  else if String.eqb tok "False" then inl (VBool false)
  else match quoted tok with
  | Some s => inl (VStr s)
  | None =>
  match Text.take_ident tok with
  | Some (n, EmptyString) =>
    match eval_locals !! n with
    | Some v => inl v
    | None => inr (name_error n)
    end
  | Some (n, String "."%char r) =>
    match Text.take_ident r with
    | Some (attr, EmptyString) =>
        match eval_locals !! n with
        | Some (VInst a) =>
            match heap !! a ≫= fun o => attributes o !! attr with
            | Some v => inl v
            | None => inr (Exn AttributeError attr)
            end
        | Some _ => inr (Exn AttributeError attr)
        | None => inr (name_error n)
        end
    | _ => inr (Exn SyntaxError "invalid syntax")
    end
  | _ => inr (Exn SyntaxError "invalid syntax")
  end end end.

Definition add (a b : value) : value + py_exn :=
  match a, b with
  | VInt x, VInt y => inl (VInt (x + y))
  | VStr x, VStr y => inl (VStr (x +:+ y))
  | _, _ => inr (Exn TypeError "unsupported operand type(s) for +")
  end.

Fixpoint sum (eval_locals : gmap string value) (heap : list MSlashObject)
  (acc : value) (toks : list string) : value + py_exn :=
  match toks with
  | [] => inl acc
  | t :: rest =>
    match atom eval_locals heap t with
    | inl v =>
        match add acc v with
        | inl acc' => sum eval_locals heap acc' rest
        | inr e => inr e
        end
    | inr e => inr e
    end
  end.

(** The contents of the lists and of the dictionaries. *)
Definition store : Type := list (list value) * list (list (value * value)).

(** [obj.append(arg)] on a list, [obj.clear()] on a list or a dictionary. *)
Definition call (eval_locals : gmap string value)
  (heap : list MSlashObject) (s : store) (obj m arg : string)
  : (value + py_exn) * store :=
  let no_method := Exn AttributeError m in
  match atom eval_locals heap obj with
  | inl (VList a) =>
    if String.eqb m "append" then
      match atom eval_locals heap arg with
      | inl v => (inl VNone, (alter (fun l => l ++ [v]) a s.1, s.2))
      | inr e => (inr e, s)
      end
    else if String.eqb m "clear" && Text.is_empty (Text.strip arg)
    then (inl VNone, (alter (fun _ => []) a s.1, s.2))
    else (inr no_method, s)
  | inl (VDict a) =>
    if String.eqb m "clear" && Text.is_empty (Text.strip arg)
    then (inl VNone, (s.1, alter (fun _ => []) a s.2))
    else (inr no_method, s)
  | inl _ => (inr no_method, s)
  | inr e => (inr e, s)
  end.

(** A string, a call or an atom. *)
Definition element (eval_locals : gmap string value)
  (heap : list MSlashObject) (s : store) (tok : string)
  : (value + py_exn) * store :=
  let tok := Text.strip tok in
  match quoted tok with
  | Some str => (inl (VStr str), s)
  | None =>
    match Text.match_method tok with
    | Some (obj, m, arg) => call eval_locals heap s obj m arg
    | None => (atom eval_locals heap tok, s)
    end
  end.

(** The elements of a display, from left to right. *)
Fixpoint elements (eval_locals : gmap string value)
  (heap : list MSlashObject) (s : store) (toks : list string)
  : (list value + py_exn) * store :=
  match toks with
  | [] => (inl [], s)
  | t :: rest =>
    match element eval_locals heap s t with
    | (inl v, s') =>
      match elements eval_locals heap s' rest with
      | (inl vs, s'') => (inl (v :: vs), s'')
      | (inr e, s'') => (inr e, s'')
      end
    | (inr e, s') => (inr e, s')
    end
  end.

(** [d[k] = v] on the entries of a dictionary with string keys. *)
Fixpoint dict_set (d : list (value * value)) (k : string) (v : value)
  : list (value * value) :=
  match d with
  | [] => [(VStr k, v)]
  | (k', v') :: r =>
    if match k' with VStr s => String.eqb s k | _ => false end
    then (k', v) :: r
    else (k', v') :: dict_set r k v
  end.

(** The entries [key: value] of a dictionary display. *)
Fixpoint entries (eval_locals : gmap string value)
  (heap : list MSlashObject) (acc : list (value * value))
  (toks : list string) : list (value * value) + py_exn :=
  match toks with
  | [] => inl acc
  | t :: rest =>
    match Text.split_once ":"%char t with
    | Some (k, v) =>
      match quoted (Text.strip k), atom eval_locals heap v with
      | Some key, inl x => entries eval_locals heap (dict_set acc key x) rest
      | Some _, inr e => inr e
      | None, _ => inr (Exn SyntaxError "invalid syntax")
      end
    | None => inr (Exn SyntaxError "invalid syntax")
    end
  end.

(** The text between an opening and a closing character that start and
    end [s]. *)
Definition bracketed (opening closing : ascii) (s : string)
  : option string :=
  match s with
  | String c r =>
    if Ascii.eqb c opening then
      match Text.unsnoc r with
      | Some (inner, l) => if Ascii.eqb l closing then Some inner else None
      | None => None
      end
    else None
  | EmptyString => None
  end.

Definition items (inner : string) : list string :=
  if Text.is_empty (Text.strip inner) then []
  else Text.split ","%char inner.

(** A display, a single element or a sum. *)
Definition eval_simple (expression : string)
  (eval_locals : gmap string value)
  (heap : list MSlashObject) (s : store) : (value + py_exn) * store :=
  let e := Text.strip expression in
  match bracketed "[" "]" e with
  | Some inner =>
    match elements eval_locals heap s (items inner) with
    | (inl vs, s') => (inl (VList (length s'.1)), (s'.1 ++ [vs], s'.2))
    | (inr x, s') => (inr x, s')
    end
  | None =>
  match bracketed "{" "}" e with
  | Some inner =>
    match entries eval_locals heap [] (items inner) with
    | inl d => (inl (VDict (length s.2)), (s.1, s.2 ++ [d]))
    | inr x => (inr x, s)
    end
  | None =>
  match Text.split "+"%char expression with
  | [t] => element eval_locals heap s t
  | t :: rest =>
    (match atom eval_locals heap t with
     | inl v => sum eval_locals heap v rest
     | inr x => inr x
     end, s)
  | [] => (inr (Exn SyntaxError "invalid syntax"), s)
  end end end.

(** The text before [suffix] when [s] ends with it. *)
Fixpoint before_suffix (suffix s : string) : option string :=
  if String.eqb s suffix then Some EmptyString
  else match s with
       | EmptyString => None
       | String c s' => String c <$> before_suffix suffix s'
       end.

(** The truth value of [v] over the store [s]. *)
Definition truth (s : store) (v : value) : bool :=
  match v with
  | VNone => false
  | VBool b => b
  | VInt n => negb (n =? 0)%Z
  | VStr t => negb (Text.is_empty t)
  | VList a => match s.1 !! a with Some [] => false | _ => true end
  | VDict a => match s.2 !! a with Some [] => false | _ => true end
  | VInst _ => true
  end.

(** [e or None] is the value of [e] when it is true and None otherwise. *)
Definition eval_in (expression : string) (eval_locals : gmap string value)
  (heap : list MSlashObject) (s : store) : (value + py_exn) * store :=
  match before_suffix " or None" (Text.strip expression) with
  | Some e =>
    match eval_simple e eval_locals heap s with
    | (inl v, s') => (inl (if truth s' v then v else VNone), s')
    | (inr x, s') => (inr x, s')
    end
  | None => eval_simple expression eval_locals heap s
  end.

(** An evaluation changes the lists and the dictionaries only. *)
Definition eval (expression : string) (builtins : bool)
  (eval_locals : gmap string value) (st : interp)
  : (value + py_exn) * interp :=
  let r := eval_in expression eval_locals (objects st) (lists st, dicts st) in
  (r.1, set_dicts r.2.2 (set_lists r.2.1 st)).

Definition join (sep : string) (l : list string) : string :=
  match l with
  | [] => EmptyString
  | x :: r => fold_left (fun acc y => acc +:+ sep +:+ y) r x
  end.

(** [repr(v)]: a list or a dictionary that holds itself is shown by three
    dots where it comes back, as Python does; [depth] bounds the nesting. *)
Fixpoint repr_at (depth : nat) (open_lists open_dicts : list nat)
  (st : interp) (v : value) : string :=
  match v with
  | VNone => "None"
  | VBool true => "True"
  | VBool false => "False"
  | VInt n => pretty n
  | VStr s => "'" +:+ s +:+ "'"
  | VList a =>
    match depth with
    | O => "[...]"
    | S depth' =>
      if bool_decide (a ∈ open_lists) then "[...]"
      else
        match lists st !! a with
        | Some l =>
          "[" +:+
          join ", " (map (repr_at depth' (a :: open_lists) open_dicts st) l)
          +:+ "]"
        | None => "[]"
        end
    end
  | VDict a =>
    match depth with
    | O => "{...}"
    | S depth' =>
      if bool_decide (a ∈ open_dicts) then "{...}"
      else
        match dicts st !! a with
        | Some d =>
          "{" +:+
          join ", "
            (map (fun kv =>
                    repr_at depth' open_lists (a :: open_dicts) st kv.1
                    +:+ ": " +:+
                    repr_at depth' open_lists (a :: open_dicts) st kv.2) d)
          +:+ "}"
        | None => "{}"
        end
    end
  | VInst a =>
    match objects st !! a with
    | Some o => MSlashObject_repr o
    | None => "<instance>"
    end
  end.

Definition repr (st : interp) (v : value) : string :=
  repr_at (S (length (lists st) + length (dicts st))) [] [] st v.

Definition host : Host :=
  {| py_eval := eval;
     py_repr := repr;
     py_eval_stdout := ltac:(intros; reflexivity) |}.
#[local] Existing Instance host.

(** An empty process: no blueprint, no object, an empty console and the
given files. *)
Definition boot (fs : gmap string (list string)) (input : list string)
  : interp :=
  Interp ∅ ∅ [] [] [] [] input fs.

(** Preprocess a source text and execute its main lines in a new
environment, as [main] does. *)
Definition run (fuel : nat) (source : list string)
  : M (value * gmap string value) :=
  main_script_lines <- preprocess_script source ;;
  execute fuel main_script_lines ∅.

End Mini.

(** ** A host that reaches the modules of main.py

    Python finds [c.__init__] on the class of an instance [c]: it is the
    method [MSlashObject.__init__] of line 71.  The attribute [__globals__]
    of a method is the dictionary of the globals of main.py, in which line 3
    has bound [sys], and [sys.exit()] raises SystemExit.  [Introspect]
    evaluates this one expression that way, on a name that is bound to an
    instance, and every other expression as [Mini] does. *)

Module Introspect.

Definition eval (expression : string) (builtins : bool)
  (eval_locals : gmap string value) (st : interp)
  : (value + py_exn) * interp :=
  match Text.take_ident (Text.strip expression) with
  | Some (name, rest) =>
    if String.eqb rest ".__init__.__globals__['sys'].exit()" then
      match eval_locals !! name with
      | Some (VInst _) => (inr (Exn SystemExit EmptyString), st)
      | _ => Mini.eval expression builtins eval_locals st
      end
    else Mini.eval expression builtins eval_locals st
  | None => Mini.eval expression builtins eval_locals st
  end.

Definition host : Host :=
  {| py_eval := eval;
     py_repr := Mini.repr;
     py_eval_stdout :=
       ltac:(intros e b l st; unfold eval;
             destruct (Text.take_ident _) as [[name rest]|];
             [destruct (String.eqb _ _);
              [destruct (l !! name) as [[]|]|]|];
             reflexivity) |}.

End Introspect.

(** * The predicates of the properties *)

(** [c in s] for one character. *)
Fixpoint has_char (c : ascii) (s : string) : bool :=
  match s with
  | EmptyString => false
  | String d s' => Ascii.eqb d c || has_char c s'
  end.

(** The whole of [s] is one identifier. *)
Definition is_identifier (s : string) : bool :=
  match Text.take_ident s with
  | Some (_, EmptyString) => true
  | _ => false
  end.

(** Every opening brace of [s] comes directly after a dollar, where
    [prev_dollar] tells whether a dollar comes directly before [s]. *)
Fixpoint braces_follow_dollar (prev_dollar : bool) (s : string) : bool :=
  match s with
  | EmptyString => true
  | String c s' =>
      (negb (Ascii.eqb c "{") || prev_dollar) &&
      braces_follow_dollar (Ascii.eqb c "$") s'
  end.

(** [s.endswith("$")] *)
Definition ends_with_dollar (s : string) : bool :=
  match Text.unsnoc s with
  | Some (_, c) => Ascii.eqb c "$"
  | None => false
  end.

(** The line as the scans read it: without comments and trimmed. *)
Definition clean_line (l : string) : string :=
  Text.strip (strip_inline_comments l).

(** A line that neither opens nor closes a block. *)
Definition block_free (l : string) : bool :=
  negb (is_opener (clean_line l)) && negb (is_closer (clean_line l)).

Definition not_else (l : string) : bool :=
  negb (String.eqb (clean_line l) "else").

(** How many lines of [ls] open a block, and how many close one. *)
Definition openers (ls : list string) : nat :=
  length (List.filter (fun l => is_opener (clean_line l)) ls).
Definition closers (ls : list string) : nat :=
  length (List.filter (fun l => is_closer (clean_line l)) ls).

(** No line of [rest] closes a block that was open before [rest]: every
    closer of [rest] closes a block that an earlier line of [rest] opens. *)
Definition unclosed (rest : list string) : Prop :=
  forall k, closers (take k rest) <= openers (take k rest).

(** A line that the preprocessor takes for none of class, func, endclass
    and endfunc. *)
Definition top_level_line (l : string) : bool :=
  negb (Text.startswith "class " (clean_line l)) &&
  negb (Text.startswith "func " (clean_line l)) &&
  negb (Text.startswith "endclass" (clean_line l)) &&
  negb (String.eqb (clean_line l) "endfunc").

(** A line of a body without blocks. *)
Definition body_line (l : string) : bool :=
  top_level_line l && block_free l.

(** A method definition in a class body: the lines before its header, the
    header, the lines of its body and its closing line. *)
Record method_def : Type := MkMethodDef {
    md_gap : list string;
    md_header : string;
    md_body : list string;
    md_closing : string;
  }.

Definition method_lines (d : method_def) : list string :=
  md_gap d ++ md_header d :: md_body d ++ [md_closing d].

(** A method whose header has a name and a parameter list, whose body has
    no blocks and which endfunc closes. *)
Definition flat_method (d : method_def) : bool :=
  forallb body_line (md_gap d) &&
  Text.startswith "func " (clean_line (md_header d)) &&
  bool_decide (is_Some (Text.match_func (clean_line (md_header d)))) &&
  forallb body_line (md_body d) &&
  String.eqb (clean_line (md_closing d)) "endfunc".

(** The blueprint of a method under its name. *)
Definition add_method (ms : gmap string func_info) (d : method_def)
    : gmap string func_info :=
  match Text.match_func (clean_line (md_header d)) with
  | Some (name, arg_str) => <[name := FuncInfo (split_args arg_str) (md_body d)]> ms
  | None => ms
  end.


(** No object of the store is removed or changes its class name, and no
    attribute that an object has is removed. *)
Definition store_grows (st st' : interp) : Prop :=
  forall a o, objects st !! a = Some o ->
    exists o', objects st' !! a = Some o' /\
               class_name o' = class_name o /\
               dom (attributes o) ⊆ dom (attributes o').

(** Lines are only taken from the front of the input, and the files are
    the same. *)
Definition input_consumed (st st' : interp) : Prop :=
  stdin st' `suffix_of` stdin st /\ files st' = files st.

(** No name is removed from a registry. *)
Definition registries_grow (st st' : interp) : Prop :=
  dom (FUNCTIONS st) ⊆ dom (FUNCTIONS st') /\
  dom (CLASSES st) ⊆ dom (CLASSES st').

(** A relation between the state before and the state after that a
    computation keeps, whether it returns or raises. *)
Definition preserves {A : Type} (R : interp -> interp -> Prop) (m : M A)
    : Prop :=
  forall st,
    match m st with
    | Ok _ st' | Raise _ st' => R st st'
    | OutOfFuel => True
    end.

(** * The scripts and states of the examples *)

Definition return_in_if_script : list string :=
  [ "func f()";
    "  if True";
    "    return 1";
    "  endif";
    "endfunc";
    "var r = f()" ].

Definition return_at_top_script : list string :=
  [ "func g()";
    "  return 1";
    "endfunc";
    "var r = g()" ].

Definition new_arity_script : list string :=
  [ "class P";
    "func init(a, b)";
    "var this.a = a";
    "var this.b = b";
    "endfunc";
    "endclass";
    "var p = new P(1)" ].

Definition call_arity_script : list string :=
  [ "func h(a, b)";
    "say a";
    "endfunc";
    "h(1)" ].

Definition loop_script : list string :=
  [ "var c = 0";
    "loop 2";
    "  var c = c + 1";
    "  var d = 9";
    "  say c";
    "endloop";
    "say c";
    "say d" ].

Definition if_script : list string :=
  [ "if False";
    "  var y = 2";
    "else";
    "  var y = 3";
    "endif";
    "say y";
    "if True";
    "  var z = 1";
    "endif";
    "say z" ].

Definition none_script : list string :=
  [ "var x = 5"; "var x = None"; "var y = None"; "var z = nothing" ].

Definition show_functions : gmap string func_info :=
  {[ "show" := FuncInfo [ "a" ] [ "say secret"; "say a" ] ]}.

Definition show_state : interp :=
  Interp show_functions ∅ [] [] [] [] [] ∅.

Definition lib_module : list string :=
  [ "var k = 7";
    "func add(a, b)";
    "return a + b";
    "endfunc";
    "class Box";
    "func init(v)";
    "var this.v = v";
    "endfunc";
    "endclass" ].

Definition module_files : gmap string (list string) :=
  {[ "lib.mslash" := lib_module;
     "unclosed.mslash" := [ "func broken"; "endfunc" ];
     "reads.mslash" := [ "func late()"; "endfunc"; "input x" ];
     "exits.mslash" := [ "func late()"; "endfunc"; "break" ] ]}.

(** A caller with a function of its own. *)
Definition caller_state : interp :=
  Interp {[ "mine" := FuncInfo [] [ "say 1" ] ]} ∅ [] [] [] [] []
         module_files.

Definition steal_script : list string :=
  [ "steal add from lib.mslash";
    "steal k from lib.mslash";
    "steal Box from lib.mslash";
    "steal zz from lib.mslash";
    "steal k from nowhere.mslash";
    "say k" ].

Definition counter_classes : gmap string class_info :=
  {[ "Counter" := ClassInfo
       {[ "init" := FuncInfo [] [ "var this.n = 0" ];
          "inc" := FuncInfo [] [ "var this.n = n + 1" ] ]} ]}.

(** The class Counter is defined and its one instance has counted to [k]. *)
Definition counter_state (k : Z) : interp :=
  Interp ∅ counter_classes [ MkObject "Counter" {[ "n" := VInt k ]} ] [] []
         [] [] ∅.

Definition counter_script : list string :=
  [ "class Counter";
    "func init()";
    "var this.n = 0";
    "endfunc";
    "func inc()";
    "var this.n = n + 1";
    "endfunc";
    "endclass";
    "var c = new Counter()";
    "loop 3";
    "  c.inc()";
    "  var c = 0";
    "endloop";
    "say c.n" ].



(** The states between the turns of a loop that reads a line per turn from
    an input of one line. *)
Definition reading_loop_trace (k : nat) : interp :=
  match k with
  | 0 => Mini.boot ∅ [ "5" ]
  | _ => Mini.boot ∅ []
  end.

(** The two methods of the class Counter of [counter_script], the second
    after an empty line. *)
Definition counter_methods : list method_def :=
  [ MkMethodDef [] "func init()" [ "var this.n = 0" ] "endfunc";
    MkMethodDef [ EmptyString ] "func inc()" [ "var this.n = n + 1" ] "endfunc" ].

(** A process with the function [h] of two parameters. *)
Definition arity_state : interp :=
  Interp {[ "h" := FuncInfo [ "a"; "b" ] [ "say a" ] ]} ∅ [] [] [] [] [] ∅.

(** A process with a class without methods. *)
Definition plain_class_state : interp :=
  Interp ∅ {[ "E" := ClassInfo ∅ ]} [] [] [] [] [] ∅.

(** A process whose one list holds [items]. *)
Definition list_state (items : list value) : interp :=
  Interp ∅ ∅ [] [ items ] [] [] [] ∅.

(** What one execution of [math l.append(1) or None] does to the state when
    [l] names the list at address 0. *)
Definition append_turn (st : interp) : interp :=
  set_lists (alter (fun l => l ++ [ VInt 1 ]) 0 (lists st)) st.

Definition list_loop : list string :=
  [ "loop 3";
    "  math l.append(1) or None";
    "endloop";
    "say l" ].

Definition list_script : list string :=
  [ "var l = [0]";
    "loop 3";
    "  math l.append(1) or None";
    "  say l";
    "  var l = 5";
    "endloop";
    "say l" ].

Definition dict_script : list string :=
  [ "var d = ('k': 1, 'j': 'x')";
    "loop 2";
    "  say d";
    "  math d.clear() or None";
    "endloop";
    "say d" ].

(** * Properties *)

(** ** Text *)

Example strip_inline_comments_ex1 :
  strip_inline_comments "say 1 { a comment } + ${x} {b}" = "say 1  + ${x} ".
Proof. reflexivity. Qed.

Example match_method_ex1 :
  Text.match_method "a.b.c(1).d(2, 3)" = Some ("a.b.c(1)", "d", "2, 3").
Proof. reflexivity. Qed.

Example match_steal_ex1 :
  Text.match_steal "steal  add from lib.mslash" = Some ("add", "lib.mslash").
Proof. reflexivity. Qed.

Example search_interp_ex1 :
  Text.search_interp "a ${ {x} ${y+1} z" = Some ("a ${ {x} ", "y+1", " z").
Proof. reflexivity. Qed.

Example split_ws_ex1 : Text.split_ws "  loop  3 x " = ["loop"; "3"; "x"].
Proof. reflexivity. Qed.

Example py_int_ex1 : Text.py_int " -1_000 " = Some (-1000)%Z.
Proof. reflexivity. Qed.


(** ** The expression evaluator *)

Section EvaluatorFacts.
Context `{Host}.

(** What [safe_eval] returns, by the outcome of the host's [eval]. *)
Lemma safe_eval_spec (expression : string) (variables : gmap string value)
  (st : interp) :
  safe_eval expression variables st =
  match py_eval expression true (eval_locals_of variables (objects st)) st
  with
  | (inl v, st') => Ok v st'
  | (inr e, st') => if is_Exception e then Ok VNone st' else Raise e st'
  end.
Proof.
  unfold safe_eval, bind, get, try_except, host_eval.
  destruct (py_eval _ _ _ _) as [[v|e] st']; [reflexivity|].
  cbn. unfold except. destruct (is_Exception e); reflexivity.
Qed.


End EvaluatorFacts.

Section EvaluatorExamples.
Existing Instance Mini.host.

(** A parse error, an unknown name and a disallowed operation at the small
host: each one comes back as None. *)
Example safe_eval_parse_error :
  safe_eval "1 +" ∅ (Mini.boot ∅ []) = Ok VNone (Mini.boot ∅ []).
Proof. reflexivity. Qed.

Example safe_eval_unknown_name :
  safe_eval "y" {[ "x" := VInt 1 ]} (Mini.boot ∅ [])
  = Ok VNone (Mini.boot ∅ []).
Proof. reflexivity. Qed.

Example safe_eval_disallowed_operation :
  safe_eval "x + 'a'" {[ "x" := VInt 1 ]} (Mini.boot ∅ [])
  = Ok VNone (Mini.boot ∅ []).
Proof. reflexivity. Qed.

Example safe_eval_value :
  safe_eval "x + 2" {[ "x" := VInt 1 ]} (Mini.boot ∅ [])
  = Ok (VInt 3) (Mini.boot ∅ []).
Proof. reflexivity. Qed.

(** An evaluation that changes the state: the call appends to the list
    that [l] names, and [safe_eval] returns the None of the call in the
    state with the longer list. *)
Example safe_eval_changes_the_state :
  safe_eval "l.append(2)" {[ "l" := VList 0 ]}
            (set_lists [ [ VInt 1 ] ] (Mini.boot ∅ []))
  = Ok VNone (set_lists [ [ VInt 1; VInt 2 ] ] (Mini.boot ∅ [])).
Proof. reflexivity. Qed.

(** A failure after a change: the display evaluates its elements from the
    left, so the list is longer when the unknown name raises, and
    [safe_eval] returns None in that state. *)
Example safe_eval_failure_keeps_the_change :
  safe_eval "[l.append(2), y]" {[ "l" := VList 0 ]}
            (set_lists [ [ VInt 1 ] ] (Mini.boot ∅ []))
  = Ok VNone (set_lists [ [ VInt 1; VInt 2 ] ] (Mini.boot ∅ [])).
Proof. reflexivity. Qed.


End EvaluatorExamples.

(** ** The statement executor *)

Section ExecutorFacts.
Context `{Host}.

Lemma bind_Ok {A B : Type} (m : M A) (k : A -> M B) (st st' : interp) (a : A) :
  m st = Ok a st' -> bind m k st = k a st'.
Proof. unfold bind. intros ->. reflexivity. Qed.

Lemma bind_Raise {A B : Type} (m : M A) (k : A -> M B) (st st' : interp)
  (e : py_exn) :
  m st = Raise e st' -> bind m k st = Raise e st'.
Proof. unfold bind. intros ->. reflexivity. Qed.

(** A blank line takes no branch that reads its text. *)
Lemma dispatch_blank (functions : gmap string func_info) :
  dispatch functions EmptyString = BUnknown.
Proof. reflexivity. Qed.

Lemma dispatch_not_blank (functions : gmap string func_info) (line : string)
  (b : branch) :
  dispatch functions line = b -> b <> BUnknown -> Text.is_empty line = false.
Proof.
  destruct line; [|reflexivity].
  rewrite dispatch_blank. intros <- Hb. contradiction.
Qed.

(** One turn of the while loop of [execute] on a line that is not blank. *)
Lemma execute_at_line (fuel : nat) (lines : list string) (pc : nat)
  (raw_line : string) (variables : gmap string value) (st : interp) :
  lines !! pc = Some raw_line ->
  Text.is_empty (Text.strip (strip_inline_comments raw_line)) = false ->
  execute_at (S fuel) lines pc variables st =
  bind (exec_line (execute fuel) fuel lines pc
                (Text.strip (strip_inline_comments raw_line)) variables)
     (fun s =>
        match s with
        | Next pc' variables' => execute_at fuel lines (S pc') variables'
        | Returned return_value variables' => ret (return_value, variables')
        | Halted variables' => ret (VNone, variables')
        end) st.
Proof.
  intros Hline Hblank. cbn [execute_at]. rewrite Hline, Hblank. reflexivity.
Qed.

(** The line takes the branch that [dispatch] names. *)
Ltac take_branch Hd :=
unfold exec_line; unfold bind at 1; unfold get at 1;
cbn beta iota; rewrite Hd; reflexivity.

Section Branches.
Variable exec : list string -> gmap string value ->
            M (value * gmap string value).
Variables (fuel : nat) (lines : list string) (pc : nat).
Variables (original_line : string) (variables : gmap string value).
Variable st : interp.

Lemma exec_line_steal :
  dispatch (FUNCTIONS st) original_line = BSteal ->
  exec_line exec fuel lines pc original_line variables st =
  bind (exec_steal exec pc original_line variables)
   (fun variables' => ret (Next pc variables')) st.
Proof. intros Hd. take_branch Hd. Qed.

Lemma exec_line_func_call (func_name arg_str : string) :
  dispatch (FUNCTIONS st) original_line = BFuncCall func_name arg_str ->
  exec_line exec fuel lines pc original_line variables st =
  bind (exec_func_call exec fuel func_name arg_str variables)
   (fun _ => ret (Next pc variables)) st.
Proof. intros Hd. take_branch Hd. Qed.

Lemma exec_line_method_call (obj_expr method_name arg_str : string) :
    dispatch (FUNCTIONS st) original_line
  = BMethodCall obj_expr method_name arg_str ->
    exec_line exec fuel lines pc original_line variables st =
    bind (exec_method_call exec fuel obj_expr method_name arg_str variables)
     (fun _ => ret (Next pc variables)) st.
Proof. intros Hd. take_branch Hd. Qed.

Lemma exec_line_var :
  dispatch (FUNCTIONS st) original_line = BVar ->
  exec_line exec fuel lines pc original_line variables st =
  bind (exec_var exec fuel pc original_line variables)
   (fun variables' => ret (Next pc variables')) st.
Proof. intros Hd. take_branch Hd. Qed.

Lemma exec_line_if :
  dispatch (FUNCTIONS st) original_line = BIf ->
  exec_line exec fuel lines pc original_line variables st =
  exec_if exec fuel lines pc original_line variables st.
Proof. intros Hd. take_branch Hd. Qed.

Lemma exec_line_loop :
  dispatch (FUNCTIONS st) original_line = BLoop ->
  exec_line exec fuel lines pc original_line variables st =
  exec_loop exec fuel lines pc original_line variables st.
Proof. intros Hd. take_branch Hd. Qed.

End Branches.

(** The turns of a counted loop, one state after the other: turn [k] starts
from [variables] in the state [trace k] and leaves the state
[trace (S k)]; the environment it leaves is dropped. *)
Lemma run_loop_trace (exec : list string -> gmap string value ->
                           M (value * gmap string value))
  (times : nat) (loop_code : list string) (variables : gmap string value)
  (trace : nat -> interp) :
  (forall k, k < times ->
   exists r, exec loop_code variables (trace k) = Ok r (trace (S k))) ->
  run_loop exec times loop_code variables (trace 0) = Ok tt (trace times).
Proof.
  revert trace. induction times as [|n IH]; intros trace Hturn.
  - reflexivity.
  - cbn [run_loop]. destruct (Hturn 0) as [r Hr]; [lia|].
  rewrite (bind_Ok _ _ _ _ _ Hr).
  apply (IH (fun k => trace (S k))).
  intros k Hk. apply Hturn. lia.
Qed.

(** The loop branch when every turn comes back: the step keeps the
    environment of the caller and the state is the one the last turn left. *)
Lemma exec_loop_runs (fuel : nat) (lines : list string) (pc : nat)
    (original_line line : string) (variables : gmap string value)
    (st st0 : interp) (times : Z) (loop_body_end : nat)
    (trace : nat -> interp) :
  dispatch (FUNCTIONS st) original_line = BLoop ->
  substitute_vars fuel original_line variables st = Ok line st0 ->
  Text.split_ws line !! 1 ≫= Text.py_int = Some times ->
  scan_loop (drop (pc + 1) lines) (pc + 1) 0 = Some loop_body_end ->
  trace 0 = st0 ->
  (forall k, k < Z.to_nat times ->
     exists v variables_k,
       execute fuel (slice (pc + 1) loop_body_end lines) variables (trace k)
       = Ok (v, variables_k) (trace (S k))) ->
  exec_line (execute fuel) fuel lines pc original_line variables st
  = Ok (Next loop_body_end variables) (trace (Z.to_nat times)).
Proof.
  intros Hd Hsub Htimes Hscan Htrace Hturn.
  rewrite (exec_line_loop _ _ _ _ _ _ _ Hd). unfold exec_loop.
  rewrite (bind_Ok _ _ _ _ _ Hsub). rewrite Htimes, Hscan.
  rewrite (bind_Ok _ _ st0 (trace (Z.to_nat times)) tt); [reflexivity|].
  rewrite <- Htrace. apply run_loop_trace.
  intros k Hk. destruct (Hturn k Hk) as (v & vk & Hv). eauto.
Qed.

(** Whatever the turns of a loop do, the step that the loop branch ends
    with carries the environment of the caller as it was. *)
Lemma exec_loop_keeps_environment
    (exec : list string -> gmap string value -> M (value * gmap string value))
    (fuel : nat) (lines : list string) (pc : nat) (original_line : string)
    (variables : gmap string value) (st st' : interp) (s : step) :
  exec_loop exec fuel lines pc original_line variables st = Ok s st' ->
  (exists pc', s = Next pc' variables) \/ s = Halted variables.
Proof.
  unfold exec_loop, bind. intros Hrun.
  destruct (substitute_vars _ _ _ _) as [line st0| |]; try discriminate.
  destruct (Text.split_ws line !! 1 ≫= Text.py_int) as [times|].
  - destruct (scan_loop _ _ _) as [loop_body_end|].
    + destruct (run_loop _ _ _ _ _) as [[] st1| |]; try discriminate.
      injection Hrun as <- _. left. eauto.
    + cbn in Hrun. injection Hrun as <- _. right. reflexivity.
  - cbn in Hrun. injection Hrun as <- _. left. eauto.
Qed.


(** C10.  The copy of the environment that a turn of a loop gets is
    shallow.  Every turn executes the body with the bindings [variables] of
    the caller, so a name that holds a list, a dictionary or an instance
    holds the address of the same object in every turn and for the caller,
    and the objects themselves are in the state, which the turns pass on:
    with [turn] what one execution of the body with those bindings does to
    the state, turn [k] starts in the state that [k] turns have made of the
    state at the entry of the loop, and behind the loop the caller goes on,
    with its own bindings, in the state that all the turns have made.  So
    what one turn changes in an object is what the next turn and the caller
    find there. *)
Theorem loop_shares_mutable_values (fuel : nat) (lines : list string)
  (pc : nat) (raw_line line : string) (variables : gmap string value)
  (st st0 : interp) (times : Z) (loop_body_end : nat)
  (turn : interp -> interp) (reachable : interp -> Prop) :
  lines !! pc = Some raw_line ->
  dispatch (FUNCTIONS st) (Text.strip (strip_inline_comments raw_line))
  = BLoop ->
  substitute_vars fuel (Text.strip (strip_inline_comments raw_line))
                variables st = Ok line st0 ->
  Text.split_ws line !! 1 ≫= Text.py_int = Some times ->
  scan_loop (drop (pc + 1) lines) (pc + 1) 0 = Some loop_body_end ->
  reachable st0 ->
  (forall s, reachable s ->
     reachable (turn s) /\
     exists v variables',
       execute fuel (slice (pc + 1) loop_body_end lines) variables s
       = Ok (v, variables') (turn s)) ->
  execute_at (S fuel) lines pc variables st
  = execute_at fuel lines (S loop_body_end) variables
               (Nat.iter (Z.to_nat times) turn st0) /\
  forall k, k < Z.to_nat times ->
    exists v variables',
      execute fuel (slice (pc + 1) loop_body_end lines) variables
              (Nat.iter k turn st0)
      = Ok (v, variables') (Nat.iter (S k) turn st0).
Proof.
  intros Hline Hd Hsub Htimes Hscan Hst0 Hturn.
  assert (Hreach : forall k, reachable (Nat.iter k turn st0)).
  { induction k as [|k IH]; [exact Hst0|]. apply (Hturn _ IH). }
  assert (Hrun : forall k,
            exists v variables',
              execute fuel (slice (pc + 1) loop_body_end lines) variables
                      (Nat.iter k turn st0)
              = Ok (v, variables') (Nat.iter (S k) turn st0)).
  { intros k. apply (Hturn _ (Hreach k)). }
  split; [|intros k _; apply Hrun].
  rewrite (execute_at_line _ _ _ _ _ _ Hline)
    by (eapply dispatch_not_blank; [exact Hd|discriminate]).
  rewrite (bind_Ok _ _ st (Nat.iter (Z.to_nat times) turn st0)
                   (Next loop_body_end variables)); [reflexivity|].
  apply (exec_loop_runs fuel lines pc _ line variables st st0 times
           loop_body_end (fun k => Nat.iter k turn st0));
    try assumption; [reflexivity|].
  intros k _. apply Hrun.
Qed.

(** C4.  An if statement whose block ends at [endif_pos]: the lines of the
    branch that the condition selects (up to the else, or to the end of the
    block when there is none, for a true condition; behind the else for a
    false one) execute in the environment [variables] of the caller, and the
    caller goes on behind the end of the block with the environment
    [variables'] that the branch left: every assignment of the branch is
    visible to the caller. *)
Theorem if_branch_shares_environment (fuel : nat) (lines : list string)
    (pc : nat) (raw_line line : string) (variables : gmap string value)
    (st st0 st1 st2 : interp) (result : value) (else_pos : option nat)
    (endif_pos : nat) (block : list string) (v : value)
    (variables' : gmap string value) :
  lines !! pc = Some raw_line ->
  dispatch (FUNCTIONS st) (Text.strip (strip_inline_comments raw_line))
    = BIf ->
  substitute_vars fuel (Text.strip (strip_inline_comments raw_line))
                  variables st = Ok line st0 ->
  safe_eval (Text.skip 3 line) variables st0 = Ok result st1 ->
  scan_if (drop (pc + 1) lines) (pc + 1) 0 None = (else_pos, Some endif_pos) ->
  (if truthy st1 result
   then Some (slice (pc + 1) (default endif_pos else_pos) lines)
   else (fun e => slice (e + 1) endif_pos lines) <$> else_pos) = Some block ->
  execute fuel block variables st1 = Ok (v, variables') st2 ->
  execute_at (S fuel) lines pc variables st
  = execute_at fuel lines (S endif_pos) variables' st2.
Proof.
  intros Hline Hd Hsub Hcond Hscan Hblock Hrun.
  rewrite (execute_at_line _ _ _ _ _ _ Hline)
    by (eapply dispatch_not_blank; [exact Hd|discriminate]).
  rewrite (bind_Ok _ _ st st2 (Next endif_pos variables')); [reflexivity|].
  rewrite (exec_line_if _ _ _ _ _ _ _ Hd). unfold exec_if.
  rewrite (bind_Ok _ _ _ _ _ Hsub), (bind_Ok _ _ _ _ _ Hcond), Hscan.
  unfold bind at 1. unfold get at 1. cbn beta iota.
  destruct (truthy st1 result).
  - injection Hblock as <-. rewrite (bind_Ok _ _ _ _ _ Hrun). reflexivity.
  - destruct else_pos as [e|]; [|discriminate].
    injection Hblock as <-. rewrite (bind_Ok _ _ _ _ _ Hrun). reflexivity.
Qed.

(** A false condition without an else: nothing executes. *)
Lemma if_false_without_else (fuel : nat) (lines : list string)
    (pc : nat) (raw_line line : string) (variables : gmap string value)
    (st st0 st1 : interp) (result : value) (endif_pos : nat) :
  lines !! pc = Some raw_line ->
  dispatch (FUNCTIONS st) (Text.strip (strip_inline_comments raw_line))
    = BIf ->
  substitute_vars fuel (Text.strip (strip_inline_comments raw_line))
                  variables st = Ok line st0 ->
  safe_eval (Text.skip 3 line) variables st0 = Ok result st1 ->
  scan_if (drop (pc + 1) lines) (pc + 1) 0 None = (None, Some endif_pos) ->
  truthy st1 result = false ->
  execute_at (S fuel) lines pc variables st
  = execute_at fuel lines (S endif_pos) variables st1.
Proof.
  intros Hline Hd Hsub Hcond Hscan Hfalse.
  rewrite (execute_at_line _ _ _ _ _ _ Hline)
    by (eapply dispatch_not_blank; [exact Hd|discriminate]).
  rewrite (bind_Ok _ _ st st1 (Next endif_pos variables)); [reflexivity|].
  rewrite (exec_line_if _ _ _ _ _ _ _ Hd). unfold exec_if.
  rewrite (bind_Ok _ _ _ _ _ Hsub), (bind_Ok _ _ _ _ _ Hcond), Hscan.
  unfold bind at 1. unfold get at 1. cbn beta iota. rewrite Hfalse.
  reflexivity.
Qed.

(** An if statement never makes the enclosing call of [execute] return:
    the value that its block returned is dropped. *)
Lemma exec_if_never_returns (exec : list string -> gmap string value ->
                                    M (value * gmap string value))
    (fuel : nat) (lines : list string) (pc : nat) (original_line : string)
    (variables : gmap string value) (st st' : interp) (s : step) :
  exec_if exec fuel lines pc original_line variables st = Ok s st' ->
  forall return_value variables', s <> Returned return_value variables'.
Proof.
  unfold exec_if, bind. intros Hrun.
  destruct (substitute_vars _ _ _ _) as [line st0| |]; try discriminate.
  destruct (safe_eval _ _ _) as [result st1| |]; try discriminate.
  destruct (scan_if _ _ _ _) as [else_pos [endif_pos|]].
  - unfold get in Hrun. destruct (truthy st1 result).
    + destruct (exec _ _ _) as [[v vs] st2| |]; try discriminate.
      injection Hrun as <- _. discriminate.
    + destruct else_pos as [e|].
      * destruct (exec _ _ _) as [[v vs] st2| |]; try discriminate.
        injection Hrun as <- _. discriminate.
      * injection Hrun as <- _. discriminate.
  - cbn in Hrun. injection Hrun as <- _. discriminate.
Qed.

(** *** The environment of a callee *)











(** *** The module loader and the steal statement *)

Lemma print_spec (msg : string) (st : interp) :
  print msg st = Ok tt (printed msg st).
Proof. reflexivity. Qed.

Lemma restore_registries (st : interp) :
  set_CLASSES (CLASSES st)
    (set_FUNCTIONS (FUNCTIONS st) (set_CLASSES ∅ (set_FUNCTIONS ∅ st))) = st.
Proof. destruct st. reflexivity. Qed.

(** Whatever the recursive executor does, [load_module] leaves the two
    registries as it found them. *)
Lemma load_module_restores (exec : list string -> gmap string value ->
                                   M (value * gmap string value))
    (module_path : string) (st : interp) :
  match load_module exec module_path st with
  | Ok _ st' | Raise _ st' =>
      FUNCTIONS st' = FUNCTIONS st /\ CLASSES st' = CLASSES st
  | OutOfFuel => True
  end.
Proof.
  unfold load_module. unfold bind at 1. unfold get at 1.
  unfold bind at 1. unfold get at 1. unfold finally.
  match goal with |- context [match ?m ?s with _ => _ end] =>
    destruct (m s) as [r st'|e st'|] end; cbn; auto.
Qed.

(** A missing file: [load_module] raises FileNotFoundError and the state is
    the one before the call. *)
Lemma load_module_missing (exec : list string -> gmap string value ->
                                  M (value * gmap string value))
    (module_path : string) (st : interp) :
  files st !! module_path = None ->
  exists msg, load_module exec module_path st
              = Raise (Exn FileNotFoundError msg) st.
Proof.
  intros Hfile. eexists. unfold load_module.
  unfold bind at 1. unfold get at 1. unfold bind at 1. unfold get at 1.
  unfold finally, bind, modify, read_lines, get, raise. cbn.
  rewrite Hfile. cbn. rewrite restore_registries. reflexivity.
Qed.


(** C8.  A steal statement that names [symbol] and [module_path].  When
    the file is missing, the import error for the missing file is printed.
    When the module loads, its variables are looked up first, then its
    functions, then its classes: the first of the three that has [symbol]
    gives the one entry that is copied, into the environment of the caller,
    into FUNCTIONS or into CLASSES, and nothing else of the caller changes;
    when none has it, the import error for the missing symbol is printed.
    In every one of these cases the script goes on with the next line. *)
Theorem steal_copies_first_match (fuel : nat) (lines : list string)
    (pc : nat) (raw_line symbol module_path : string)
    (variables : gmap string value) (st : interp) :
  lines !! pc = Some raw_line ->
  dispatch (FUNCTIONS st) (Text.strip (strip_inline_comments raw_line))
    = BSteal ->
  Text.match_steal (Text.strip (strip_inline_comments raw_line))
    = Some (symbol, module_path) ->
  (files st !! module_path = None ->
   execute_at (S fuel) lines pc variables st
   = execute_at fuel lines (S pc) variables
       (printed ("Import Error on line " +:+ line_no pc +:+
                 ": Module file '" +:+ module_path +:+ "' not found.") st)) /\
  (forall mod_vars mod_funcs mod_classes st1,
     load_module (execute fuel) module_path st
       = Ok (mod_vars, mod_funcs, mod_classes) st1 ->
     execute_at (S fuel) lines pc variables st =
     match mod_vars !! symbol with
     | Some v => execute_at fuel lines (S pc) (<[symbol := v]> variables) st1
     | None =>
     match mod_funcs !! symbol with
     | Some f =>
         execute_at fuel lines (S pc) variables
           (set_FUNCTIONS (<[symbol := f]> (FUNCTIONS st)) st1)
     | None =>
     match mod_classes !! symbol with
     | Some c =>
         execute_at fuel lines (S pc) variables
           (set_CLASSES (<[symbol := c]> (CLASSES st)) st1)
     | None =>
         execute_at fuel lines (S pc) variables
           (printed ("Import Error on line " +:+ line_no pc +:+ ": '" +:+
                     symbol +:+ "' not found in " +:+ module_path +:+ ".")
                    st1)
     end end end).
Proof.
  intros Hline Hd Hsteal.
  assert (Hblank : Text.is_empty
            (Text.strip (strip_inline_comments raw_line)) = false)
    by (eapply dispatch_not_blank; [exact Hd|discriminate]).
  assert (Hstep : forall variables' st',
    exec_steal (execute fuel) pc
               (Text.strip (strip_inline_comments raw_line)) variables st
      = Ok variables' st' ->
    execute_at (S fuel) lines pc variables st
      = execute_at fuel lines (S pc) variables' st').
  { intros variables' st' Hrun.
    rewrite (execute_at_line _ _ _ _ _ _ Hline Hblank).
    rewrite (bind_Ok _ _ st st' (Next pc variables')); [reflexivity|].
    rewrite (exec_line_steal _ _ _ _ _ _ _ Hd).
    rewrite (bind_Ok _ _ _ _ _ Hrun). reflexivity. }
  split.
  - intros Hfile.
    destruct (load_module_missing (execute fuel) module_path st Hfile)
      as [msg Hload].
    apply Hstep. unfold exec_steal. rewrite Hsteal. unfold try_except.
    rewrite (bind_Raise _ _ _ _ _ Hload). reflexivity.
  - intros mod_vars mod_funcs mod_classes st1 Hload.
    pose proof (load_module_restores (execute fuel) module_path st) as Hrest.
    rewrite Hload in Hrest. destruct Hrest as [Hf Hc].
    rewrite <- Hf, <- Hc.
    destruct (mod_vars !! symbol) as [v|] eqn:Hv;
      [|destruct (mod_funcs !! symbol) as [f|] eqn:Hfn;
        [|destruct (mod_classes !! symbol) as [c|] eqn:Hcl]];
      apply Hstep; unfold exec_steal; rewrite Hsteal; unfold try_except;
      rewrite (bind_Ok _ _ _ _ _ Hload); cbn beta iota;
      rewrite Hv; try rewrite Hfn; try rewrite Hcl; reflexivity.
Qed.

(** *** The general assignment *)

(** C9.  A general assignment (the line is neither an attribute assignment
    nor an assignment from a call of a known function) whose interpolated
    and rewritten text evaluates to [result]: when [result] is None, whether
    the evaluation failed or the text denotes None, the diagnostic is printed
    and the environment is left as it was; a value is bound to the name only
    when it is not None.  The state is the one the evaluation has left. *)
Theorem general_assignment_rejects_None
    (exec : list string -> gmap string value -> M (value * gmap string value))
    (fuel : nat) (lines : list string) (pc : nat)
    (original_line name_part value_part text : string)
    (variables : gmap string value) (st st1 st2 : interp) (result : value) :
  dispatch (FUNCTIONS st) original_line = BVar ->
  Text.startswith "var this." original_line = false ->
  Text.split_once "="%char (Text.skip 4 original_line)
    = Some (name_part, value_part) ->
  known_call (FUNCTIONS st) (Text.match_call (Text.strip value_part)) = None ->
  substitute_vars fuel (Text.strip value_part) variables st = Ok text st1 ->
  safe_eval (rewrite_vata text) variables st1 = Ok result st2 ->
  exec_line exec fuel lines pc original_line variables st =
  match result with
  | VNone =>
      Ok (Next pc variables)
         (printed ("Syntax Error or invalid value for variable '" +:+
                   Text.strip name_part +:+ "' on line " +:+ line_no pc +:+ ".")
                  st2)
  | _ => Ok (Next pc (<[Text.strip name_part := result]> variables)) st2
  end.
Proof.
  intros Hd Hthis Hsplit Hcall Hsub Heval.
  rewrite (exec_line_var _ _ _ _ _ _ _ Hd).
  unfold exec_var. rewrite Hthis. unfold exec_var_regular. rewrite Hsplit.
  unfold bind at 1. unfold try_except. unfold bind at 1. unfold get at 1.
  rewrite Hcall. unfold assign_general.
  rewrite (bind_Ok _ _ _ _ _ Hsub), (bind_Ok _ _ _ _ _ Heval).
  destruct result; reflexivity.
Qed.

End ExecutorFacts.


(** * Scripts run at the small host *)

Section Scripts.
Existing Instance Mini.host.

(** ** A return inside a conditional block *)

(** C1.  The body of [f] reaches [return 1] inside a block whose condition
    is true.  The nested call of [execute] on the block returns 1, the call
    on the body of [f] drops that value and falls off its end, and the
    assignment binds [r] to None: the returned value is not forwarded. *)
Theorem return_inside_if_is_dropped :
  execute 10 ["    return 1"] ∅ (Mini.boot ∅ [])
    = Ok (VInt 1, ∅) (Mini.boot ∅ []) /\
  exists st,
    Mini.run 10 return_in_if_script (Mini.boot ∅ [])
      = Ok (VNone, {[ "r" := VNone ]}) st /\
    stdout st = [].
Proof.
  split; [vm_compute; reflexivity|].
  eexists. split; vm_compute; reflexivity.
Qed.

(** The same return as a line of the body itself is forwarded. *)
Example return_at_top_is_forwarded :
  exists st,
    Mini.run 10 return_at_top_script (Mini.boot ∅ [])
      = Ok (VNone, {[ "r" := VInt 1 ]}) st.
Proof. eexists. vm_compute. reflexivity. Qed.

(** ** Instantiation with the wrong number of arguments *)

(** C2.  [init] declares two parameters and [new P(1)] supplies one
    argument.  No diagnostic is printed, [init] runs (the new object has the
    attributes that it assigns, [b] from the unbound parameter) and [p] is
    bound to the object: the statement is not aborted. *)
Theorem new_runs_init_on_arity_mismatch :
  exists st,
    Mini.run 10 new_arity_script (Mini.boot ∅ [])
      = Ok (VNone, {[ "p" := VInst 0 ]}) st /\
    objects st = [ MkObject "P" {[ "a" := VInt 1; "b" := VNone ]} ] /\
    stdout st = [].
Proof. eexists. repeat split; vm_compute; reflexivity. Qed.

(** The call of a function checks the count: the body does not run. *)
Example call_checks_arity :
  exists st,
    Mini.run 10 call_arity_script (Mini.boot ∅ []) = Ok (VNone, ∅) st /\
    stdout st = [ "Error: Function 'h' expects 2 arguments, but got 1." +:+
                  String Text.nl EmptyString ].
Proof. eexists. split; vm_compute; reflexivity. Qed.

(** ** Loops *)


(** Both turns print 1, the caller still has 0 for [c] and nothing for
    [d]: [say d] prints its text. *)
Example loop_script_output :
  exists st,
    Mini.run 10 loop_script (Mini.boot ∅ [])
      = Ok (VNone, {[ "c" := VInt 0 ]}) st /\
    stdout st = (fun s => s +:+ String Text.nl EmptyString)
                  <$> [ "1"; "1"; "0"; "d" ].
Proof. eexists. split; vm_compute; reflexivity. Qed.

(** ** Conditional blocks *)

(** The second block of [if_script]: its condition is true, and the
    binding of [z] made by its branch is in the environment with which the
    caller goes on. *)
Lemma if_branch_shares_environment_witness :
  execute_at 11 if_script 6 {[ "y" := VInt 3 ]} (Mini.boot ∅ [])
  = execute_at 10 if_script 9 {[ "y" := VInt 3; "z" := VInt 1 ]}
      (Mini.boot ∅ []).
Proof.
  apply (if_branch_shares_environment 10 if_script 6 "if True" "if True"
           {[ "y" := VInt 3 ]} (Mini.boot ∅ []) (Mini.boot ∅ [])
           (Mini.boot ∅ []) (Mini.boot ∅ []) (VBool true) None 8
           [ "  var z = 1" ] VNone);
    vm_compute; reflexivity.
Defined.

(** The first block: the condition is false and the lines behind the else
    execute in the environment of the caller. *)
Example else_branch_shares_environment :
  execute_at 11 if_script 0 ∅ (Mini.boot ∅ [])
  = execute_at 10 if_script 5 {[ "y" := VInt 3 ]} (Mini.boot ∅ []).
Proof. vm_compute. reflexivity. Qed.

Example if_script_output :
  exists st,
    Mini.run 10 if_script (Mini.boot ∅ [])
      = Ok (VNone, {[ "y" := VInt 3; "z" := VInt 1 ]}) st /\
    stdout st = (fun s => s +:+ String Text.nl EmptyString) <$> [ "3"; "1" ].
Proof. eexists. split; vm_compute; reflexivity. Qed.

(** ** The general assignment *)

(** After [var x = 5], the line [var x = None] prints the diagnostic and
    leaves [x] bound to 5. *)
Lemma general_assignment_rejects_None_witness :
  exec_line (execute 10) 10 [ "var x = 5"; "var x = None" ] 1 "var x = None"
            {[ "x" := VInt 5 ]} (Mini.boot ∅ [])
  = Ok (Next 1 {[ "x" := VInt 5 ]})
       (printed "Syntax Error or invalid value for variable 'x' on line 2."
                (Mini.boot ∅ [])).
Proof.
  apply (general_assignment_rejects_None (execute 10) 10
           [ "var x = 5"; "var x = None" ] 1 "var x = None" "x " " None"
           "None" {[ "x" := VInt 5 ]} (Mini.boot ∅ []) (Mini.boot ∅ [])
           (Mini.boot ∅ []) VNone);
    vm_compute; reflexivity.
Defined.

(** Neither the literal None nor a failed evaluation binds a name. *)
Example none_script_output :
  exists st,
    Mini.run 10 none_script (Mini.boot ∅ [])
      = Ok (VNone, {[ "x" := VInt 5 ]}) st /\
    stdout st = (fun s => s +:+ String Text.nl EmptyString) <$>
      [ "Syntax Error or invalid value for variable 'x' on line 2.";
        "Syntax Error or invalid value for variable 'y' on line 3.";
        "Syntax Error or invalid value for variable 'z' on line 4." ].
Proof. eexists. split; vm_compute; reflexivity. Qed.

(** ** Calls *)


(** The body of [show] does not see [secret]: [say secret] prints its
    text. *)
Example callee_does_not_see_caller :
  exists st,
    exec_func_call (execute 10) 10 "show" "5" {[ "secret" := VInt 1 ]}
                   show_state = Ok tt st /\
    stdout st = (fun s => s +:+ String Text.nl EmptyString)
                  <$> [ "secret"; "5" ].
Proof. eexists. split; vm_compute; reflexivity. Qed.

(** ** Modules *)

(** The four ways out of [load_module]: the triple, a missing file, a
    failure of the preprocessor (the func line has no parameter list, so
    endfunc finds no blueprint to complete), a failure of the execution and
    an exit.  Each leaves the registries of the caller as they were. *)
Example load_module_returns :
  load_module (execute 10) "lib.mslash" caller_state
  = Ok ({[ "k" := VInt 7 ]},
        {[ "add" := FuncInfo [ "a"; "b" ] [ "return a + b" ] ]},
        {[ "Box" := ClassInfo
                      {[ "init" := FuncInfo [ "v" ] [ "var this.v = v" ] ]} ]})
       caller_state.
Proof. vm_compute. reflexivity. Qed.

Example load_module_file_not_found :
  exists msg,
    load_module (execute 10) "nowhere.mslash" caller_state
    = Raise (Exn FileNotFoundError msg) caller_state.
Proof. eexists. vm_compute. reflexivity. Qed.

Example load_module_parse_failure :
  load_module (execute 10) "unclosed.mslash" caller_state
  = Raise (Exn KeyError "None") caller_state.
Proof. vm_compute. reflexivity. Qed.

Example load_module_execution_failure :
  load_module (execute 10) "reads.mslash" caller_state
  = Raise (Exn EOFError "EOF when reading a line") caller_state.
Proof. vm_compute. reflexivity. Qed.

Example load_module_exit :
  load_module (execute 10) "exits.mslash" caller_state
  = Raise (Exn SystemExit "")
          (printed "--- Script terminated by break ---" caller_state).
Proof. vm_compute. reflexivity. Qed.

(** The first line of [steal_script]: [add] is no variable of the module
    and is one of its functions; that blueprint alone is added to FUNCTIONS
    and the script goes on with the next line. *)
Lemma steal_copies_first_match_witness :
  execute_at 11 steal_script 0 ∅ caller_state
  = execute_at 10 steal_script 1 ∅
      (set_FUNCTIONS
         (<[ "add" := FuncInfo [ "a"; "b" ] [ "return a + b" ] ]>
            (FUNCTIONS caller_state)) caller_state).
Proof.
  destruct (steal_copies_first_match 10 steal_script 0
              "steal add from lib.mslash" "add" "lib.mslash" ∅ caller_state)
    as [_ Hloaded]; [vm_compute; reflexivity ..|].
  rewrite (Hloaded _ _ _ _ load_module_returns).
  vm_compute. reflexivity.
Defined.

(** The whole script: one variable, one function and one class are copied,
    the two failed imports are reported, and the last line still runs. *)
Example steal_script_output :
  exists st,
    execute 10 steal_script ∅ caller_state
      = Ok (VNone, {[ "k" := VInt 7 ]}) st /\
    FUNCTIONS st
      = {[ "mine" := FuncInfo [] [ "say 1" ];
           "add" := FuncInfo [ "a"; "b" ] [ "return a + b" ] ]} /\
    CLASSES st
      = {[ "Box" := ClassInfo
                      {[ "init" := FuncInfo [ "v" ] [ "var this.v = v" ] ]} ]} /\
    stdout st = (fun s => s +:+ String Text.nl EmptyString) <$>
      [ "Import Error on line 4: 'zz' not found in lib.mslash.";
        "Import Error on line 5: Module file 'nowhere.mslash' not found.";
        "7" ].
Proof. eexists. repeat split; vm_compute; reflexivity. Qed.

(** ** Objects shared with the turns of a loop *)

(** One call of [inc] through the variable [c]: the attribute of the
    object in the store goes from [k] to [k + 1]. *)
Lemma counter_turn (k : Z) :
  execute 11 [ "c.inc()" ] {[ "c" := VInst 0 ]} (counter_state k)
  = Ok (VNone, {[ "c" := VInst 0 ]}) (counter_state (k + 1)).
Proof. vm_compute. reflexivity. Qed.

(** An instance: a loop of [N] turns whose body calls [c.inc()], entered
    with [c] bound to a Counter that has counted to [k].  Every turn starts from a
    copy of the environment, which binds [c] to the same object, so the
    attribute that one turn writes is what the next turn reads, and when
    the loop is over the object of the caller has counted to [k + N], while
    the environment of the caller is as it was. *)
Lemma loop_shares_instances (raw_line line : string) (N : nat) (k : Z) :
  dispatch (FUNCTIONS (counter_state k))
           (Text.strip (strip_inline_comments raw_line)) = BLoop ->
  substitute_vars 11 (Text.strip (strip_inline_comments raw_line))
                  {[ "c" := VInst 0 ]} (counter_state k)
    = Ok line (counter_state k) ->
  Text.split_ws line !! 1 ≫= Text.py_int = Some (Z.of_nat N) ->
  execute 12 [ raw_line; "c.inc()"; "endloop" ] {[ "c" := VInst 0 ]}
          (counter_state k)
  = Ok (VNone, {[ "c" := VInst 0 ]}) (counter_state (k + Z.of_nat N)).
Proof.
  intros Hd Hsub Htimes. unfold execute.
  assert (Hblank : Text.is_empty
            (Text.strip (strip_inline_comments raw_line)) = false)
    by (eapply dispatch_not_blank; [exact Hd|discriminate]).
  rewrite (execute_at_line 11 [ raw_line; "c.inc()"; "endloop" ] 0 raw_line
             _ _ eq_refl Hblank).
  rewrite (bind_Ok _ _ _ (counter_state (k + Z.of_nat N))
                   (Next 2 {[ "c" := VInst 0 ]})); [reflexivity|].
  pose proof (exec_loop_runs 11 [ raw_line; "c.inc()"; "endloop" ] 0 _ line
                {[ "c" := VInst 0 ]} (counter_state k) (counter_state k)
                (Z.of_nat N) 2 (fun j => counter_state (k + Z.of_nat j))
                Hd Hsub Htimes eq_refl) as Hrun.
  rewrite Nat2Z.id in Hrun. apply Hrun.
  - cbn. f_equal. lia.
  - intros j _. exists VNone, {[ "c" := VInst 0 ]}.
    replace (k + Z.of_nat (S j))%Z with (k + Z.of_nat j + 1)%Z by lia.
    apply counter_turn.
Qed.

Lemma loop_shares_instances_witness :
  execute 12 [ "loop 3"; "c.inc()"; "endloop" ] {[ "c" := VInst 0 ]}
          (counter_state 0)
  = Ok (VNone, {[ "c" := VInst 0 ]}) (counter_state 3).
Proof.
  apply (loop_shares_instances "loop 3" "loop 3" 3 0);
    vm_compute; reflexivity.
Defined.

(** The whole script: each turn rebinds [c] in its copy, which no other
    turn and not the caller sees, and the three calls of [inc] add up on
    the one object. *)
Example counter_script_output :
  exists st,
    Mini.run 12 counter_script (Mini.boot ∅ [])
      = Ok (VNone, {[ "c" := VInst 0 ]}) st /\
    objects st = [ MkObject "Counter" {[ "n" := VInt 3 ]} ] /\
    stdout st = [ "3" +:+ String Text.nl EmptyString ].
Proof. eexists. repeat split; vm_compute; reflexivity. Qed.

(** A list: one execution of the body appends to the list that [l] names. *)
Lemma list_turn (items : list value) :
  execute 11 [ "  math l.append(1) or None" ] {[ "l" := VList 0 ]}
          (list_state items)
  = Ok (VNone, {[ "l" := VList 0 ]}) (list_state (items ++ [ VInt 1 ])).
Proof. vm_compute. reflexivity. Qed.

(** A loop of [N] turns with that body, entered with [l] bound to a list:
    behind the loop the list of the caller has [N] more elements. *)
Lemma loop_shares_lists (raw_line line : string) (N : nat)
    (items : list value) :
  dispatch (FUNCTIONS (list_state items))
           (Text.strip (strip_inline_comments raw_line)) = BLoop ->
  substitute_vars 11 (Text.strip (strip_inline_comments raw_line))
                  {[ "l" := VList 0 ]} (list_state items)
    = Ok line (list_state items) ->
  Text.split_ws line !! 1 ≫= Text.py_int = Some (Z.of_nat N) ->
  execute 12 [ raw_line; "  math l.append(1) or None"; "endloop" ]
          {[ "l" := VList 0 ]} (list_state items)
  = Ok (VNone, {[ "l" := VList 0 ]})
       (list_state (items ++ replicate N (VInt 1))).
Proof.
  intros Hd Hsub Htimes. unfold execute.
  assert (Hblank : Text.is_empty
            (Text.strip (strip_inline_comments raw_line)) = false)
    by (eapply dispatch_not_blank; [exact Hd|discriminate]).
  rewrite (execute_at_line 11
             [ raw_line; "  math l.append(1) or None"; "endloop" ] 0 raw_line
             _ _ eq_refl Hblank).
  rewrite (bind_Ok _ _ _ (list_state (items ++ replicate N (VInt 1)))
                   (Next 2 {[ "l" := VList 0 ]})); [reflexivity|].
  pose proof (exec_loop_runs 11
                [ raw_line; "  math l.append(1) or None"; "endloop" ] 0 _ line
                {[ "l" := VList 0 ]} (list_state items) (list_state items)
                (Z.of_nat N) 2
                (fun j => list_state (items ++ replicate j (VInt 1)))
                Hd Hsub Htimes eq_refl) as Hrun.
  rewrite Nat2Z.id in Hrun. apply Hrun.
  - cbn [replicate]. rewrite app_nil_r. reflexivity.
  - intros j _. exists VNone, {[ "l" := VList 0 ]}.
    replace (items ++ replicate (S j) (VInt 1))
      with ((items ++ replicate j (VInt 1)) ++ [ VInt 1 ])
      by (rewrite <- app_assoc, <- replicate_cons_app; reflexivity).
    apply list_turn.
Qed.

(** Three turns on the list [[0]]: each turn appends to the list that the
    turn before left, and the caller reads the list with the three new
    elements. *)
Lemma loop_shares_mutable_values_witness :
  execute_at 12 list_loop 0 {[ "l" := VList 0 ]} (list_state [ VInt 0 ])
  = Ok (VNone, {[ "l" := VList 0 ]})
       (printed "[0, 1, 1, 1]"
          (list_state [ VInt 0; VInt 1; VInt 1; VInt 1 ])).
Proof.
  etransitivity;
    [ apply (proj1 (loop_shares_mutable_values 11 list_loop 0 "loop 3"
                      "loop 3" {[ "l" := VList 0 ]} (list_state [ VInt 0 ])
                      (list_state [ VInt 0 ]) 3 2 append_turn
                      (fun s => exists items, s = list_state items)
                      ltac:(vm_compute; reflexivity)
                      ltac:(vm_compute; reflexivity)
                      ltac:(vm_compute; reflexivity)
                      ltac:(vm_compute; reflexivity)
                      ltac:(vm_compute; reflexivity)
                      ltac:(eexists; reflexivity)
                      ltac:(intros s [items ->]; split;
                            [eexists; reflexivity
                            |eexists _, _; vm_compute; reflexivity])))
    | vm_compute; reflexivity ].
Defined.

(** The whole scripts: the turns print the list as it grows, the binding of
    [l] that a turn makes is dropped, and the caller prints the list with
    all the elements; the dictionary that the first turn empties is empty
    for the second turn and for the caller. *)
Example list_script_output :
  exists st,
    Mini.run 12 list_script (Mini.boot ∅ [])
      = Ok (VNone, {[ "l" := VList 0 ]}) st /\
    lists st = [ [ VInt 0; VInt 1; VInt 1; VInt 1 ] ] /\
    stdout st = (fun s => s +:+ String Text.nl EmptyString)
                  <$> [ "[0, 1]"; "[0, 1, 1]"; "[0, 1, 1, 1]";
                        "[0, 1, 1, 1]" ].
Proof. eexists. repeat split; vm_compute; reflexivity. Qed.

Example dict_script_output :
  exists st,
    Mini.run 12 dict_script (Mini.boot ∅ [])
      = Ok (VNone, {[ "d" := VDict 0 ]}) st /\
    dicts st = [ [] ] /\
    stdout st = (fun s => s +:+ String Text.nl EmptyString)
                  <$> [ "{'k': 1, 'j': 'x'}"; "{}"; "{}" ].
Proof. eexists. repeat split; vm_compute; reflexivity. Qed.

End Scripts.

(** * Further properties *)

(** ** Comments and interpolation *)

Section TextFacts.

Lemma closes_remove_comments (prev_dollar : bool) (s : string) :
  Text.closes s = false ->
  Text.closes (Text.remove_comments prev_dollar false s) = false.
Proof.
  revert prev_dollar. induction s as [|c s IH]; intros pd Hc; [reflexivity|].
  cbn [Text.closes] in Hc. cbn [Text.remove_comments].
  destruct (Ascii.eqb c "}") eqn:Hclose; [discriminate|].
  destruct (Ascii.eqb c Text.nl) eqn:Hnl.
  - destruct (Ascii.eqb c "{" && negb pd && Text.closes s) eqn:Hopen.
    + apply andb_true_iff in Hopen as [Hopen _].
      apply andb_true_iff in Hopen as [Hopen _].
      apply Ascii.eqb_eq in Hopen. apply Ascii.eqb_eq in Hnl.
      subst c. discriminate.
    + cbn [Text.closes]. rewrite Hclose, Hnl. reflexivity.
  - rewrite Hc, andb_false_r. cbn [Text.closes]. rewrite Hclose, Hnl.
    apply IH. exact Hc.
Qed.

Lemma remove_comments_idempotent (s : string) :
  (forall prev_dollar,
     Text.remove_comments prev_dollar false
       (Text.remove_comments prev_dollar false s)
     = Text.remove_comments prev_dollar false s) /\
  Text.remove_comments false false (Text.remove_comments false true s)
  = Text.remove_comments false true s.
Proof.
  induction s as [|c s [IH1 IH2]]; [split; reflexivity|]. split.
  - intros pd. cbn [Text.remove_comments].
    destruct (Ascii.eqb c "{" && negb pd && Text.closes s) eqn:Hopen.
    + apply andb_true_iff in Hopen as [Hopen _].
      apply andb_true_iff in Hopen as [_ Hpd].
      destruct pd; [discriminate|]. exact IH2.
    + cbn [Text.remove_comments].
      replace (Ascii.eqb c "{" && negb pd &&
               Text.closes (Text.remove_comments (Ascii.eqb c "$") false s))
        with false.
      * rewrite IH1. reflexivity.
      * symmetry. destruct (Ascii.eqb c "{" && negb pd) eqn:Hb;
          [|reflexivity].
        rewrite andb_true_l in Hopen. rewrite andb_true_l.
        apply closes_remove_comments. exact Hopen.
  - cbn [Text.remove_comments].
    destruct (Ascii.eqb c "}"); cbn [negb]; [apply IH1|exact IH2].
Qed.

(** X5.  Stripping the comments of a line a second time changes nothing. *)
Theorem strip_inline_comments_idempotent (line : string) :
  strip_inline_comments (strip_inline_comments line)
  = strip_inline_comments line.
Proof. apply remove_comments_idempotent. Qed.

Lemma remove_comments_no_brace (prev_dollar : bool) (s : string) :
  has_char "{" s = false ->
  Text.remove_comments prev_dollar false s = s.
Proof.
  revert prev_dollar. induction s as [|c s IH]; intros pd Hb; [reflexivity|].
  cbn [has_char] in Hb. apply orb_false_iff in Hb as [Hc Hs].
  cbn [Text.remove_comments]. rewrite Hc. cbn [andb]. rewrite IH by exact Hs.
  reflexivity.
Qed.


Lemma remove_comments_dollar_braces (prev_dollar : bool) (s : string) :
  braces_follow_dollar prev_dollar s = true ->
  Text.remove_comments prev_dollar false s = s.
Proof.
  revert prev_dollar. induction s as [|c s IH]; intros pd Hb; [reflexivity|].
  cbn [braces_follow_dollar] in Hb. apply andb_true_iff in Hb as [Hc Hs].
  cbn [Text.remove_comments].
  replace (Ascii.eqb c "{" && negb pd) with false
    by (destruct (Ascii.eqb c "{"), pd; cbn in *; congruence).
  cbn [andb]. rewrite IH by exact Hs. reflexivity.
Qed.

(** X6.  A line in which every opening brace follows a dollar (a line without
    braces, or with interpolations only) is left as it is. *)
Theorem strip_inline_comments_keeps_interpolations (line : string) :
  braces_follow_dollar false line = true ->
  strip_inline_comments line = line.
Proof. apply remove_comments_dollar_braces. Qed.

Lemma closes_comment (c b : string) :
  has_char Text.nl c = false ->
  Text.closes (c +:+ String "}" b) = true.
Proof.
  induction c as [|d c IH]; intros Hnl; [reflexivity|].
  cbn [has_char] in Hnl. apply orb_false_iff in Hnl as [Hd Hc].
  simpl. destruct (Ascii.eqb d "}"); [reflexivity|].
  rewrite Hd. apply IH. exact Hc.
Qed.

Lemma skip_comment (c b : string) :
  has_char "}" c = false ->
  Text.remove_comments false true (c +:+ String "}" b)
  = Text.remove_comments false false b.
Proof.
  induction c as [|d c IH]; intros Hc; [reflexivity|].
  cbn [has_char] in Hc. apply orb_false_iff in Hc as [Hd Hc].
  simpl. rewrite Hd. simpl. apply IH. exact Hc.
Qed.

Lemma remove_comments_prefix (prev_dollar : bool) (a c b : string) :
  has_char "{" a = false ->
  (if Text.is_empty a then prev_dollar else ends_with_dollar a) = false ->
  has_char "}" c = false ->
  has_char Text.nl c = false ->
  Text.remove_comments prev_dollar false (a +:+ String "{" (c +:+ String "}" b))
  = a +:+ Text.remove_comments false false b.
Proof.
  revert prev_dollar. induction a as [|d a IH]; intros pd Ha Hd Hc Hnl.
  - cbn in Hd. subst pd. simpl.
    rewrite closes_comment by exact Hnl. apply skip_comment. exact Hc.
  - cbn [has_char] in Ha. apply orb_false_iff in Ha as [Hda Ha].
    simpl. rewrite Hda. simpl.
    change (String d a +:+ Text.remove_comments false false b)
      with (String d (a +:+ Text.remove_comments false false b)).
    f_equal. apply IH; try assumption.
    destruct a as [|d' a']; [exact Hd|].
    cbn [Text.is_empty] in *. unfold ends_with_dollar in *.
    change (Text.unsnoc (String d (String d' a')))
      with (match Text.unsnoc (String d' a') with
            | None => Some (EmptyString, d)
            | Some (i, l) => Some (String d i, l)
            end) in Hd.
    destruct (Text.unsnoc (String d' a')) as [[i l]|] eqn:Hu; [exact Hd|].
    cbn in Hu. destruct (Text.unsnoc a') as [[i l]|]; discriminate.
Qed.

(** X7.  A comment [{c}] that does not follow a dollar is taken out of the line,
    and what follows it is stripped as a line of its own. *)
Theorem strip_inline_comments_removes_comment (a c b : string) :
  has_char "{" a = false ->
  ends_with_dollar a = false ->
  has_char "}" c = false ->
  has_char Text.nl c = false ->
  strip_inline_comments (a +:+ String "{" (c +:+ String "}" b))
  = a +:+ strip_inline_comments b.
Proof.
  intros Ha Hd Hc Hnl. apply remove_comments_prefix; try assumption.
  destruct a; [reflexivity|exact Hd].
Qed.


Lemma interp_body_found (e b : string) :
  has_char "{" e = false -> has_char "}" e = false ->
  Text.interp_body (e +:+ String "}" b) = Some (e, b).
Proof.
  induction e as [|c e IH]; intros Ho Hc; [reflexivity|].
  cbn [has_char] in Ho, Hc.
  apply orb_false_iff in Ho as [Ho1 Ho]. apply orb_false_iff in Hc as [Hc1 Hc].
  simpl. rewrite Hc1, Ho1, (IH Ho Hc). reflexivity.
Qed.

(** The search finds the leftmost interpolation: the text before it has no
    dollar and its expression has no brace. *)
Lemma search_interp_found (a e b : string) :
  has_char "$" a = false ->
  has_char "{" e = false -> has_char "}" e = false ->
  Text.search_interp (a +:+ String "$" (String "{" (e +:+ String "}" b)))
  = Some (a, e, b).
Proof.
  intros Ha Ho Hc. induction a as [|c a IH].
  - simpl. rewrite (interp_body_found e b Ho Hc). reflexivity.
  - cbn [has_char] in Ha. apply orb_false_iff in Ha as [Hc1 Ha].
    simpl. rewrite Hc1, (IH Ha). reflexivity.
Qed.

Section Interpolation.
Context `{Host}.

(** X8.  One turn of the interpolator on the leftmost [${e}] of a line: a value
    that is not None replaces it by its text and the whole new line is
    searched again; None prints the warning and ends the interpolation with
    the line as it is, whatever else the line holds.  Both go on from the
    state [st'] that the evaluation has left. *)
Theorem substitute_vars_leftmost (fuel : nat) (a e b : string)
    (variables : gmap string value) (st st' : interp) (v : value) :
  has_char "$" a = false ->
  has_char "{" e = false -> has_char "}" e = false ->
  safe_eval e variables st = Ok v st' ->
  substitute_vars (S fuel)
    (a +:+ String "$" (String "{" (e +:+ String "}" b))) variables st =
  match v with
  | VNone =>
      Ok (a +:+ String "$" (String "{" (e +:+ String "}" b)))
         (printed ("Warning: Could not evaluate nested expression '$" +:+
                   e +:+ "'.") st')
  | _ => substitute_vars fuel (a +:+ py_str st' v +:+ b) variables st'
  end.
Proof.
  intros Ha Ho Hc Hv. cbn [substitute_vars].
  rewrite (search_interp_found a e b Ha Ho Hc).
  rewrite (bind_Ok _ _ _ _ _ Hv). destruct v; reflexivity.
Qed.

Lemma append_empty_r (s : string) : s +:+ EmptyString = s.
Proof.
  induction s as [|c s IH]; [reflexivity|].
  change (String c (s +:+ EmptyString) = String c s). rewrite IH. reflexivity.
Qed.

Lemma substitute_vars_leftmost_aux (fuel : nat) (e : string)
    (variables : gmap string value) (st : interp) :
  has_char "{" e = false -> has_char "}" e = false ->
  safe_eval e variables st
    = Ok (VStr (String "$" (String "{" (e +:+ String "}" EmptyString)))) st ->
  substitute_vars (S fuel)
    (String "$" (String "{" (e +:+ String "}" EmptyString))) variables st
  = substitute_vars fuel
      (String "$" (String "{" (e +:+ String "}" EmptyString))) variables st.
Proof.
  intros Ho Hc Hv. cbn [substitute_vars].
  assert (Hs : Text.search_interp
                 (String "$" (String "{" (e +:+ String "}" EmptyString)))
               = Some (EmptyString, e, EmptyString))
    by exact (search_interp_found EmptyString e EmptyString eq_refl Ho Hc).
  rewrite Hs, (bind_Ok _ _ _ _ _ Hv). cbn [py_str]. unfold bind, get.
  f_equal. apply append_empty_r.
Qed.

(** X9.  A name whose value is the text of its own interpolation: the while
    loop of the interpolator never ends. *)
Theorem substitute_vars_self_reference (e : string)
    (variables : gmap string value) (st : interp) :
  has_char "{" e = false -> has_char "}" e = false ->
  safe_eval e variables st
    = Ok (VStr (String "$" (String "{" (e +:+ String "}" EmptyString)))) st ->
  forall fuel,
    substitute_vars fuel (String "$" (String "{" (e +:+ String "}" EmptyString)))
                    variables st = OutOfFuel.
Proof.
  intros Ho Hc Hv fuel. induction fuel as [|fuel IH]; [reflexivity|].
  rewrite (substitute_vars_leftmost_aux fuel e variables st Ho Hc Hv).
  exact IH.
Qed.

End Interpolation.
End TextFacts.

(** ** The patterns of the call statements *)

Section PatternFacts.

Lemma append_cons (c : ascii) (s t : string) :
  String c s +:+ t = String c (s +:+ t).
Proof. reflexivity. Qed.

Lemma append_assoc (a b c : string) : (a +:+ b) +:+ c = a +:+ (b +:+ c).
Proof.
  induction a as [|d a IH]; [reflexivity|].
  rewrite !append_cons, IH. reflexivity.
Qed.

Lemma unsnoc_append (s : string) (c : ascii) :
  Text.unsnoc (s +:+ String c EmptyString) = Some (s, c).
Proof.
  induction s as [|d s IH]; [reflexivity|].
  rewrite append_cons. cbn [Text.unsnoc]. rewrite IH. reflexivity.
Qed.

Lemma unsnoc_Some (s i : string) (l : ascii) :
  Text.unsnoc s = Some (i, l) -> s = i +:+ String l EmptyString.
Proof.
  revert i. induction s as [|d s IH]; intros i Hs; [discriminate|].
  cbn [Text.unsnoc] in Hs.
  destruct (Text.unsnoc s) as [[i' l']|] eqn:Hu.
  - injection Hs as <- <-. rewrite append_cons, <- (IH i' eq_refl).
    reflexivity.
  - injection Hs as <- <-. destruct s as [|d' s']; [reflexivity|].
    cbn in Hu. destruct (Text.unsnoc s') as [[]|]; discriminate.
Qed.

Lemma ident_tail_append (s a b : string) :
  Text.ident_tail s = (a, b) -> s = a +:+ b.
Proof.
  revert a. induction s as [|c s IH]; intros a Hs.
  - injection Hs as <- <-. reflexivity.
  - cbn [Text.ident_tail] in Hs. destruct (Text.is_ident_char c).
    + destruct (Text.ident_tail s) as [a' b'].
      injection Hs as <- <-. rewrite append_cons, <- (IH a' eq_refl).
      reflexivity.
    + injection Hs as <- <-. reflexivity.
Qed.

(** The tail of an identifier followed by a text that does not go on with
    an identifier character. *)
Lemma ident_tail_followed (s r : string) :
  Text.ident_tail s = (s, EmptyString) ->
  match r with
  | EmptyString => True
  | String c _ => Text.is_ident_char c = false
  end ->
  Text.ident_tail (s +:+ r) = (s, r).
Proof.
  induction s as [|c s IH]; intros Hs Hr.
  - destruct r as [|c r]; [reflexivity|].
    change (Text.ident_tail (String c r) = (EmptyString, String c r)).
    cbn [Text.ident_tail]. rewrite Hr. reflexivity.
  - cbn [Text.ident_tail] in Hs. rewrite append_cons. cbn [Text.ident_tail].
    destruct (Text.is_ident_char c); [|discriminate].
    destruct (Text.ident_tail s) as [a b] eqn:Ht.
    injection Hs as -> ->. rewrite (IH eq_refl Hr). reflexivity.
Qed.

Lemma ident_tail_whole (s a b : string) :
  Text.ident_tail s = (a, b) -> Text.ident_tail a = (a, EmptyString).
Proof.
  revert a. induction s as [|c s IH]; intros a Hs.
  - injection Hs as <- <-. reflexivity.
  - cbn [Text.ident_tail] in Hs. destruct (Text.is_ident_char c) eqn:Hc.
    + destruct (Text.ident_tail s) as [a' b'].
      injection Hs as <- <-. cbn [Text.ident_tail]. rewrite Hc.
      rewrite (IH a' eq_refl). reflexivity.
    + injection Hs as <- <-. reflexivity.
Qed.

Lemma take_ident_sound (s n r : string) :
  Text.take_ident s = Some (n, r) ->
  s = n +:+ r /\ is_identifier n = true.
Proof.
  unfold Text.take_ident, is_identifier. destruct s as [|c s]; [discriminate|].
  destruct (Text.is_ident_start c) eqn:Hc; [|discriminate].
  destruct (Text.ident_tail s) as [a b] eqn:Ht. intros Hs.
  injection Hs as <- <-. split.
  - rewrite append_cons, <- (ident_tail_append _ _ _ Ht). reflexivity.
  - cbn [Text.take_ident]. rewrite Hc, (ident_tail_whole _ _ _ Ht).
    reflexivity.
Qed.

Lemma is_identifier_tail (n : string) :
  is_identifier n = true ->
  exists c t, n = String c t /\ Text.is_ident_start c = true /\
              Text.ident_tail t = (t, EmptyString).
Proof.
  unfold is_identifier, Text.take_ident. destruct n as [|c t]; [discriminate|].
  destruct (Text.is_ident_start c) eqn:Hc; [|discriminate].
  destruct (Text.ident_tail t) as [a b] eqn:Ht.
  destruct b; [|discriminate]. intros _. exists c, t.
  split; [reflexivity|]. split; [exact Hc|].
  pose proof (ident_tail_append _ _ _ Ht) as Heq.
  rewrite append_empty_r in Heq. subst a. exact Ht.
Qed.

Lemma take_ident_complete (n r : string) :
  is_identifier n = true ->
  match r with
  | EmptyString => True
  | String c _ => Text.is_ident_char c = false
  end ->
  Text.take_ident (n +:+ r) = Some (n, r).
Proof.
  intros Hn Hr. destruct (is_identifier_tail n Hn) as (c & t & -> & Hc & Ht).
  rewrite append_cons. cbn [Text.take_ident]. rewrite Hc.
  rewrite (ident_tail_followed t r Ht Hr). reflexivity.
Qed.

Lemma call_pattern_spec (s name arg_str : string) :
  Text.call_pattern s = Some (name, arg_str) <->
  (s = name +:+ String "(" (arg_str +:+ String ")" EmptyString) /\
   is_identifier name = true /\ Text.has_newline arg_str = false).
Proof.
  unfold Text.call_pattern. split.
  - destruct (Text.take_ident s) as [[n r]|] eqn:Hi; [|discriminate].
    destruct (take_ident_sound _ _ _ Hi) as [-> Hn].
    unfold Text.parenthesised.
    destruct r as [|c r]; [discriminate|].
    destruct (Ascii.eqb_spec c "(") as [->|Hne].
    + destruct (Text.unsnoc r) as [[inner l]|] eqn:Hu; [|discriminate].
      destruct (Ascii.eqb_spec l ")") as [->|Hne'].
      * destruct (Text.has_newline inner) eqn:Hnl; [discriminate|].
        intros Hs. injection Hs as <- <-.
        rewrite (unsnoc_Some _ _ _ Hu). auto.
      * intros Hs. exfalso. revert Hs.
        destruct l as [[] [] [] [] [] [] [] []]; try discriminate.
        contradiction.
    + intros Hs. exfalso. revert Hs.
      destruct c as [[] [] [] [] [] [] [] []]; try discriminate.
      contradiction.
  - intros (-> & Hn & Hnl).
    rewrite (take_ident_complete name _ Hn) by reflexivity.
    cbn [Text.parenthesised]. rewrite unsnoc_append, Hnl. reflexivity.
Qed.


Lemma method_pattern_spec (s obj_expr method_name arg_str : string) :
  Text.method_pattern s = Some (obj_expr, method_name, arg_str) <->
  (s = obj_expr +:+
       String "." (method_name +:+
                   String "(" (arg_str +:+ String ")" EmptyString)) /\
   is_identifier method_name = true /\ Text.has_newline arg_str = false /\
   Text.method_pattern
     (method_name +:+ String "(" (arg_str +:+ String ")" EmptyString)) = None).
Proof.
  split.
  - revert obj_expr. induction s as [|c s IH]; intros o Hs; [discriminate|].
    cbn [Text.method_pattern] in Hs.
    destruct (Text.method_pattern s) as [[[o' m'] a']|] eqn:Hm.
    + injection Hs as <- <- <-.
      destruct (IH o' eq_refl) as (-> & Hi & Hnl & Hlast).
      rewrite append_cons. auto.
    + destruct (Ascii.eqb_spec c ".") as [->|_]; [|discriminate].
      destruct (Text.call_pattern s) as [[m' a']|] eqn:Hc; [|discriminate].
      injection Hs as <- <- <-.
      apply call_pattern_spec in Hc as (-> & Hi & Hnl).
      change (EmptyString +:+ ?x) with x. auto.
  - intros (-> & Hi & Hnl & Hlast).
    assert (Hc : Text.call_pattern
                   (method_name +:+
                    String "(" (arg_str +:+ String ")" EmptyString))
                 = Some (method_name, arg_str))
      by (apply call_pattern_spec; auto).
    induction obj_expr as [|c o IH].
    + change (Text.method_pattern
                (String "." (method_name +:+
                   String "(" (arg_str +:+ String ")" EmptyString)))
              = Some (EmptyString, method_name, arg_str)).
      cbn [Text.method_pattern]. rewrite Hlast, Hc. reflexivity.
    + rewrite append_cons. cbn [Text.method_pattern]. rewrite IH.
      reflexivity.
Qed.

Lemma has_newline_append (a b : string) :
  Text.has_newline (a +:+ b) = Text.has_newline a || Text.has_newline b.
Proof.
  induction a as [|c a IH]; [reflexivity|].
  rewrite append_cons. cbn [Text.has_newline]. rewrite IH.
  apply orb_assoc.
Qed.

(** X10.  The pattern of a call statement matches exactly the texts [name(args)],
    up to one final newline, where [name] is an identifier and [args] holds
    no newline; its groups are [name] and [args]. *)
Theorem match_call_exact (s name arg_str : string) :
  Text.match_call s = Some (name, arg_str) <->
  (Text.chomp s = name +:+ String "(" (arg_str +:+ String ")" EmptyString) /\
   is_identifier name = true /\ Text.has_newline arg_str = false).
Proof. unfold Text.match_call. apply call_pattern_spec. Qed.

(** X11.  The pattern of a method call splits a text of one line at its last dot
    that a call follows: it matches exactly the texts [obj.name(args)], up
    to one final newline, where [name] is an identifier and no dot inside
    [name(args)] is followed by a call; its groups are [obj], [name] and
    [args]. *)
Theorem match_method_exact (s obj_expr method_name arg_str : string) :
  Text.match_method s = Some (obj_expr, method_name, arg_str) <->
  (Text.has_newline (Text.chomp s) = false /\
   Text.chomp s
   = obj_expr +:+
     String "." (method_name +:+
                 String "(" (arg_str +:+ String ")" EmptyString)) /\
   is_identifier method_name = true /\
   Text.method_pattern
     (method_name +:+ String "(" (arg_str +:+ String ")" EmptyString)) = None).
Proof.
  unfold Text.match_method. cbv zeta. split.
  - destruct (Text.has_newline (Text.chomp s)); [discriminate|].
    intros Hm. apply method_pattern_spec in Hm as (Hs & Hi & Hnl & Hlast).
    auto.
  - intros (Hn & Hs & Hi & Hlast). rewrite Hn. apply method_pattern_spec.
    split; [exact Hs|]. split; [exact Hi|]. split; [|exact Hlast].
    rewrite Hs in Hn. rewrite has_newline_append in Hn.
    apply orb_false_iff in Hn as [_ Hn]. cbn [Text.has_newline] in Hn.
    apply orb_false_iff in Hn as [_ Hn]. rewrite has_newline_append in Hn.
    apply orb_false_iff in Hn as [_ Hn]. cbn [Text.has_newline] in Hn.
    apply orb_false_iff in Hn as [_ Hn]. rewrite has_newline_append in Hn.
    apply orb_false_iff in Hn as [Hn _]. exact Hn.
Qed.

End PatternFacts.

(** ** The scans of blocks *)

Section ScanFacts.

Lemma scans_agree_aux (rest : list string) (i nest_level : nat)
    (else_pos : option nat) :
  (scan_if rest i nest_level else_pos).2 = scan_loop rest i nest_level.
Proof.
  revert i nest_level else_pos.
  induction rest as [|l rest IH]; intros i n e; [reflexivity|].
  cbn [scan_if scan_loop].
  destruct (is_opener _); [apply IH|].
  destruct (is_closer _); [destruct n; [reflexivity|apply IH]|].
  destruct (_ && _); apply IH.
Qed.

(** X12.  The scan of an if block and the scan of a loop block stop at the same
    closer. *)
Theorem scans_agree (rest : list string) (i nest_level : nat)
    (else_pos : option nat) :
  (scan_if rest i nest_level else_pos).2 = scan_loop rest i nest_level.
Proof. apply scans_agree_aux. Qed.

Lemma scan_loop_bounds (rest : list string) (i nest_level j : nat) :
  scan_loop rest i nest_level = Some j ->
  i <= j < i + length rest /\
  exists l, rest !! (j - i) = Some l /\ is_closer (clean_line l) = true.
Proof.
  revert i nest_level.
  induction rest as [|l rest IH]; intros i n Hs; [discriminate|].
  cbn [scan_loop] in Hs. cbn [length].
  assert (Hrec : forall n', scan_loop rest (S i) n' = Some j ->
            i <= j < i + S (length rest) /\
            exists l0, (l :: rest) !! (j - i) = Some l0 /\
                       is_closer (clean_line l0) = true).
  { intros n' Hn'. destruct (IH _ _ Hn') as [Hb (l0 & Hl0 & Hc)].
    split; [lia|]. exists l0. split; [|exact Hc].
    replace (j - i) with (S (j - S i)) by lia. exact Hl0. }
  destruct (is_opener _); [eapply Hrec; eassumption|].
  destruct (is_closer _) eqn:Hc.
  - destruct n as [|n]; [|eapply Hrec; eassumption].
    injection Hs as <-. split; [lia|]. exists l.
    rewrite Nat.sub_diag. split; [reflexivity|exact Hc].
  - eapply Hrec; eassumption.
Qed.

(** X13.  The end of a block that the scan finds lies behind the opener, inside
    the script, on a line that is one of the four closers. *)
Theorem scan_loop_finds_closer (lines : list string) (pc j : nat) :
  scan_loop (drop (pc + 1) lines) (pc + 1) 0 = Some j ->
  pc < j < length lines /\
  exists l, lines !! j = Some l /\ is_closer (clean_line l) = true.
Proof.
  intros Hs. destruct (scan_loop_bounds _ _ _ _ Hs) as [Hb (l & Hl & Hc)].
  rewrite length_drop in Hb. rewrite lookup_drop in Hl.
  assert (Hlt : pc + 1 + (j - (pc + 1)) < length lines)
    by (apply lookup_lt_is_Some; eauto).
  split; [lia|]. exists l. split; [|exact Hc].
  replace (pc + 1 + (j - (pc + 1))) with j in Hl by lia. exact Hl.
Qed.

Lemma scan_loop_skips_flat (body tail : list string) (i nest_level : nat) :
  forallb block_free body = true ->
  scan_loop (body ++ tail) i nest_level
  = scan_loop tail (i + length body) nest_level.
Proof.
  revert i. induction body as [|l body IH]; intros i Hb.
  - cbn. rewrite Nat.add_0_r. reflexivity.
  - cbn [forallb] in Hb. apply andb_true_iff in Hb as [Hl Hb].
    unfold block_free, clean_line in Hl. apply andb_true_iff in Hl as [Ho Hc].
    apply negb_true_iff in Ho, Hc.
    cbn [app scan_loop length]. rewrite Ho, Hc, (IH _ Hb).
    f_equal. lia.
Qed.

Lemma scan_if_skips_flat (body tail : list string) (i nest_level : nat)
    (else_pos : option nat) :
  forallb block_free body = true ->
  forallb not_else body = true ->
  scan_if (body ++ tail) i nest_level else_pos
  = scan_if tail (i + length body) nest_level else_pos.
Proof.
  revert i. induction body as [|l body IH]; intros i Hb He.
  - cbn. rewrite Nat.add_0_r. reflexivity.
  - cbn [forallb] in Hb, He.
    apply andb_true_iff in Hb as [Hl Hb]. apply andb_true_iff in He as [Hn He].
    unfold block_free, clean_line in Hl. apply andb_true_iff in Hl as [Ho Hc].
    unfold not_else, clean_line in Hn.
    apply negb_true_iff in Ho, Hc, Hn.
    cbn [app scan_if length]. rewrite Ho, Hc, Hn. cbn [andb].
    rewrite (IH _ Hb He). f_equal. lia.
Qed.

Lemma closer_not_opener (c : string) :
  is_closer c = true -> is_opener c = false.
Proof.
  unfold is_closer. intros Hc.
  repeat (apply orb_true_iff in Hc as [Hc|Hc]);
    apply String.eqb_eq in Hc; subst c; reflexivity.
Qed.


Lemma scan_if_closer (l : string) (tail : list string) (i : nat)
    (else_pos : option nat) :
  is_closer (clean_line l) = true ->
  scan_if (l :: tail) i 0 else_pos = (else_pos, Some i).
Proof.
  intros Hc. cbn [scan_if]. unfold clean_line in Hc.
  rewrite (closer_not_opener _ Hc), Hc. reflexivity.
Qed.

Lemma scan_if_else (l : string) (tail : list string) (i : nat)
    (else_pos : option nat) :
  clean_line l = "else" ->
  scan_if (l :: tail) i 0 else_pos = scan_if tail (S i) 0 (Some i).
Proof.
  intros He. cbn [scan_if]. unfold clean_line in He. rewrite He.
  reflexivity.
Qed.

Lemma drop_past_opener (pre : list string) (l : string) (tail : list string) :
  drop (length pre + 1) (pre ++ l :: tail) = tail.
Proof.
  rewrite Nat.add_1_r. change (l :: tail) with ([l] ++ tail).
  rewrite app_assoc.
  replace (S (length pre)) with (length (pre ++ [l]))
    by (rewrite length_app; cbn; lia).
  apply drop_app_length.
Qed.

Lemma slice_body (pre : list string) (l : string) (body tail : list string) :
  slice (length pre + 1) (length pre + 1 + length body)
        (pre ++ l :: body ++ tail) = body.
Proof.
  unfold slice. rewrite drop_past_opener.
  replace (length pre + 1 + length body - (length pre + 1))
    with (length body) by lia.
  apply take_app_length.
Qed.

End ScanFacts.

Section BlockFacts.
Context `{Host}.



Lemma bind_OutOfFuel {A B : Type} (m : M A) (k : A -> M B) (st : interp) :
  m st = OutOfFuel -> bind m k st = OutOfFuel.
Proof. unfold bind. intros ->. reflexivity. Qed.

(** What an if statement does once its block is resolved. *)
Lemma exec_if_resolved (fuel : nat) (lines : list string) (pc : nat)
    (raw_line line : string) (variables : gmap string value)
    (st st0 st1 : interp) (result : value) (else_pos : option nat)
    (endif_pos : nat) :
  lines !! pc = Some raw_line ->
  dispatch (FUNCTIONS st) (clean_line raw_line) = BIf ->
  substitute_vars fuel (clean_line raw_line) variables st = Ok line st0 ->
  safe_eval (Text.skip 3 line) variables st0 = Ok result st1 ->
  scan_if (drop (pc + 1) lines) (pc + 1) 0 None = (else_pos, Some endif_pos) ->
  execute_at (S fuel) lines pc variables st =
  match (if truthy st1 result
         then Some (slice (pc + 1) (default endif_pos else_pos) lines)
         else (fun e => slice (e + 1) endif_pos lines) <$> else_pos) with
  | Some block =>
      match execute fuel block variables st1 with
      | Ok r st2 => execute_at fuel lines (S endif_pos) r.2 st2
      | Raise e st2 => Raise e st2
      | OutOfFuel => OutOfFuel
      end
  | None => execute_at fuel lines (S endif_pos) variables st1
  end.
Proof.
  intros Hline Hd Hsub Hcond Hscan. unfold clean_line in *.
  rewrite (execute_at_line _ _ _ _ _ _ Hline)
    by (eapply dispatch_not_blank; [exact Hd|discriminate]).
  unfold bind at 1. rewrite (exec_line_if _ _ _ _ _ _ _ Hd). unfold exec_if.
  rewrite (bind_Ok _ _ _ _ _ Hsub), (bind_Ok _ _ _ _ _ Hcond), Hscan.
  unfold bind at 1. unfold get at 1. cbn beta iota.
  destruct (truthy st1 result); [|destruct else_pos as [e|]]; cbn [fmap option_fmap option_map];
    try reflexivity;
    unfold bind;
    match goal with |- context [execute fuel ?b variables st1] =>
      destruct (execute fuel b variables st1) as [[rv vs] st2|ex st2|]
    end; reflexivity.
Qed.

(** X15.  An if statement with an else over two branches without block keywords,
    closed by any closer: a true condition runs the lines before the else,
    a false one the lines behind it, in the environment of the caller; the
    value that the branch returns is dropped, the environment that it leaves
    is the one the script goes on with behind the closer, and an exception
    that it raises ends the script. *)
Theorem if_else_over_flat_branches (fuel : nat)
    (pre then_body else_body rest : list string)
    (raw_line else_line closer line : string)
    (variables : gmap string value) (st st0 st1 : interp) (result : value) :
  dispatch (FUNCTIONS st) (clean_line raw_line) = BIf ->
  substitute_vars fuel (clean_line raw_line) variables st = Ok line st0 ->
  safe_eval (Text.skip 3 line) variables st0 = Ok result st1 ->
  forallb block_free then_body = true ->
  forallb not_else then_body = true ->
  clean_line else_line = "else" ->
  forallb block_free else_body = true ->
  forallb not_else else_body = true ->
  is_closer (clean_line closer) = true ->
  let lines :=
    pre ++ raw_line :: then_body ++ else_line :: else_body ++ closer :: rest in
  let after := length pre + length then_body + length else_body + 3 in
  execute_at (S fuel) lines (length pre) variables st =
  match execute fuel (if truthy st1 result then then_body else else_body)
                variables st1 with
  | Ok r st2 => execute_at fuel lines after r.2 st2
  | Raise e st2 => Raise e st2
  | OutOfFuel => OutOfFuel
  end.
Proof.
  intros Hd Hsub Hcond Hthen Hthen' Helse Hbody Hbody' Hclose lines after.
  assert (Hline : lines !! length pre = Some raw_line)
    by (unfold lines; rewrite lookup_app_r by lia;
        rewrite Nat.sub_diag; reflexivity).
  assert (Hscan : scan_if (drop (length pre + 1) lines) (length pre + 1) 0 None
                  = (Some (length pre + 1 + length then_body),
                     Some (length pre + 1 + length then_body + 1
                           + length else_body))).
  { unfold lines. rewrite drop_past_opener.
    rewrite (scan_if_skips_flat then_body _ _ _ _ Hthen Hthen').
    rewrite (scan_if_else _ _ _ _ Helse).
    replace (S (length pre + 1 + length then_body))
      with (length pre + 1 + length then_body + 1) by lia.
    rewrite (scan_if_skips_flat else_body _ _ _ _ Hbody Hbody').
    apply scan_if_closer. exact Hclose. }
  rewrite (exec_if_resolved fuel lines (length pre) raw_line line variables
             st st0 st1 result _ _ Hline Hd Hsub Hcond Hscan).
  replace (S (length pre + 1 + length then_body + 1 + length else_body))
    with after by (unfold after; lia).
  destruct (truthy st1 result);
    unfold default; cbn [from_option fmap option_fmap option_map id].
  - unfold lines. rewrite slice_body. reflexivity.
  - replace (slice _ _ lines) with else_body; [reflexivity|].
    unfold lines.
    change (pre ++ raw_line :: then_body ++ else_line :: else_body ++ closer :: rest)
      with (pre ++ (raw_line :: then_body) ++ else_line :: else_body ++ closer :: rest).
    rewrite app_assoc.
    pose proof (slice_body (pre ++ raw_line :: then_body) else_line else_body
                           (closer :: rest)) as Hs.
    rewrite length_app in Hs. cbn [length] in Hs.
    replace (length pre + S (length then_body) + 1)
      with (length pre + 1 + length then_body + 1) in Hs by lia.
    rewrite Hs. reflexivity.
Qed.

End BlockFacts.

(** ** The preprocessor *)

Section PreprocessorFacts.

Lemma script_step_top_level (main : list string) (cname : option string)
    (nest : Z) (cls : option string) (line : string) (st : interp) :
  top_level_line line = true ->
  script_step (MkScriptScan main None cname [] nest cls) line st
  = Ok (MkScriptScan (main ++ [line]) None cname [] nest cls) st.
Proof.
  unfold top_level_line, clean_line. intros Hl.
  repeat match goal with Hn : _ && _ = true |- _ =>
    apply andb_true_iff in Hn as [? ?] end.
  repeat match goal with Hn : negb _ = true |- _ =>
    apply negb_true_iff in Hn end.
  unfold script_step. cbn beta iota.
  repeat match goal with Hn : _ = false |- _ => rewrite Hn; clear Hn end.
  reflexivity.
Qed.

Lemma script_loop_top_level (main : list string) (cname : option string)
    (nest : Z) (cls : option string) (lines : list string) (st : interp)
    (rest : list string) :
  forallb top_level_line lines = true ->
  script_loop (MkScriptScan main None cname [] nest cls) (lines ++ rest) st
  = script_loop (MkScriptScan (main ++ lines) None cname [] nest cls) rest st.
Proof.
  revert main. induction lines as [|l lines IH]; intros main Hl.
  - rewrite app_nil_r. reflexivity.
  - cbn [forallb] in Hl. apply andb_true_iff in Hl as [Hl Hls].
    cbn [app script_loop].
    rewrite (bind_Ok _ _ _ _ _ (script_step_top_level main cname nest cls l st Hl)).
    rewrite (IH _ Hls). rewrite <- app_assoc. reflexivity.
Qed.

(** X18.  A script without definitions: every line is main code, in its order,
    and the state is untouched. *)
Theorem preprocess_script_without_definitions (lines : list string)
    (st : interp) :
  forallb top_level_line lines = true ->
  preprocess_script lines st = Ok lines st.
Proof.
  intros Hl. unfold preprocess_script.
  pose proof (script_loop_top_level [] None 0%Z None lines st [] Hl) as Hs.
  rewrite app_nil_r in Hs. unfold bind. rewrite Hs. reflexivity.
Qed.

Lemma script_step_body (main : list string) (kind : construct)
    (cname : option string) (cbody : list string) (cls : option string)
    (line : string) (st : interp) :
  body_line line = true ->
  script_step (MkScriptScan main (Some kind) cname cbody 0%Z cls) line st
  = Ok (MkScriptScan main (Some kind) cname (cbody ++ [line]) 0%Z cls) st.
Proof.
  unfold body_line, top_level_line, block_free, clean_line. intros Hl.
  repeat match goal with Hn : _ && _ = true |- _ =>
    apply andb_true_iff in Hn as [? ?] end.
  repeat match goal with Hn : negb _ = true |- _ =>
    apply negb_true_iff in Hn end.
  unfold script_step. cbn beta iota.
  repeat match goal with Hn : _ = false |- _ => rewrite Hn; clear Hn end.
  reflexivity.
Qed.

Lemma script_loop_body (main : list string) (kind : construct)
    (cname : option string) (cbody : list string) (cls : option string)
    (body rest : list string) (st : interp) :
  forallb body_line body = true ->
  script_loop (MkScriptScan main (Some kind) cname cbody 0%Z cls)
              (body ++ rest) st
  = script_loop (MkScriptScan main (Some kind) cname (cbody ++ body) 0%Z cls)
                rest st.
Proof.
  revert cbody. induction body as [|l body IH]; intros cbody Hb.
  - rewrite app_nil_r. reflexivity.
  - cbn [forallb] in Hb. apply andb_true_iff in Hb as [Hl Hb].
    cbn [app script_loop].
    rewrite (bind_Ok _ _ _ _ _
               (script_step_body main kind cname cbody cls l st Hl)).
    rewrite (IH _ Hb). rewrite <- app_assoc. reflexivity.
Qed.

Lemma func_line_not_class (c : string) :
  Text.startswith "func " c = true -> Text.startswith "class " c = false.
Proof.
  unfold Text.startswith. destruct c as [|b c]; [discriminate|].
  cbn [String.prefix]. destruct (ascii_dec "f" b) as [<-|]; [|discriminate].
  reflexivity.
Qed.


Lemma script_step_header (main : list string) (cname : option string)
    (nest : Z) (cls : option string) (header : string) (st : interp) :
  Text.startswith "func " (clean_line header) = true ->
  script_step (MkScriptScan main None cname [] nest cls) header st =
  match Text.match_func (clean_line header) with
  | Some (name, arg_str) =>
      Ok (MkScriptScan main (Some InFunc) (Some name) [] 0%Z cls)
         (set_FUNCTIONS
            (<[name := FuncInfo (split_args arg_str) []]> (FUNCTIONS st)) st)
  | None => Ok (MkScriptScan main (Some InFunc) cname [] 0%Z cls) st
  end.
Proof.
  unfold clean_line. intros Hf. unfold script_step. cbn beta iota.
  rewrite (func_line_not_class _ Hf), Hf.
  destruct (Text.match_func _) as [[name arg_str]|]; reflexivity.
Qed.

Lemma script_step_endfunc (main : list string) (cname : option string)
    (cbody : list string) (cls : option string) (closing : string)
    (st : interp) :
  clean_line closing = "endfunc" ->
  script_step (MkScriptScan main (Some InFunc) cname cbody 0%Z cls) closing st
  = match cname with
    | Some name =>
        match FUNCTIONS st !! name with
        | Some info =>
            Ok (MkScriptScan main None cname [] 0%Z cls)
               (set_FUNCTIONS
                  (<[name := FuncInfo (args info) cbody]> (FUNCTIONS st)) st)
        | None => Raise (Exn KeyError ("'" +:+ name +:+ "'")) st
        end
    | None => Raise (Exn KeyError "None") st
    end.
Proof.
  unfold clean_line. intros Hc. unfold script_step. cbn beta iota.
  rewrite Hc.
  change (Text.startswith "class " "endfunc") with false.
  change (Text.startswith "func " "endfunc") with false.
  change (Text.startswith "endclass" "endfunc") with false.
  change (String.eqb "endfunc" "endfunc") with true.
  cbn beta iota. change (0 =? 0)%Z with true. cbn beta iota.
  unfold bind at 1. unfold bind at 1. unfold get at 1.
  destruct cname as [name|]; [|reflexivity].
  destruct (FUNCTIONS st !! name); reflexivity.
Qed.

(** X19.  A definition [func name(args)] with a body without blocks, closed by
    endfunc, between lines of main code: the registry gets the blueprint
    with the parameters of the header and the raw lines of the body, and the
    lines of the definition are no main code. *)
Theorem preprocess_script_registers_function (pre body rest : list string)
    (header closing name arg_str : string) (st : interp) :
  forallb top_level_line pre = true ->
  Text.startswith "func " (clean_line header) = true ->
  Text.match_func (clean_line header) = Some (name, arg_str) ->
  forallb body_line body = true ->
  clean_line closing = "endfunc" ->
  forallb top_level_line rest = true ->
  preprocess_script (pre ++ header :: body ++ closing :: rest) st
  = Ok (pre ++ rest)
       (set_FUNCTIONS
          (<[name := FuncInfo (split_args arg_str) body]> (FUNCTIONS st)) st).
Proof.
  intros Hpre Hf Hm Hbody Hc Hrest. unfold preprocess_script.
  unfold bind. rewrite (script_loop_top_level _ _ _ _ pre st _ Hpre).
  cbn [script_loop app].
  pose proof (script_step_header ([] ++ pre) None 0%Z None header st Hf)
    as Hh.
  rewrite Hm in Hh. rewrite (bind_Ok _ _ _ _ _ Hh).
  rewrite (script_loop_body _ _ _ _ _ body _ _ Hbody).
  cbn [script_loop app].
  match goal with |- context [bind (script_step ?s closing) _ ?st'] =>
    pose proof (script_step_endfunc ([] ++ pre) (Some name) ([] ++ body) None
                  closing st' Hc) as He
  end.
  cbn [FUNCTIONS set_FUNCTIONS] in He. rewrite lookup_insert_eq in He.
  rewrite (bind_Ok _ _ _ _ _ He).
  pose proof (script_loop_top_level ([] ++ pre) (Some name) 0%Z None rest
                (set_FUNCTIONS
                   (<[name := FuncInfo (split_args arg_str) ([] ++ body)]>
                      (<[name := FuncInfo (split_args arg_str) []]>
                         (FUNCTIONS st)))
                   (set_FUNCTIONS
                      (<[name := FuncInfo (split_args arg_str) []]>
                         (FUNCTIONS st)) st))
                [] Hrest) as Hs.
  rewrite app_nil_r in Hs. cbn in Hs |- *. rewrite Hs. cbn.
  rewrite insert_insert_eq. destruct st; reflexivity.
Qed.

(** X20.  A func line without a parameter list that is the first definition of
    the script: its endfunc finds no blueprint to complete, and the
    preprocessor ends with a KeyError. *)
Theorem preprocess_script_header_without_parameters
    (pre body rest : list string) (header closing : string) (st : interp) :
  forallb top_level_line pre = true ->
  Text.startswith "func " (clean_line header) = true ->
  Text.match_func (clean_line header) = None ->
  forallb body_line body = true ->
  clean_line closing = "endfunc" ->
  preprocess_script (pre ++ header :: body ++ closing :: rest) st
  = Raise (Exn KeyError "None") st.
Proof.
  intros Hpre Hf Hm Hbody Hc. unfold preprocess_script.
  unfold bind. rewrite (script_loop_top_level _ _ _ _ pre st _ Hpre).
  cbn [script_loop app].
  pose proof (script_step_header ([] ++ pre) None 0%Z None header st Hf)
    as Hh.
  rewrite Hm in Hh. rewrite (bind_Ok _ _ _ _ _ Hh).
  rewrite (script_loop_body _ _ _ _ _ body _ _ Hbody).
  cbn [script_loop app].
  rewrite (bind_Raise _ _ _ _ _
             (script_step_endfunc ([] ++ pre) None ([] ++ body) None
                                  closing st Hc)).
  reflexivity.
Qed.

End PreprocessorFacts.

(** ** Classes *)

Section ClassFacts.

Ltac split_bools :=
  repeat match goal with Hn : _ && _ = true |- _ =>
    apply andb_true_iff in Hn as [? ?] end;
  repeat match goal with Hn : negb _ = true |- _ =>
    apply negb_true_iff in Hn end;
  repeat match goal with Hn : _ || _ = false |- _ =>
    apply orb_false_iff in Hn as [? ?] end.

Lemma script_step_nested (main : list string) (kind : construct)
    (cname : option string) (cbody : list string) (nest : Z)
    (cls : option string) (line : string) (st : interp) :
  body_line line = true ->
  script_step (MkScriptScan main (Some kind) cname cbody nest cls) line st
  = Ok (MkScriptScan main (Some kind) cname (cbody ++ [line]) nest cls) st.
Proof.
  unfold body_line, top_level_line, block_free, clean_line. intros Hl.
  split_bools.
  unfold script_step. cbn beta iota.
  repeat match goal with Hn : _ = false |- _ => rewrite Hn; clear Hn end.
  reflexivity.
Qed.

Lemma script_loop_nested (main : list string) (kind : construct)
    (cname : option string) (cbody : list string) (nest : Z)
    (cls : option string) (body rest : list string) (st : interp) :
  forallb body_line body = true ->
  script_loop (MkScriptScan main (Some kind) cname cbody nest cls)
              (body ++ rest) st
  = script_loop (MkScriptScan main (Some kind) cname (cbody ++ body) nest cls)
                rest st.
Proof.
  revert cbody. induction body as [|l body IH]; intros cbody Hb.
  - rewrite app_nil_r. reflexivity.
  - cbn [forallb] in Hb. apply andb_true_iff in Hb as [Hl Hb].
    cbn [app script_loop].
    rewrite (bind_Ok _ _ _ _ _
               (script_step_nested main kind cname cbody nest cls l st Hl)).
    rewrite (IH _ Hb). rewrite <- app_assoc. reflexivity.
Qed.

Lemma script_loop_method (main : list string) (cname : option string)
    (cbody : list string) (cls : option string) (d : method_def)
    (rest : list string) (st : interp) :
  flat_method d = true ->
  script_loop (MkScriptScan main (Some InClass) cname cbody 0%Z cls)
              (method_lines d ++ rest) st
  = script_loop
      (MkScriptScan main (Some InClass) cname (cbody ++ method_lines d) 0%Z
                    cls) rest st.
Proof.
  unfold flat_method, method_lines. intros Hd. split_bools.
  match goal with Hn : String.eqb _ _ = true |- _ =>
    apply String.eqb_eq in Hn; rename Hn into Hclose end.
  match goal with Hn : Text.startswith "func " _ = true |- _ =>
    rename Hn into Hf end.
  match goal with Hn : forallb body_line (md_gap d) = true |- _ =>
    rename Hn into Hgap end.
  match goal with Hn : forallb body_line (md_body d) = true |- _ =>
    rename Hn into Hbody end.
  repeat rewrite <- app_assoc. cbn [app].
  rewrite (script_loop_nested _ _ _ _ _ _ (md_gap d) _ _ Hgap).
  cbn [script_loop].
  unfold bind at 1. unfold script_step at 1. fold (clean_line (md_header d)).
  cbn beta iota. rewrite (func_line_not_class _ Hf), Hf. unfold ret at 1.
  cbn beta iota.
  rewrite <- (app_assoc (md_body d)).
  rewrite (script_loop_nested _ _ _ _ _ _ (md_body d) _ _ Hbody).
  cbn [script_loop app].
  unfold bind at 1. unfold script_step at 1. fold (clean_line (md_closing d)).
  cbn beta iota. rewrite Hclose.
  change (Text.startswith "class " "endfunc") with false.
  change (Text.startswith "func " "endfunc") with false.
  change (Text.startswith "endclass" "endfunc") with false.
  change (String.eqb "endfunc" "endfunc") with true.
  cbn beta iota. change (0 + 1 =? 0)%Z with false. cbn beta iota.
  unfold ret at 1. cbn beta iota. change (0 + 1 - 1)%Z with 0%Z.
  repeat rewrite <- app_assoc. reflexivity.
Qed.

Lemma script_loop_methods (main : list string) (cname : option string)
    (cbody : list string) (cls : option string) (defs : list method_def)
    (rest : list string) (st : interp) :
  forallb flat_method defs = true ->
  script_loop (MkScriptScan main (Some InClass) cname cbody 0%Z cls)
              (concat (map method_lines defs) ++ rest) st
  = script_loop
      (MkScriptScan main (Some InClass) cname
                    (cbody ++ concat (map method_lines defs)) 0%Z cls)
      rest st.
Proof.
  revert cbody. induction defs as [|d defs IH]; intros cbody Hd.
  - cbn. rewrite app_nil_r. reflexivity.
  - cbn [forallb] in Hd. apply andb_true_iff in Hd as [Hd Hds].
    cbn [map concat]. rewrite <- app_assoc.
    rewrite (script_loop_method _ _ _ _ _ _ _ Hd), (IH _ Hds).
    rewrite <- app_assoc. reflexivity.
Qed.

Lemma class_body_gap (ms : gmap string func_info) (name : option string)
    (margs : list string) (nest : Z) (gap : list string) :
  forallb body_line gap = true ->
  fold_left class_body_step gap (MkClassScan ms false name margs [] nest)
  = MkClassScan ms false name margs [] nest.
Proof.
  induction gap as [|l gap IH]; intros Hg; [reflexivity|].
  cbn [forallb] in Hg. apply andb_true_iff in Hg as [Hl Hg].
  cbn [fold_left]. rewrite <- (IH Hg) at 2. f_equal.
  unfold body_line, top_level_line, block_free, clean_line in Hl.
  split_bools. unfold class_body_step. cbn beta iota.
  repeat match goal with Hn : _ = false |- _ => rewrite Hn; clear Hn end.
  reflexivity.
Qed.

Lemma class_body_lines (ms : gmap string func_info) (name : option string)
    (margs mbody body : list string) :
  forallb body_line body = true ->
  fold_left class_body_step body (MkClassScan ms true name margs mbody 0%Z)
  = MkClassScan ms true name margs (mbody ++ body) 0%Z.
Proof.
  revert mbody. induction body as [|l body IH]; intros mbody Hb.
  - rewrite app_nil_r. reflexivity.
  - cbn [forallb] in Hb. apply andb_true_iff in Hb as [Hl Hb].
    cbn [fold_left].
    replace (class_body_step (MkClassScan ms true name margs mbody 0%Z) l)
      with (MkClassScan ms true name margs (mbody ++ [l]) 0%Z).
    + rewrite (IH _ Hb), <- app_assoc. reflexivity.
    + unfold body_line, top_level_line, block_free, clean_line in Hl.
      unfold is_opener, is_closer in Hl.
      split_bools. unfold class_body_step. cbn beta iota.
      repeat match goal with Hn : _ = false |- _ => rewrite Hn; clear Hn end.
      reflexivity.
Qed.

Lemma class_body_header (ms : gmap string func_info) (name : option string)
    (margs : list string) (header n a : string) :
  Text.startswith "func " (clean_line header) = true ->
  Text.match_func (clean_line header) = Some (n, a) ->
  class_body_step (MkClassScan ms false name margs [] 0%Z) header
  = MkClassScan ms true (Some n) (split_args a) [] 0%Z.
Proof.
  unfold clean_line. intros Hf Hm. unfold class_body_step. cbn beta iota.
  rewrite Hf, Hm. reflexivity.
Qed.

Lemma class_body_endfunc (ms : gmap string func_info) (n : string)
    (margs mbody : list string) (closing : string) :
  clean_line closing = "endfunc" ->
  class_body_step (MkClassScan ms true (Some n) margs mbody 0%Z) closing
  = MkClassScan (<[n := FuncInfo margs mbody]> ms) false (Some n) margs []
                0%Z.
Proof.
  unfold clean_line. intros Hc. unfold class_body_step. cbn beta iota.
  rewrite Hc. reflexivity.
Qed.

Lemma class_body_method (ms : gmap string func_info) (name : option string)
    (margs : list string) (d : method_def) :
  flat_method d = true ->
  exists name' margs',
    fold_left class_body_step (method_lines d)
              (MkClassScan ms false name margs [] 0%Z)
    = MkClassScan (add_method ms d) false name' margs' [] 0%Z.
Proof.
  unfold flat_method, method_lines, add_method. intros Hd. split_bools.
  match goal with Hn : String.eqb _ _ = true |- _ =>
    apply String.eqb_eq in Hn; rename Hn into Hclose end.
  match goal with Hn : Text.startswith "func " _ = true |- _ =>
    rename Hn into Hf end.
  match goal with Hn : bool_decide _ = true |- _ =>
    apply bool_decide_eq_true in Hn as [[n a] Hm] end.
  match goal with Hn : forallb body_line (md_gap d) = true |- _ =>
    rename Hn into Hgap end.
  match goal with Hn : forallb body_line (md_body d) = true |- _ =>
    rename Hn into Hbody end.
  rewrite Hm. exists (Some n), (split_args a).
  rewrite fold_left_app, (class_body_gap _ _ _ _ _ Hgap).
  cbn [fold_left]. rewrite (class_body_header _ _ _ _ _ _ Hf Hm).
  rewrite fold_left_app, (class_body_lines _ _ _ _ _ Hbody).
  cbn [fold_left]. rewrite (class_body_endfunc _ _ _ _ _ Hclose).
  reflexivity.
Qed.

Lemma class_body_methods (defs : list method_def)
    (ms : gmap string func_info) (name : option string)
    (margs : list string) :
  forallb flat_method defs = true ->
  exists name' margs',
    fold_left class_body_step (concat (map method_lines defs))
              (MkClassScan ms false name margs [] 0%Z)
    = MkClassScan (fold_left add_method defs ms) false name' margs' [] 0%Z.
Proof.
  revert ms name margs. induction defs as [|d defs IH]; intros ms name margs Hd.
  - exists name, margs. reflexivity.
  - cbn [forallb] in Hd. apply andb_true_iff in Hd as [Hd Hds].
    cbn [map concat fold_left]. rewrite fold_left_app.
    destruct (class_body_method ms name margs d Hd) as (n1 & a1 & ->).
    apply IH. exact Hds.
Qed.

(** X21.  A class whose body is a sequence of methods without blocks: the
    registry of classes gets, under the second word of the class line, the
    blueprints of the methods in their order (a later method of the same
    name replaces an earlier one); no line of the class is main code and
    the registry of functions is untouched. *)
Theorem preprocess_script_registers_class (pre tail rest : list string)
    (header closing c : string) (defs : list method_def) (st : interp) :
  forallb top_level_line pre = true ->
  Text.startswith "class " (clean_line header) = true ->
  Text.split_ws (clean_line header) !! 1 = Some c ->
  forallb flat_method defs = true ->
  forallb body_line tail = true ->
  Text.startswith "endclass" (clean_line closing) = true ->
  forallb top_level_line rest = true ->
  preprocess_script
    (pre ++ header :: concat (map method_lines defs) ++ tail ++ closing :: rest)
    st
  = Ok (pre ++ rest)
       (set_CLASSES
          (<[c := ClassInfo (fold_left add_method defs ∅)]> (CLASSES st)) st).
Proof.
  intros Hpre Hc Hname Hdefs Htail Hclose Hrest. unfold preprocess_script.
  unfold bind at 1. rewrite (script_loop_top_level _ _ _ _ pre st _ Hpre).
  cbn [script_loop app]. unfold bind at 1. unfold script_step at 1.
  fold (clean_line header). cbn beta iota. rewrite Hc, Hname.
  unfold ret at 1. cbn beta iota.
  rewrite (script_loop_methods _ _ _ _ _ _ _ Hdefs).
  rewrite (script_loop_nested _ _ _ _ _ _ _ _ _ Htail).
  cbn [script_loop app]. unfold bind at 1. unfold script_step at 1.
  fold (clean_line closing). cbn beta iota.
  assert (Hnc : Text.startswith "class " (clean_line closing) = false).
  { revert Hclose. unfold Text.startswith. destruct (clean_line closing) as [|b s];
      [discriminate|]. cbn [String.prefix].
    destruct (ascii_dec "e" b) as [<-|]; [reflexivity|discriminate]. }
  assert (Hnf : Text.startswith "func " (clean_line closing) = false).
  { revert Hclose. unfold Text.startswith. destruct (clean_line closing) as [|b s];
      [discriminate|]. cbn [String.prefix].
    destruct (ascii_dec "e" b) as [<-|]; [reflexivity|discriminate]. }
  rewrite Hnc, Hnf, Hclose. change (0 =? 0)%Z with true. cbn beta iota.
  unfold bind at 1. unfold preprocess_class_body, modify. cbn beta iota.
  unfold ret at 1. rewrite fold_left_app.
  destruct (class_body_methods defs ∅ None [] Hdefs) as (n1 & a1 & ->).
  rewrite (class_body_gap _ _ _ _ _ Htail). cbn [cs_methods].
  match goal with |- context [script_loop ?s rest ?st'] =>
    pose proof (script_loop_top_level pre None 0%Z None rest st' []
                  Hrest) as Hs
  end.
  rewrite app_nil_r in Hs. rewrite Hs. reflexivity.
Qed.

End ClassFacts.

(** ** Statements that fail *)

Section EdgeFacts.
Context `{Host}.

Lemma scan_loop_flat_none (tail : list string) (i nest_level : nat) :
  forallb block_free tail = true -> scan_loop tail i nest_level = None.
Proof.
  intros Hf. rewrite <- (app_nil_r tail).
  rewrite (scan_loop_skips_flat tail [] i nest_level Hf). reflexivity.
Qed.

Lemma opener_not_closer (c : string) :
  is_opener c = true -> is_closer c = false.
Proof.
  intros Ho. destruct (is_closer c) eqn:Hc; [|reflexivity].
  rewrite (closer_not_opener c Hc) in Ho. discriminate.
Qed.

(** The scan finds no end at depth [nest_level] exactly when, up to every
    line, the closers are at most [nest_level] more than the openers. *)
Lemma scan_loop_None (rest : list string) (i nest_level : nat) :
  scan_loop rest i nest_level = None <->
  forall k, closers (take k rest) <= nest_level + openers (take k rest).
Proof.
  revert i nest_level. induction rest as [|l rest IH]; intros i n.
  - split; [|reflexivity]. intros _ k. rewrite take_nil. cbn. lia.
  - cbn [scan_loop]. fold (clean_line l).
    assert (Hcons : forall k,
              closers (take (S k) (l :: rest))
              = (if is_closer (clean_line l) then 1 else 0)
                + closers (take k rest) /\
              openers (take (S k) (l :: rest))
              = (if is_opener (clean_line l) then 1 else 0)
                + openers (take k rest)).
    { intros k. unfold closers, openers. cbn [take List.filter].
      destruct (is_closer (clean_line l)), (is_opener (clean_line l));
        split; reflexivity. }
    destruct (is_opener (clean_line l)) eqn:Ho.
    + rewrite (opener_not_closer _ Ho) in Hcons. rewrite IH. split.
      * intros Hk [|k]; [cbn; lia|].
        destruct (Hcons k) as [-> ->]. specialize (Hk k). lia.
      * intros Hk k. specialize (Hk (S k)).
        destruct (Hcons k) as [Hc Hop]. rewrite Hc, Hop in Hk. lia.
    + destruct (is_closer (clean_line l)) eqn:Hc.
      * destruct n as [|n].
        -- split; [discriminate|]. intros Hk. specialize (Hk 1).
           destruct (Hcons 0) as [Hc1 Ho1]. rewrite Hc1, Ho1 in Hk.
           unfold closers, openers in Hk. rewrite take_0 in Hk.
           cbn in Hk. lia.
        -- rewrite IH. split.
           ++ intros Hk [|k]; [cbn; lia|].
              destruct (Hcons k) as [-> ->]. specialize (Hk k). lia.
           ++ intros Hk k. specialize (Hk (S k)).
              destruct (Hcons k) as [Hc1 Ho1]. rewrite Hc1, Ho1 in Hk. lia.
      * rewrite IH. split.
        -- intros Hk [|k]; [cbn; lia|].
           destruct (Hcons k) as [-> ->]. specialize (Hk k). lia.
        -- intros Hk k. specialize (Hk (S k)).
           destruct (Hcons k) as [Hc1 Ho1]. rewrite Hc1, Ho1 in Hk. lia.
Qed.

Lemma scan_if_unclosed (tail : list string) (i : nat)
    (else_pos : option nat) :
  unclosed tail ->
  exists e, scan_if tail i 0 else_pos = (e, None).
Proof.
  intros Hu. pose proof (scans_agree_aux tail i 0 else_pos) as Ha.
  rewrite (proj2 (scan_loop_None tail i 0) Hu) in Ha.
  destruct (scan_if tail i 0 else_pos) as [e r]. cbn in Ha.
  subst r. eauto.
Qed.

(** X16.  An if or a loop whose block no line closes, because there is no
    closer behind it or because every closer behind it closes a block that
    was opened behind it: the diagnostic is printed and this call of
    [execute] ends at once, so none of the lines behind the opener runs. *)
Theorem unclosed_block_ends_the_script (fuel : nat)
    (pre rest : list string) (raw_line line : string)
    (variables : gmap string value) (st st0 : interp) :
  substitute_vars fuel (clean_line raw_line) variables st = Ok line st0 ->
  unclosed rest ->
  (dispatch (FUNCTIONS st) (clean_line raw_line) = BIf ->
   forall result st1,
     safe_eval (Text.skip 3 line) variables st0 = Ok result st1 ->
     execute_at (S fuel) (pre ++ raw_line :: rest) (length pre) variables st
     = Ok (VNone, variables)
          (printed ("Syntax Error: 'if' on line " +:+ line_no (length pre) +:+
                    " has no matching 'endif'.") st1)) /\
  (dispatch (FUNCTIONS st) (clean_line raw_line) = BLoop ->
   forall times,
     Text.split_ws line !! 1 ≫= Text.py_int = Some times ->
     execute_at (S fuel) (pre ++ raw_line :: rest) (length pre) variables st
     = Ok (VNone, variables)
          (printed ("Syntax Error: 'loop' on line " +:+ line_no (length pre) +:+
                    ": No matching 'endloop'.") st0)).
Proof.
  intros Hsub Hu.
  assert (Hline : (pre ++ raw_line :: rest) !! length pre = Some raw_line)
    by (rewrite lookup_app_r by lia; rewrite Nat.sub_diag; reflexivity).
  unfold clean_line in Hsub |- *. split.
  - intros Hd result st1 Hcond.
    rewrite (execute_at_line _ _ _ _ _ _ Hline)
      by (eapply dispatch_not_blank; [exact Hd|discriminate]).
    unfold bind at 1. rewrite (exec_line_if _ _ _ _ _ _ _ Hd). unfold exec_if.
    rewrite (bind_Ok _ _ _ _ _ Hsub), (bind_Ok _ _ _ _ _ Hcond).
    rewrite drop_past_opener.
    destruct (scan_if_unclosed rest (length pre + 1) None Hu) as [e ->].
    reflexivity.
  - intros Hd times Htimes.
    rewrite (execute_at_line _ _ _ _ _ _ Hline)
      by (eapply dispatch_not_blank; [exact Hd|discriminate]).
    unfold bind at 1. rewrite (exec_line_loop _ _ _ _ _ _ _ Hd).
    unfold exec_loop. rewrite (bind_Ok _ _ _ _ _ Hsub), Htimes.
    rewrite drop_past_opener.
    rewrite (proj2 (scan_loop_None rest (length pre + 1) 0) Hu).
    reflexivity.
Qed.

(** A loop whose count is no integer: the diagnostic is printed and the
    script goes on with the next line, so the lines of the body run once, as
    statements of the caller. *)
Lemma loop_with_invalid_count (fuel : nat) (lines : list string) (pc : nat)
    (raw_line line : string) (variables : gmap string value)
    (st st0 : interp) :
  lines !! pc = Some raw_line ->
  dispatch (FUNCTIONS st) (clean_line raw_line) = BLoop ->
  substitute_vars fuel (clean_line raw_line) variables st = Ok line st0 ->
  Text.split_ws line !! 1 ≫= Text.py_int = None ->
  execute_at (S fuel) lines pc variables st
  = execute_at fuel lines (S pc) variables
      (printed ("Syntax Error on line " +:+ line_no pc +:+
                ": Invalid loop syntax.") st0).
Proof.
  intros Hline Hd Hsub Htimes. unfold clean_line in *.
  rewrite (execute_at_line _ _ _ _ _ _ Hline)
    by (eapply dispatch_not_blank; [exact Hd|discriminate]).
  unfold bind at 1. rewrite (exec_line_loop _ _ _ _ _ _ _ Hd).
  unfold exec_loop. rewrite (bind_Ok _ _ _ _ _ Hsub), Htimes. reflexivity.
Qed.

Lemma run_loop_raises
    (exec : list string -> gmap string value -> M (value * gmap string value))
    (n j : nat) (code : list string) (variables : gmap string value)
    (trace : nat -> interp) (e : py_exn) (st' : interp) :
  j < n ->
  (forall k, k < j ->
     exists v variables_k,
       exec code variables (trace k) = Ok (v, variables_k) (trace (S k))) ->
  exec code variables (trace j) = Raise e st' ->
  run_loop exec n code variables (trace 0) = Raise e st'.
Proof.
  revert trace n. induction j as [|j IH]; intros trace n Hj Hturn Hraise.
  - destruct n as [|n]; [lia|]. cbn [run_loop].
    apply bind_Raise. exact Hraise.
  - destruct n as [|n]; [lia|]. cbn [run_loop].
    destruct (Hturn 0) as (v & vk & Hv); [lia|].
    rewrite (bind_Ok _ _ _ _ _ Hv).
    apply (IH (fun k => trace (S k))); [lia| |exact Hraise].
    intros k Hk. apply Hturn. lia.
Qed.

(** X17.  A turn of a loop that raises (a break in the body, the end of the
    input): the turns before it have run, no turn after it runs, and the
    exception ends the script. *)
Theorem loop_turn_raises (fuel : nat) (lines : list string)
    (pc : nat) (raw_line line : string) (variables : gmap string value)
    (st st0 st' : interp) (times : Z) (loop_body_end j : nat)
    (trace : nat -> interp) (e : py_exn) :
  lines !! pc = Some raw_line ->
  dispatch (FUNCTIONS st) (clean_line raw_line) = BLoop ->
  substitute_vars fuel (clean_line raw_line) variables st = Ok line st0 ->
  Text.split_ws line !! 1 ≫= Text.py_int = Some times ->
  scan_loop (drop (pc + 1) lines) (pc + 1) 0 = Some loop_body_end ->
  trace 0 = st0 ->
  j < Z.to_nat times ->
  (forall k, k < j ->
     exists v variables_k,
       execute fuel (slice (pc + 1) loop_body_end lines) variables (trace k)
       = Ok (v, variables_k) (trace (S k))) ->
  execute fuel (slice (pc + 1) loop_body_end lines) variables (trace j)
    = Raise e st' ->
  execute_at (S fuel) lines pc variables st = Raise e st'.
Proof.
  intros Hline Hd Hsub Htimes Hscan Htrace Hj Hturn Hraise.
  unfold clean_line in *.
  rewrite (execute_at_line _ _ _ _ _ _ Hline)
    by (eapply dispatch_not_blank; [exact Hd|discriminate]).
  apply bind_Raise. rewrite (exec_line_loop _ _ _ _ _ _ _ Hd).
  unfold exec_loop. rewrite (bind_Ok _ _ _ _ _ Hsub), Htimes, Hscan.
  apply bind_Raise. subst st0.
  apply (run_loop_raises _ _ j); assumption.
Qed.


(** X22.  An attribute assignment stores whatever the evaluation gives, None
    included (a failed evaluation too): unlike a general assignment it has
    no check, and the attribute is set on the object that [this] names, as
    the evaluation has left it. *)
Theorem attribute_assignment_stores_None
    (exec : list string -> gmap string value -> M (value * gmap string value))
    (fuel : nat) (lines : list string) (pc : nat)
    (original_line attr_name value_str text : string)
    (variables : gmap string value) (st st1 st2 : interp) (v : value)
    (this : nat) (o : MSlashObject) :
  dispatch (FUNCTIONS st) original_line = BVar ->
  Text.startswith "var this." original_line = true ->
  variables !! "this" = Some (VInst this) ->
  Text.split_once "="%char (Text.skip 9 original_line)
    = Some (attr_name, value_str) ->
  substitute_vars fuel (Text.strip value_str) variables st = Ok text st1 ->
  safe_eval text variables st1 = Ok v st2 ->
  objects st2 !! this = Some o ->
  exists st',
    exec_line exec fuel lines pc original_line variables st
      = Ok (Next pc variables) st' /\
    objects st' !! this
      = Some (MkObject (class_name o)
                       (<[Text.strip attr_name := v]> (attributes o))) /\
    (forall a, a <> this -> objects st' !! a = objects st2 !! a) /\
    stdout st' = stdout st2.
Proof.
  intros Hd Hthis Hvar Hsplit Hsub Heval Ho.
  eexists. split; [|split; [|split]].
  - rewrite (exec_line_var _ _ _ _ _ _ _ Hd).
    unfold exec_var. rewrite Hthis. unfold exec_var_this. rewrite Hvar, Hsplit.
    unfold bind at 1. unfold bind at 1. unfold try_except.
    rewrite (bind_Ok _ _ _ _ _ Hsub), (bind_Ok _ _ _ _ _ Heval).
    reflexivity.
  - cbn. rewrite list_lookup_alter_eq, Ho. reflexivity.
  - intros a Ha. cbn. apply list_lookup_alter_ne. congruence.
  - reflexivity.
Qed.

(** X23.  An assignment from a call with the wrong number of arguments prints
    the error, does not call, and binds the name to None. *)
Theorem assignment_from_call_arity_mismatch
    (exec : list string -> gmap string value -> M (value * gmap string value))
    (fuel : nat) (lines : list string) (pc : nat)
    (original_line name_part value_part func_name arg_str : string)
    (info : func_info) (variables : gmap string value) (st : interp) :
  dispatch (FUNCTIONS st) original_line = BVar ->
  Text.startswith "var this." original_line = false ->
  Text.split_once "="%char (Text.skip 4 original_line)
    = Some (name_part, value_part) ->
  Text.match_call (Text.strip value_part) = Some (func_name, arg_str) ->
  FUNCTIONS st !! func_name = Some info ->
  length (split_args arg_str) <> length (args info) ->
  exec_line exec fuel lines pc original_line variables st
  = Ok (Next pc (<[Text.strip name_part := VNone]> variables))
       (printed (arity_error func_name (length (args info))
                             (length (split_args arg_str))) st).
Proof.
  intros Hd Hthis Hsplit Hcall Hinfo Hlen.
  rewrite (exec_line_var _ _ _ _ _ _ _ Hd).
  unfold exec_var. rewrite Hthis. unfold exec_var_regular. rewrite Hsplit.
  unfold bind at 1. unfold try_except. unfold bind at 1. unfold get at 1.
  rewrite Hcall. unfold known_call. rewrite Hinfo. cbn beta iota.
  rewrite Hinfo. unfold assign_call.
  apply Nat.eqb_neq in Hlen. rewrite Hlen. reflexivity.
Qed.

(** X24.  Instantiation of a class that is not defined prints the error, makes no
    object and binds nothing; of a class without an init method it makes an
    object without attributes at a new address and binds the name to it,
    whatever the arguments are. *)
Theorem instantiation_without_init
    (exec : list string -> gmap string value -> M (value * gmap string value))
    (fuel : nat) (lines : list string) (pc : nat)
    (original_line name_part value_part cls arg_str : string)
    (variables : gmap string value) (st : interp) :
  dispatch (FUNCTIONS st) original_line = BNew ->
  Text.split_once "="%char (Text.skip 4 original_line)
    = Some (name_part, value_part) ->
  Text.match_new (Text.strip value_part) = Some (cls, arg_str) ->
  (methods <$> CLASSES st !! cls) ≫= (fun ms => ms !! "init") = None ->
  exec_line exec fuel lines pc original_line variables st =
  match CLASSES st !! cls with
  | None =>
      Ok (Next pc variables)
         (printed ("Error: Class '" +:+ cls +:+ "' is not defined.") st)
  | Some _ =>
      Ok (Next pc (<[Text.strip name_part := VInst (length (objects st))]>
                     variables))
         (set_objects (objects st ++ [MkObject cls ∅]) st)
  end.
Proof.
  intros Hd Hsplit Hnew Hinit.
  unfold exec_line. unfold bind at 1. unfold get at 1. cbn beta iota.
  rewrite Hd. unfold exec_new. rewrite Hsplit, Hnew.
  unfold bind at 1. unfold try_except. unfold bind at 1. unfold get at 1.
  destruct (CLASSES st !! cls) as [ci|]; [|reflexivity].
  cbn in Hinit. unfold bind at 1. unfold new_MSlashObject, bind, get, modify.
  cbn. rewrite Hinit. reflexivity.
Qed.

(** X25.  A method-call statement whose receiver is no instance, or whose class
    has no such method: the error is printed and nothing else happens. *)
Theorem method_call_errors
    (exec : list string -> gmap string value -> M (value * gmap string value))
    (fuel : nat) (lines : list string) (pc : nat)
    (original_line obj_expr method_name arg_str text : string)
    (variables : gmap string value) (st st0 st1 : interp) (v : value) :
  dispatch (FUNCTIONS st) original_line
    = BMethodCall obj_expr method_name arg_str ->
  substitute_vars fuel obj_expr variables st = Ok text st0 ->
  safe_eval text variables st0 = Ok v st1 ->
  match v with
  | VInst a =>
      (objects st1 !! a ≫= fun o =>
       CLASSES st1 !! class_name o ≫= fun c => methods c !! method_name) = None
  | _ => True
  end ->
  exec_line exec fuel lines pc original_line variables st
  = Ok (Next pc variables)
       (printed (match v with
                 | VInst _ =>
                     "Error: Method '" +:+ method_name +:+
                     "' not found on object."
                 | _ =>
                     "Error: '" +:+ obj_expr +:+
                     "' did not evaluate to an object."
                 end) st1).
Proof.
  intros Hd Hsub Heval Hv.
  rewrite (exec_line_method_call _ _ _ _ _ _ _ _ _ _ Hd).
  unfold exec_method_call.
  unfold bind at 1. rewrite (bind_Ok _ _ _ _ _ Hsub), (bind_Ok _ _ _ _ _ Heval).
  destruct v; try reflexivity.
  unfold bind at 1. unfold get at 1. unfold bind at 1. unfold get at 1.
  rewrite Hv. reflexivity.
Qed.

(** X26.  A module whose loading raises something else than a missing file: an
    instance of Exception (the end of the input, a KeyError of the
    preprocessor) is reported as an import error and the script goes on with
    the next line; an exit of the process (a break in the module) is not
    caught and ends the importing script too. *)
Theorem steal_from_failing_module (fuel : nat) (lines : list string)
    (pc : nat) (raw_line symbol module_path : string)
    (variables : gmap string value) (st st' : interp) (e : py_exn) :
  lines !! pc = Some raw_line ->
  dispatch (FUNCTIONS st) (clean_line raw_line) = BSteal ->
  Text.match_steal (clean_line raw_line) = Some (symbol, module_path) ->
  load_module (execute fuel) module_path st = Raise e st' ->
  is_FileNotFoundError e = false ->
  execute_at (S fuel) lines pc variables st =
  if is_Exception e
  then execute_at fuel lines (S pc) variables
         (printed ("Import Error on line " +:+ line_no pc +:+ ": " +:+
                   exn_msg e) st')
  else Raise e st'.
Proof.
  intros Hline Hd Hsteal Hload Hnf. unfold clean_line in *.
  rewrite (execute_at_line _ _ _ _ _ _ Hline)
    by (eapply dispatch_not_blank; [exact Hd|discriminate]).
  unfold bind at 1. rewrite (exec_line_steal _ _ _ _ _ _ _ Hd).
  unfold bind at 1. unfold exec_steal. rewrite Hsteal. unfold try_except.
  rewrite (bind_Raise _ _ _ _ _ Hload). cbn [first_clause]. unfold except.
  rewrite Hnf. destruct (is_Exception e); reflexivity.
Qed.

(** X27.  A return statement ends this call of [execute] with the value of its
    expression (None when the evaluation fails): the lines behind it do not
    run. *)
Theorem return_ends_the_call (fuel : nat) (lines : list string) (pc : nat)
    (raw_line text : string) (variables : gmap string value)
    (st st0 st1 : interp) (v : value) :
  lines !! pc = Some raw_line ->
  dispatch (FUNCTIONS st) (clean_line raw_line) = BReturn ->
  substitute_vars fuel (Text.strip (Text.skip 7 (clean_line raw_line)))
                  variables st = Ok text st0 ->
  safe_eval text variables st0 = Ok v st1 ->
  execute_at (S fuel) lines pc variables st = Ok (v, variables) st1.
Proof.
  intros Hline Hd Hsub Heval. unfold clean_line in *.
  rewrite (execute_at_line _ _ _ _ _ _ Hline)
    by (eapply dispatch_not_blank; [exact Hd|discriminate]).
  unfold bind at 1. unfold exec_line. unfold bind at 1. unfold get at 1.
  cbn beta iota. rewrite Hd. unfold bind at 1. unfold exec_return.
  rewrite (bind_Ok _ _ _ _ _ Hsub), Heval. reflexivity.
Qed.

(** X28.  A script of blank lines and comments does nothing. *)
Theorem blank_script_does_nothing (lines : list string)
    (variables : gmap string value) (st : interp) :
  forallb (fun l => Text.is_empty (clean_line l)) lines = true ->
  execute (S (length lines)) lines variables st = Ok (VNone, variables) st.
Proof.
  intros Hb. unfold execute.
  assert (Hgen : forall n pc, n + pc = length lines ->
            execute_at (S n) lines pc variables st = Ok (VNone, variables) st).
  { induction n as [|n IH]; intros pc Hpc.
    - cbn [execute_at]. rewrite lookup_ge_None_2 by lia. reflexivity.
    - cbn [execute_at].
      destruct (lines !! pc) as [raw_line|] eqn:Hl; [|reflexivity].
      assert (Hraw : Text.is_empty (clean_line raw_line) = true).
      { rewrite forallb_forall in Hb. apply Hb.
        apply list_elem_of_In. eapply list_elem_of_lookup_2. exact Hl. }
      unfold clean_line in Hraw. rewrite Hraw. apply IH. lia. }
  apply Hgen. lia.
Qed.

End EdgeFacts.

(** ** Modules and the entry point *)

Section ModuleFacts.
Context `{Host}.


(** X30.  [main] handles every instance of Exception: what it lets through is an
    exit of the process (a break statement) or an interrupt. *)
Theorem main_only_exits (fuel : nat) (target_file : string)
    (st st' : interp) (e : py_exn) :
  main fuel target_file st = Raise e st' -> is_Exception e = false.
Proof.
  unfold main, try_except.
  match goal with |- context [match ?m st with _ => _ end] =>
    destruct (m st) as [r st1|e1 st1|] end; try discriminate.
  cbn [first_clause]. unfold except.
  destruct (is_FileNotFoundError e1); [discriminate|].
  destruct (is_Exception e1) eqn:He; [discriminate|].
  intros [= <- <-]. exact He.
Qed.

End ModuleFacts.

(** ** What a run never does *)

Ltac clause H :=
  cbn [first_clause] in H; unfold except in H;
  repeat match type of H with
         | context [if ?c then _ else _] => destruct c
         end;
  try discriminate; injection H as <-.

Section Invariant.
Context `{Host}.
Variable R : interp -> interp -> Prop.
Hypothesis R_refl : forall st, R st st.
Hypothesis R_trans : forall a b c, R a b -> R b c -> R a c.
Hypothesis R_write : forall s st, R st (set_stdout (stdout st ++ [s]) st).
Hypothesis R_read : forall st l ls, stdin st = l :: ls -> R st (set_stdin ls st).
Hypothesis R_alloc :
  forall cls st, R st (set_objects (objects st ++ [MkObject cls ∅]) st).
Hypothesis R_set_attribute :
  forall a k v st,
    R st (set_objects
            (alter (fun o => MkObject (class_name o) (<[k := v]> (attributes o)))
                   a (objects st)) st).
Hypothesis R_add_function :
  forall k v st, R st (set_FUNCTIONS (<[k := v]> (FUNCTIONS st)) st).
Hypothesis R_add_class :
  forall k v st, R st (set_CLASSES (<[k := v]> (CLASSES st)) st).
Hypothesis R_eval : forall e b l st, R st (py_eval e b l st).2.

Lemma preserves_ret {A : Type} (a : A) : preserves R (ret a).
Proof. intros st. apply R_refl. Qed.

Lemma preserves_raise {A : Type} (e : py_exn) : preserves R (@raise A e).
Proof. intros st. apply R_refl. Qed.

Lemma preserves_out_of_fuel {A : Type} : preserves R (@out_of_fuel A).
Proof. intros st. exact I. Qed.

Lemma preserves_get {A : Type} (f : interp -> A) : preserves R (get f).
Proof. intros st. apply R_refl. Qed.

Lemma preserves_bind {A B : Type} (m : M A) (k : A -> M B) :
  preserves R m -> (forall a, preserves R (k a)) -> preserves R (bind m k).
Proof.
  intros Hm Hk st. unfold bind. specialize (Hm st).
  destruct (m st) as [a st1|e st1|]; [|exact Hm|exact I].
  specialize (Hk a st1). destruct (k a st1); eauto.
Qed.

Lemma preserves_try_except {A : Type} (m : M A)
    (clauses : list (py_exn -> option (M A))) :
  preserves R m ->
  (forall e h, first_clause clauses e = Some h -> preserves R h) ->
  preserves R (try_except m clauses).
Proof.
  intros Hm Hh st. unfold try_except. specialize (Hm st).
  destruct (m st) as [a st1|e st1|]; [exact Hm| |exact I].
  destruct (first_clause clauses e) as [h|] eqn:Hc; [|exact Hm].
  specialize (Hh e h Hc st1). destruct (h st1); eauto.
Qed.

Lemma preserves_write (s : string) : preserves R (write s).
Proof. intros st. apply R_write. Qed.

Lemma preserves_print (s : string) : preserves R (print s).
Proof. apply preserves_write. Qed.

Lemma preserves_print_all (msgs : list string) : preserves R (print_all msgs).
Proof.
  induction msgs as [|m msgs IH]; [apply preserves_ret|].
  cbn [print_all]. apply preserves_bind; [apply preserves_print|intros _; exact IH].
Qed.

Lemma preserves_py_input (prompt : option string) :
  preserves R (py_input prompt).
Proof.
  unfold py_input. apply preserves_bind.
  - destruct prompt; [apply preserves_write|apply preserves_ret].
  - intros _ st. destruct (stdin st) as [|l ls] eqn:Hin; [apply R_refl|].
    eapply R_read. exact Hin.
Qed.

Lemma preserves_host_eval (e : string) (b : bool) (l : gmap string value) :
  preserves R (host_eval e b l).
Proof.
  intros st. unfold host_eval. pose proof (R_eval e b l st) as Hr.
  destruct (py_eval _ _ _ _) as [[v|x] st']; exact Hr.
Qed.

Lemma preserves_safe_eval (e : string) (variables : gmap string value) :
  preserves R (safe_eval e variables).
Proof.
  intros st. rewrite safe_eval_spec.
  pose proof (R_eval e true (eval_locals_of variables (objects st)) st) as Hr.
  destruct (py_eval _ _ _ _) as [[v|ex] st']; [|destruct (is_Exception ex)];
    exact Hr.
Qed.

Lemma preserves_new_MSlashObject (cls : string) :
  preserves R (new_MSlashObject cls).
Proof. intros st. apply R_alloc. Qed.

Lemma preserves_set_attribute (a : nat) (k : string) (v : value) :
  preserves R (set_attribute a k v).
Proof. intros st. apply R_set_attribute. Qed.

Lemma preserves_add_function (k : string) (v : func_info) :
  preserves R (modify (fun st => set_FUNCTIONS (<[k := v]> (FUNCTIONS st)) st)).
Proof. intros st. apply R_add_function. Qed.

Lemma preserves_add_class (k : string) (v : class_info) :
  preserves R (modify (fun st => set_CLASSES (<[k := v]> (CLASSES st)) st)).
Proof. intros st. apply R_add_class. Qed.

Ltac pres_with extra :=
  repeat first
    [ assumption
    | extra
    | simple apply preserves_ret
    | simple apply preserves_raise
    | simple apply preserves_out_of_fuel
    | simple apply preserves_get
    | simple apply preserves_print
    | simple apply preserves_print_all
    | simple apply preserves_write
    | simple apply preserves_py_input
    | simple apply preserves_host_eval
    | simple apply preserves_safe_eval
    | simple apply preserves_new_MSlashObject
    | simple apply preserves_set_attribute
    | simple apply preserves_add_function
    | simple apply preserves_add_class
    | simple apply preserves_bind; [|intros]
    | match goal with
      | |- preserves _ (match ?x with _ => _ end) => destruct x
      | |- preserves _ (if ?b then _ else _) => destruct b
      end
    | simple apply preserves_try_except;
      [|let e := fresh "e" in let h := fresh "h" in let Hc := fresh "Hc" in
        intros e h Hc; clause Hc]
    ].

Ltac pres := pres_with fail.

Lemma preserves_substitute_vars (fuel : nat) (line : string)
    (variables : gmap string value) :
  preserves R (substitute_vars fuel line variables).
Proof.
  revert line. induction fuel as [|fuel IH]; intros line; cbn [substitute_vars].
  - pres.
  - destruct (Text.search_interp line) as [[[before e] after]|]; pres;
      apply IH.
Qed.

Lemma preserves_key_error {A : Type} (k : string) : preserves R (@key_error A k).
Proof. apply preserves_raise. Qed.

Lemma preserves_finally {A : Type} (m : M A) (cleanup : interp -> interp) :
  preserves R m -> (forall st, R st (cleanup st)) ->
  preserves R (finally m cleanup).
Proof.
  intros Hm Hc st. unfold finally. specialize (Hm st).
  destruct (m st) as [a st1|e st1|]; [| |exact I];
    (eapply R_trans; [exact Hm|apply Hc]).
Qed.

Lemma preserves_preprocess_class_body (c : string) (class_lines : list string) :
  preserves R (preprocess_class_body c class_lines).
Proof. intros st. apply R_add_class. Qed.

Lemma preserves_complete_function (cname : option string)
    (cbody : list string) :
  preserves R
    (functions <- get FUNCTIONS ;;
     match cname with
     | Some name =>
         match functions !! name with
         | Some info =>
             modify (set_FUNCTIONS
                       (<[name := FuncInfo (args info) cbody]> functions))
         | None => key_error ("'" +:+ name +:+ "'")
         end
     | None => key_error "None"
     end).
Proof.
  intros st. unfold bind, get.
  destruct cname as [name|]; [|apply R_refl].
  destruct (FUNCTIONS st !! name); [apply R_add_function|apply R_refl].
Qed.

Lemma preserves_script_step (s : script_scan) (line : string) :
  preserves R (script_step s line).
Proof.
  unfold script_step. destruct s as [main inc cname cbody nest cls].
  pres_with ltac:(first [ simple apply preserves_preprocess_class_body
                        | simple apply preserves_complete_function
                        | simple apply preserves_key_error ]).
Qed.

Lemma preserves_script_loop (s : script_scan) (all_lines : list string) :
  preserves R (script_loop s all_lines).
Proof.
  revert s. induction all_lines as [|line rest IH]; intros s;
    cbn [script_loop]; [apply preserves_ret|].
  apply preserves_bind; [apply preserves_script_step|intros s'; apply IH].
Qed.

Lemma preserves_preprocess_script (all_lines : list string) :
  preserves R (preprocess_script all_lines).
Proof.
  unfold preprocess_script.
  apply preserves_bind; [apply preserves_script_loop|intros; apply preserves_ret].
Qed.

Lemma preserves_read_lines (path : string) : preserves R (read_lines path).
Proof. unfold read_lines. pres. Qed.

Section BranchInvariants.
Variable exec : list string -> gmap string value ->
                M (value * gmap string value).
Variable fuel : nat.
Hypothesis Hexec : forall ls vs, preserves R (exec ls vs).
Hypothesis Hload : forall path, preserves R (load_module exec path).

Lemma preserves_eval_args (raw : list string) (variables : gmap string value) :
  preserves R (eval_args fuel raw variables).
Proof.
  induction raw as [|v raw IH]; cbn [eval_args]; pres;
    try apply preserves_substitute_vars.
Qed.

Ltac pres' :=
  pres_with ltac:(first
    [ simple apply preserves_key_error
    | simple apply preserves_substitute_vars
    | simple apply preserves_eval_args
    | simple apply Hexec
    | simple apply Hload ]).

Lemma preserves_exec_steal pc line variables :
  preserves R (exec_steal exec pc line variables).
Proof. unfold exec_steal. pres'. Qed.

Lemma preserves_exec_func_call f a variables :
  preserves R (exec_func_call exec fuel f a variables).
Proof. unfold exec_func_call. pres'. Qed.

Lemma preserves_exec_new pc line variables :
  preserves R (exec_new exec fuel pc line variables).
Proof. unfold exec_new. pres'. Qed.

Lemma preserves_exec_method_call o m a variables :
  preserves R (exec_method_call exec fuel o m a variables).
Proof. unfold exec_method_call. pres'. Qed.

Lemma preserves_exec_var pc line variables :
  preserves R (exec_var exec fuel pc line variables).
Proof.
  unfold exec_var, exec_var_this, exec_var_regular, assign_call, assign_general.
  pres'.
Qed.

Lemma preserves_run_loop n code variables :
  preserves R (run_loop exec n code variables).
Proof. induction n as [|n IH]; cbn [run_loop]; pres'. Qed.

Lemma preserves_exec_line lines pc line variables :
  preserves R (exec_line exec fuel lines pc line variables).
Proof.
  unfold exec_line. apply preserves_bind; [pres|]. intros functions.
  destruct (dispatch functions line);
    try (simple apply preserves_bind; [|intros; pres]);
    first [ simple apply preserves_exec_steal
          | simple apply preserves_exec_func_call
          | simple apply preserves_exec_new
          | simple apply preserves_exec_method_call
          | simple apply preserves_exec_var
          | idtac ];
    unfold exec_say, exec_input, exec_math, exec_emptyline, exec_return,
           exec_if, exec_loop;
    pres'; simple apply preserves_run_loop.
Qed.

End BranchInvariants.
End Invariant.

Section Whole.
Context `{Host}.
Variable R : interp -> interp -> Prop.
Hypothesis R_refl : forall st, R st st.
Hypothesis R_trans : forall a b c, R a b -> R b c -> R a c.
Hypothesis R_write : forall s st, R st (set_stdout (stdout st ++ [s]) st).
Hypothesis R_read : forall st l ls, stdin st = l :: ls -> R st (set_stdin ls st).
Hypothesis R_alloc :
  forall cls st, R st (set_objects (objects st ++ [MkObject cls ∅]) st).
Hypothesis R_set_attribute :
  forall a k v st,
    R st (set_objects
            (alter (fun o => MkObject (class_name o) (<[k := v]> (attributes o)))
                   a (objects st)) st).
Hypothesis R_add_function :
  forall k v st, R st (set_FUNCTIONS (<[k := v]> (FUNCTIONS st)) st).
Hypothesis R_add_class :
  forall k v st, R st (set_CLASSES (<[k := v]> (CLASSES st)) st).
Hypothesis R_eval : forall e b l st, R st (py_eval e b l st).2.
Hypothesis R_load :
  forall exec, (forall ls vs, preserves R (exec ls vs)) ->
               forall path, preserves R (load_module exec path).

Lemma preserves_execute_at (fuel : nat) (lines : list string) (pc : nat)
    (variables : gmap string value) :
  preserves R (execute_at fuel lines pc variables).
Proof.
  revert lines pc variables.
  induction fuel as [|fuel IH]; intros lines pc variables;
    cbn [execute_at]; [intros st; exact I|].
  destruct (lines !! pc) as [raw_line|]; [|apply preserves_ret; assumption].
  destruct (Text.is_empty _); [apply IH|].
  apply preserves_bind; [assumption| |].
  - apply preserves_exec_line; try assumption.
    + intros ls vs. apply IH.
    + intros path. apply R_load. intros ls vs. apply IH.
  - intros [pc' vs|rv vs|vs]; [apply IH| |]; apply preserves_ret; assumption.
Qed.

End Whole.

(** A relation that no change of the registries breaks is kept by the
    module loader. *)
Section Insensitive.
Context `{Host}.
Variable R : interp -> interp -> Prop.
Hypothesis R_refl : forall st, R st st.
Hypothesis R_trans : forall a b c, R a b -> R b c -> R a c.
Hypothesis R_write : forall s st, R st (set_stdout (stdout st ++ [s]) st).
Hypothesis R_set_functions : forall f st, R st (set_FUNCTIONS f st).
Hypothesis R_set_classes : forall c st, R st (set_CLASSES c st).

Lemma preserves_load_module
    (exec : list string -> gmap string value -> M (value * gmap string value))
    (path : string) :
  (forall ls vs, preserves R (exec ls vs)) ->
  preserves R (load_module exec path).
Proof.
  intros Hexec. unfold load_module.
  apply preserves_bind; [assumption|apply preserves_get; assumption|].
  intros saved_functions.
  apply preserves_bind; [assumption|apply preserves_get; assumption|].
  intros saved_classes.
  apply preserves_finally; [assumption| |].
  - apply preserves_bind; [assumption|intros st; apply R_set_functions|].
    intros _.
    apply preserves_bind; [assumption|intros st; apply R_set_classes|].
    intros _.
    apply preserves_bind; [assumption|apply preserves_read_lines; assumption|].
    intros lines.
    apply preserves_bind;
      [assumption|apply preserves_preprocess_script; auto|].
    intros main_script_lines.
    apply preserves_bind; [assumption|apply Hexec|].
    intros [rv module_vars].
    apply preserves_bind; [assumption|apply preserves_get; assumption|].
    intros mf.
    apply preserves_bind; [assumption|apply preserves_get; assumption|].
    intros mc. apply preserves_ret; assumption.
  - intros st. eapply R_trans; [apply R_set_functions|apply R_set_classes].
Qed.

End Insensitive.

Section Invariants.
Context `{Host}.

Lemma preserves_main (R : interp -> interp -> Prop) (fuel : nat)
    (target_file : string) :
  (forall st, R st st) ->
  (forall a b c, R a b -> R b c -> R a c) ->
  (forall s st, R st (set_stdout (stdout st ++ [s]) st)) ->
  (forall k v st, R st (set_FUNCTIONS (<[k := v]> (FUNCTIONS st)) st)) ->
  (forall k v st, R st (set_CLASSES (<[k := v]> (CLASSES st)) st)) ->
  (forall lines variables, preserves R (execute fuel lines variables)) ->
  preserves R (main fuel target_file).
Proof.
  intros R_refl R_trans R_write R_f R_c Hexec. unfold main.
  apply preserves_try_except; [assumption| |].
  - apply preserves_bind; [assumption|apply preserves_read_lines; assumption|].
    intros lines.
    apply preserves_bind;
      [assumption|apply preserves_preprocess_script; assumption|].
    intros main_script_lines.
    apply preserves_bind; [assumption|apply Hexec|].
    intros _. apply preserves_ret; assumption.
  - intros e h Hc. clause Hc; apply preserves_print; assumption.
Qed.

(** X1.  Nothing that was printed is taken back: the output after a run starts
    with the output before it. *)
Theorem output_is_append_only :
  (forall fuel lines variables st,
     match execute fuel lines variables st with
     | Ok _ st' | Raise _ st' => stdout st `prefix_of` stdout st'
     | OutOfFuel => True
     end) /\
  (forall fuel target_file st,
     match main fuel target_file st with
     | Ok _ st' | Raise _ st' => stdout st `prefix_of` stdout st'
     | OutOfFuel => True
     end).
Proof.
  set (R := fun st st' : interp => stdout st `prefix_of` stdout st').
  assert (R_refl : forall st, R st st) by (intros st; unfold R; reflexivity).
  assert (R_trans : forall a b c, R a b -> R b c -> R a c)
    by (intros a b c; unfold R; apply transitivity).
  assert (R_write : forall s st, R st (set_stdout (stdout st ++ [s]) st))
    by (intros s st; unfold R; cbn; apply prefix_app_r; reflexivity).
  assert (R_eval : forall e b l st, R st (py_eval e b l st).2)
    by (intros e b l st; apply py_eval_stdout).
  assert (R_same : forall st st', stdout st' = stdout st -> R st st')
    by (intros st st' Heq; unfold R; rewrite Heq; reflexivity).
  assert (Hexec : forall fuel lines variables,
            preserves R (execute fuel lines variables)).
  { intros fuel lines variables. unfold execute.
    apply preserves_execute_at; try assumption;
      try (intros; apply R_same; reflexivity).
    intros exec Hex path. apply preserves_load_module; try assumption;
      intros; apply R_same; reflexivity. }
  split.
  - intros fuel lines variables st. apply (Hexec fuel lines variables st).
  - intros fuel target_file st.
    apply (preserves_main R fuel target_file); try assumption;
      try (intros; apply R_same; reflexivity).
    apply Hexec.
Qed.

(** X2.  The statements of the interpreter only add objects and add or
    overwrite attributes: when no evaluation of an expression removes an
    object, changes its class name or removes an attribute, no run does. *)
Theorem store_only_grows :
  (forall e b l st, store_grows st (py_eval e b l st).2) ->
  (forall fuel lines variables st,
     match execute fuel lines variables st with
     | Ok _ st' | Raise _ st' => store_grows st st'
     | OutOfFuel => True
     end) /\
  (forall fuel target_file st,
     match main fuel target_file st with
     | Ok _ st' | Raise _ st' => store_grows st st'
     | OutOfFuel => True
     end).
Proof.
  intros R_eval. set (R := store_grows).
  assert (R_refl : forall st, R st st) by (intros st a o Ho; eauto).
  assert (R_same : forall st st', objects st' = objects st -> R st st')
    by (intros st st' Heq a o Ho; rewrite Heq; eauto).
  assert (R_trans : forall a b c, R a b -> R b c -> R a c).
  { intros s1 s2 s3 H12 H23 a o Ho.
    destruct (H12 a o Ho) as (o2 & Ho2 & Hc2 & Hd2).
    destruct (H23 a o2 Ho2) as (o3 & Ho3 & Hc3 & Hd3).
    exists o3. split; [exact Ho3|]. split; [congruence|].
    etransitivity; eassumption. }
  assert (R_alloc : forall cls st,
            R st (set_objects (objects st ++ [MkObject cls ∅]) st)).
  { intros cls st a o Ho. exists o. cbn.
    split; [apply lookup_app_l_Some; exact Ho|]. split; reflexivity. }
  assert (R_set_attribute : forall a k v st,
            R st (set_objects
                    (alter (fun o => MkObject (class_name o)
                                       (<[k := v]> (attributes o)))
                           a (objects st)) st)).
  { intros a k v st a' o Ho. cbn. destruct (decide (a = a')) as [->|Hne].
    - exists (MkObject (class_name o) (<[k := v]> (attributes o))).
      split; [rewrite list_lookup_alter_eq, Ho; reflexivity|].
      split; [reflexivity|].
      cbn. rewrite dom_insert_L. apply union_subseteq_r.
    - exists o. rewrite list_lookup_alter_ne by exact Hne.
      split; [exact Ho|]. split; reflexivity. }
  assert (Hexec : forall fuel lines variables,
            preserves R (execute fuel lines variables)).
  { intros fuel lines variables. unfold execute.
    apply preserves_execute_at; try assumption;
      try (intros; apply R_same; reflexivity).
    intros exec Hex path. apply preserves_load_module; try assumption;
      intros; apply R_same; reflexivity. }
  split.
  - intros fuel lines variables st. apply (Hexec fuel lines variables st).
  - intros fuel target_file st.
    apply (preserves_main R fuel target_file); try assumption;
      try (intros; apply R_same; reflexivity).
    apply Hexec.
Qed.

(** X3.  The statements of the interpreter only take lines from the front
    of the input and change no file: when no evaluation of an expression
    does otherwise, no run does. *)
Theorem input_is_only_consumed :
  (forall e b l st, input_consumed st (py_eval e b l st).2) ->
  (forall fuel lines variables st,
     match execute fuel lines variables st with
     | Ok _ st' | Raise _ st' => input_consumed st st'
     | OutOfFuel => True
     end) /\
  (forall fuel target_file st,
     match main fuel target_file st with
     | Ok _ st' | Raise _ st' => input_consumed st st'
     | OutOfFuel => True
     end).
Proof.
  intros R_eval. set (R := input_consumed).
  assert (R_refl : forall st, R st st) by (intros st; split; reflexivity).
  assert (R_trans : forall a b c, R a b -> R b c -> R a c).
  { intros s1 s2 s3 [H12 F12] [H23 F23]. split; [|congruence].
    etransitivity; eassumption. }
  assert (R_read : forall st l ls, stdin st = l :: ls -> R st (set_stdin ls st)).
  { intros st l ls Hin. split; [|reflexivity]. cbn. rewrite Hin.
    apply suffix_cons_r. reflexivity. }
  assert (Hexec : forall fuel lines variables,
            preserves R (execute fuel lines variables)).
  { intros fuel lines variables. unfold execute.
    apply preserves_execute_at; try assumption;
      try (intros; split; reflexivity).
    intros exec Hex path. apply preserves_load_module; try assumption;
      intros; split; reflexivity. }
  split.
  - intros fuel lines variables st. apply (Hexec fuel lines variables st).
  - intros fuel target_file st.
    apply (preserves_main R fuel target_file); try assumption;
      try (intros; split; reflexivity).
    apply Hexec.
Qed.

(** X4.  The statements of the interpreter only add or replace entries of
    FUNCTIONS and CLASSES, and the module loader gives the registries back:
    when no evaluation of an expression removes a name from a registry, no
    run does. *)
Theorem registries_keep_their_names :
  (forall e b l st, registries_grow st (py_eval e b l st).2) ->
  (forall fuel lines variables st,
     match execute fuel lines variables st with
     | Ok _ st' | Raise _ st' => registries_grow st st'
     | OutOfFuel => True
     end) /\
  (forall fuel target_file st,
     match main fuel target_file st with
     | Ok _ st' | Raise _ st' => registries_grow st st'
     | OutOfFuel => True
     end).
Proof.
  intros R_eval. set (R := registries_grow).
  assert (R_refl : forall st, R st st) by (intros st; split; reflexivity).
  assert (R_trans : forall a b c, R a b -> R b c -> R a c).
  { intros s1 s2 s3 [F12 C12] [F23 C23].
    split; etransitivity; eassumption. }
  assert (R_f : forall k v st,
            R st (set_FUNCTIONS (<[k := v]> (FUNCTIONS st)) st)).
  { intros k v st. split; cbn; [|reflexivity].
    rewrite dom_insert_L. apply union_subseteq_r. }
  assert (R_c : forall k v st,
            R st (set_CLASSES (<[k := v]> (CLASSES st)) st)).
  { intros k v st. split; cbn; [reflexivity|].
    rewrite dom_insert_L. apply union_subseteq_r. }
  assert (Hexec : forall fuel lines variables,
            preserves R (execute fuel lines variables)).
  { intros fuel lines variables. unfold execute.
    apply preserves_execute_at; try assumption;
      try (intros; split; reflexivity).
    intros exec Hex path st.
    pose proof (load_module_restores exec path st) as Hrest.
    destruct (load_module exec path st) as [r st'|e st'|]; [| |exact I];
      destruct Hrest as [Hf Hc]; unfold R, registries_grow; rewrite Hf, Hc;
      split; reflexivity. }
  split.
  - intros fuel lines variables st. apply (Hexec fuel lines variables st).
  - intros fuel target_file st.
    apply (preserves_main R fuel target_file); try assumption;
      try (intros; split; reflexivity).
    apply Hexec.
Qed.

End Invariants.

(** ** Instances of the properties *)

Section Witnesses.
Existing Instance Mini.host.

(** A line with two interpolations and no comment. *)
Lemma strip_inline_comments_keeps_interpolations_witness :
  strip_inline_comments "say ${x} and ${y}" = "say ${x} and ${y}".
Proof.
  apply (strip_inline_comments_keeps_interpolations "say ${x} and ${y}").
  vm_compute; reflexivity.
Defined.

(** A comment in the middle of a line, with a second comment behind it. *)
Lemma strip_inline_comments_removes_comment_witness :
  strip_inline_comments
    ("say 1 " +:+ String "{" (" note " +:+ String "}" " + 2 {more}"))
  = "say 1 " +:+ strip_inline_comments " + 2 {more}".
Proof.
  apply (strip_inline_comments_removes_comment "say 1 " " note "
           " + 2 {more}");
    vm_compute; reflexivity.
Defined.

(** The first of two interpolations is replaced and the new line is searched
    again. *)
Lemma substitute_vars_leftmost_witness :
  substitute_vars 2
    ("say " +:+ String "$" (String "{" ("x" +:+ String "}" " ${y}")))
    {[ "x" := VInt 3; "y" := VInt 4 ]} (Mini.boot ∅ [])
  = substitute_vars 1 "say 3 ${y}" {[ "x" := VInt 3; "y" := VInt 4 ]}
                    (Mini.boot ∅ []).
Proof.
  etransitivity;
    [ apply (substitute_vars_leftmost 1 "say " "x" " ${y}"
               {[ "x" := VInt 3; "y" := VInt 4 ]} (Mini.boot ∅ [])
               (Mini.boot ∅ []) (VInt 3));
      vm_compute; reflexivity
    | vm_compute; reflexivity ].
Defined.

(** [x] holds the text of its own interpolation. *)
Lemma substitute_vars_self_reference_witness :
  substitute_vars 7 (String "$" (String "{" ("x" +:+ String "}" EmptyString)))
                  {[ "x" := VStr "${x}" ]} (Mini.boot ∅ [])
  = OutOfFuel.
Proof.
  apply (substitute_vars_self_reference "x" {[ "x" := VStr "${x}" ]}
           (Mini.boot ∅ []));
    vm_compute; reflexivity.
Defined.

(** The loop of [loop_script] opens on line 1 and its endloop is line 5. *)
Lemma scan_loop_finds_closer_witness :
  1 < 5 < length loop_script /\
  exists l, loop_script !! 5 = Some l /\ is_closer (clean_line l) = true.
Proof.
  apply (scan_loop_finds_closer loop_script 1 5). vm_compute; reflexivity.
Defined.


(** A false condition: the lines behind the else run and bind [y] for the
    caller. *)
Lemma if_else_over_flat_branches_witness :
  execute_at 11
    ([] ++ "if False" :: [ "  var y = 2" ] ++ "else" :: [ "  var y = 3" ] ++
     "endif" :: [ "say y" ]) 0 ∅ (Mini.boot ∅ [])
  = Ok (VNone, {[ "y" := VInt 3 ]}) (printed "3" (Mini.boot ∅ [])).
Proof.
  etransitivity;
    [ apply (if_else_over_flat_branches 10 [] [ "  var y = 2" ]
               [ "  var y = 3" ] [ "say y" ] "if False" "else" "endif"
               "if False" ∅ (Mini.boot ∅ []) (Mini.boot ∅ [])
               (Mini.boot ∅ []) (VBool false));
      vm_compute; reflexivity
    | vm_compute; reflexivity ].
Defined.

(** An if whose only closer behind it closes the loop that was opened
    behind it: the if has no end, and nothing behind it runs. *)
Lemma unclosed_block_ends_the_script_witness :
  execute_at 11
    ([ "say 1" ] ++ "if True" :: [ "loop 2"; "say 2"; "endloop" ]) 1 ∅
    (Mini.boot ∅ [])
  = Ok (VNone, ∅)
       (printed "Syntax Error: 'if' on line 2 has no matching 'endif'."
                (Mini.boot ∅ [])).
Proof.
  etransitivity;
    [ apply (proj1 (unclosed_block_ends_the_script 10 [ "say 1" ]
                      [ "loop 2"; "say 2"; "endloop" ]
                      "if True" "if True" ∅ (Mini.boot ∅ []) (Mini.boot ∅ [])
                      ltac:(vm_compute; reflexivity)
                      ltac:(intros [|[|[|[|k]]]]; vm_compute; lia))
               ltac:(vm_compute; reflexivity) (VBool true) (Mini.boot ∅ [])
               ltac:(vm_compute; reflexivity))
    | vm_compute; reflexivity ].
Defined.

(** Three turns that each read a line, on an input of one line: the second
    turn raises and the line behind the loop does not run. *)
Lemma loop_turn_raises_witness :
  execute_at 11 [ "loop 3"; "  input x"; "endloop"; "say 1" ] 0 ∅
             (Mini.boot ∅ [ "5" ])
  = Raise (Exn EOFError "EOF when reading a line") (Mini.boot ∅ []).
Proof.
  apply (loop_turn_raises 10 [ "loop 3"; "  input x"; "endloop"; "say 1" ] 0
           "loop 3" "loop 3" ∅ (Mini.boot ∅ [ "5" ]) (Mini.boot ∅ [ "5" ])
           (Mini.boot ∅ []) 3 2 1 reading_loop_trace
           (Exn EOFError "EOF when reading a line"));
    [ vm_compute; reflexivity .. | vm_compute; lia
    | intros [|k] Hk; [|lia]; eexists _, _; vm_compute; reflexivity
    | vm_compute; reflexivity ].
Defined.

(** [loop_script] defines nothing. *)
Lemma preprocess_script_without_definitions_witness :
  preprocess_script loop_script (Mini.boot ∅ [])
  = Ok loop_script (Mini.boot ∅ []).
Proof.
  apply (preprocess_script_without_definitions loop_script (Mini.boot ∅ [])).
  vm_compute; reflexivity.
Defined.

(** A function between two lines of main code. *)
Lemma preprocess_script_registers_function_witness :
  preprocess_script
    ([ "say 1" ] ++ "func h(a, b) { two parameters }" :: [ "say a" ] ++
     "endfunc" :: [ "h(1)" ]) (Mini.boot ∅ [])
  = Ok [ "say 1"; "h(1)" ] arity_state.
Proof.
  etransitivity;
    [ apply (preprocess_script_registers_function [ "say 1" ] [ "say a" ]
               [ "h(1)" ] "func h(a, b) { two parameters }" "endfunc" "h"
               "a, b" (Mini.boot ∅ []));
      vm_compute; reflexivity
    | vm_compute; reflexivity ].
Defined.

(** A func line without parentheses. *)
Lemma preprocess_script_header_without_parameters_witness :
  preprocess_script ([] ++ "func broken" :: [ "say 1" ] ++ "endfunc" :: [])
                    (Mini.boot ∅ [])
  = Raise (Exn KeyError "None") (Mini.boot ∅ []).
Proof.
  apply (preprocess_script_header_without_parameters [] [ "say 1" ] []
           "func broken" "endfunc" (Mini.boot ∅ []));
    vm_compute; reflexivity.
Defined.

(** The class of [counter_script]. *)
Lemma preprocess_script_registers_class_witness :
  preprocess_script
    ([] ++ "class Counter" :: concat (map method_lines counter_methods) ++
     [] ++ "endclass" :: [ "var c = new Counter()" ]) (Mini.boot ∅ [])
  = Ok [ "var c = new Counter()" ]
       (Interp ∅ counter_classes [] [] [] [] [] ∅).
Proof.
  etransitivity;
    [ apply (preprocess_script_registers_class [] []
               [ "var c = new Counter()" ] "class Counter" "endclass"
               "Counter" counter_methods (Mini.boot ∅ []));
      vm_compute; reflexivity
    | vm_compute; reflexivity ].
Defined.

(** [nothing] is not bound: the attribute [n] of the counter becomes None. *)
Lemma attribute_assignment_stores_None_witness :
  exists st',
    exec_line (execute 10) 10 [ "var this.n = nothing" ] 0
              "var this.n = nothing" {[ "this" := VInst 0 ]} (counter_state 4)
      = Ok (Next 0 {[ "this" := VInst 0 ]}) st' /\
    objects st' !! 0
      = Some (MkObject (class_name (MkObject "Counter" {[ "n" := VInt 4 ]}))
                (<[Text.strip "n " := VNone]>
                   (attributes (MkObject "Counter" {[ "n" := VInt 4 ]})))) /\
    (forall a, a <> 0 -> objects st' !! a = objects (counter_state 4) !! a) /\
    stdout st' = stdout (counter_state 4).
Proof.
  apply (attribute_assignment_stores_None (execute 10) 10
           [ "var this.n = nothing" ] 0 "var this.n = nothing" "n "
           " nothing" "nothing" {[ "this" := VInst 0 ]} (counter_state 4)
           (counter_state 4) (counter_state 4) VNone 0
           (MkObject "Counter" {[ "n" := VInt 4 ]}));
    vm_compute; reflexivity.
Defined.

(** [h] has two parameters and gets one argument. *)
Lemma assignment_from_call_arity_mismatch_witness :
  exec_line (execute 10) 10 [ "var r = h(1)" ] 0 "var r = h(1)" ∅ arity_state
  = Ok (Next 0 {[ "r" := VNone ]})
       (printed "Error: Function 'h' expects 2 arguments, but got 1."
                arity_state).
Proof.
  etransitivity;
    [ apply (assignment_from_call_arity_mismatch (execute 10) 10
               [ "var r = h(1)" ] 0 "var r = h(1)" "r " " h(1)" "h" "1"
               (FuncInfo [ "a"; "b" ] [ "say a" ]) ∅ arity_state);
      first [ vm_compute; reflexivity | vm_compute; lia ]
    | vm_compute; reflexivity ].
Defined.

(** The class [E] has no init and [new] passes two arguments. *)
Lemma instantiation_without_init_witness :
  exec_line (execute 10) 10 [ "var e = new E(1, 2)" ] 0 "var e = new E(1, 2)"
            ∅ plain_class_state
  = Ok (Next 0 {[ "e" := VInst 0 ]})
       (set_objects [ MkObject "E" ∅ ] plain_class_state).
Proof.
  etransitivity;
    [ apply (instantiation_without_init (execute 10) 10
               [ "var e = new E(1, 2)" ] 0 "var e = new E(1, 2)" "e "
               " new E(1, 2)" "E" "1, 2" ∅ plain_class_state);
      vm_compute; reflexivity
    | vm_compute; reflexivity ].
Defined.

(** The class Counter has no method [reset]. *)
Lemma method_call_errors_witness :
  exec_line (execute 10) 10 [ "c.reset()" ] 0 "c.reset()"
            {[ "c" := VInst 0 ]} (counter_state 4)
  = Ok (Next 0 {[ "c" := VInst 0 ]})
       (printed "Error: Method 'reset' not found on object."
                (counter_state 4)).
Proof.
  etransitivity;
    [ apply (method_call_errors (execute 10) 10 [ "c.reset()" ] 0
               "c.reset()" "c" "reset" EmptyString "c" {[ "c" := VInst 0 ]}
               (counter_state 4) (counter_state 4) (counter_state 4)
               (VInst 0));
      vm_compute; reflexivity
    | vm_compute; reflexivity ].
Defined.

(** The module reads a line and the input is empty. *)
Lemma steal_from_failing_module_witness :
  execute_at 11 [ "steal k from reads.mslash"; "say 1" ] 0 ∅ caller_state
  = Ok (VNone, ∅)
       (printed "1"
          (printed "Import Error on line 1: EOF when reading a line"
                   caller_state)).
Proof.
  etransitivity;
    [ apply (steal_from_failing_module 10
               [ "steal k from reads.mslash"; "say 1" ] 0
               "steal k from reads.mslash" "k" "reads.mslash" ∅ caller_state
               caller_state (Exn EOFError "EOF when reading a line"));
      vm_compute; reflexivity
    | vm_compute; reflexivity ].
Defined.

(** The line behind the return does not print. *)
Lemma return_ends_the_call_witness :
  execute_at 11 [ "return a + 1"; "say 2" ] 0 {[ "a" := VInt 1 ]}
             (Mini.boot ∅ [])
  = Ok (VInt 2, {[ "a" := VInt 1 ]}) (Mini.boot ∅ []).
Proof.
  apply (return_ends_the_call 10 [ "return a + 1"; "say 2" ] 0
           "return a + 1" "a + 1" {[ "a" := VInt 1 ]} (Mini.boot ∅ [])
           (Mini.boot ∅ []) (Mini.boot ∅ []) (VInt 2));
    vm_compute; reflexivity.
Defined.

(** A comment, an empty line and a line of spaces. *)
Lemma blank_script_does_nothing_witness :
  execute 4 [ "{ a comment }"; EmptyString; "   " ] ∅ (Mini.boot ∅ [])
  = Ok (VNone, ∅) (Mini.boot ∅ []).
Proof.
  apply (blank_script_does_nothing [ "{ a comment }"; EmptyString; "   " ] ∅
           (Mini.boot ∅ [])).
  vm_compute; reflexivity.
Defined.

(** The script of the file breaks. *)
Lemma main_only_exits_witness :
  main 10 "exits.mslash" caller_state
  = Raise (Exn SystemExit EmptyString)
          (printed "--- Script terminated by break ---"
             (set_FUNCTIONS
                (<["late" := FuncInfo [] []]> (FUNCTIONS caller_state))
                caller_state)) /\
  is_Exception (Exn SystemExit EmptyString) = false.
Proof.
  split; [vm_compute; reflexivity|].
  apply (main_only_exits 10 "exits.mslash" caller_state
           (printed "--- Script terminated by break ---"
              (set_FUNCTIONS
                 (<["late" := FuncInfo [] []]> (FUNCTIONS caller_state))
                 caller_state))
           (Exn SystemExit EmptyString)).
  vm_compute; reflexivity.
Defined.

(** The small host changes lists and dictionaries only.  A method call
    that adds one to an attribute of the counter. *)
Lemma store_only_grows_witness :
  match execute 12 [ "c.inc()"; "var c = 0" ] {[ "c" := VInst 0 ]}
                (counter_state 0) with
  | Ok _ st' | Raise _ st' => store_grows (counter_state 0) st'
  | OutOfFuel => True
  end.
Proof.
  apply (proj1 (store_only_grows
                  ltac:(intros e b l st a o Ho; exists o;
                        split; [exact Ho|split; reflexivity]))
               12 [ "c.inc()"; "var c = 0" ] {[ "c" := VInst 0 ]}
               (counter_state 0)).
Defined.

(** A script that reads the one line of the input. *)
Lemma input_is_only_consumed_witness :
  match execute 12 [ "input x"; "say x" ] ∅ (Mini.boot ∅ [ "5" ]) with
  | Ok _ st' | Raise _ st' => input_consumed (Mini.boot ∅ [ "5" ]) st'
  | OutOfFuel => True
  end.
Proof.
  apply (proj1 (input_is_only_consumed
                  ltac:(intros e b l st; split; reflexivity))
               12 [ "input x"; "say x" ] ∅ (Mini.boot ∅ [ "5" ])).
Defined.

(** The script that steals a function and a class from the module. *)
Lemma registries_keep_their_names_witness :
  match execute 12 steal_script ∅ caller_state with
  | Ok _ st' | Raise _ st' => registries_grow caller_state st'
  | OutOfFuel => True
  end.
Proof.
  apply (proj1 (registries_keep_their_names
                  ltac:(intros e b l st; split; reflexivity))
               12 steal_script ∅ caller_state).
Defined.

End Witnesses.
